(** * pxmod request channel (dev.c): a shallow embedding and its properties

    The development follows [src/dev.c]: the identifier allocator
    ([fuse_get_unique], [fuse_put_unique]), the slot table
    ([request_map], [request_find]), the ring queue ([queue_request],
    [request_pending]), the read and write paths ([fuse_dev_do_read],
    [fuse_dev_do_write], [fuse_notify_read_data]) and the lifecycle code
    ([fuse_abort_conn], [fuse_restart_requests]).

    Integers of the C code are [Z] with their wrap-around written out
    ([u32], [u64]); arrays are lists read and written by index, pointers to
    requests are addresses into a finite map, and the functions thread the
    connection state explicitly.  A function that can hit a [BUG_ON], touch
    invalid memory or loop returns a [result]. *)

From stdpp Require Import base numbers list gmap sorting.

Local Open Scope Z_scope.

(** ** Machine integers *)

Definition u32 (x : Z) : Z := x mod 2 ^ 32.
Definition u64 (x : Z) : Z := x mod 2 ^ 64.

(** ** Error numbers (include/uapi/asm-generic/errno*.h, linux/errno.h) *)

Definition EPERM : Z := 1.
Definition ENOENT : Z := 2.
Definition EIO : Z := 5.
Definition EAGAIN : Z := 11.
Definition ENOMEM : Z := 12.
Definition EFAULT : Z := 14.
Definition ENODEV : Z := 19.
Definition EINVAL : Z := 22.
Definition ECONNABORTED : Z := 103.
Definition ENOTCONN : Z := 107.
Definition ERESTARTSYS : Z := 512.

(** ** Outcomes of a call *)

Inductive result (A : Type) : Type :=
| Ret (a : A)   (* the call returns *)
| BugOn         (* a BUG_ON assertion fired *)
| Fault         (* access through NULL, a freed request, or outside an array *)
| Spin.         (* the call is still running: the loop budget ran out, or
                   the thread spins on a lock *)
Arguments Ret {A} a.
Arguments BugOn {A}.
Arguments Fault {A}.
Arguments Spin {A}.

Global Instance result_ret : MRet result := fun A a => Ret a.
Global Instance result_bind : MBind result := fun A B f m =>
  match m with
  | Ret a => f a
  | BugOn => BugOn
  | Fault => Fault
  | Spin => Spin
  end.

Definition of_option {A} (o : option A) : result A :=
  match o with Some a => Ret a | None => Fault end.

(** ** Constants and layouts declared in headers that are not under src/

    [fuse_i.h], [pxd.h] and [pxd_compat.h] are not part of the sources at
    hand; what [dev.c] takes from them is collected here. *)

Record pxd_read_data_out := {
  rd_unique : Z;
  rd_iovcnt : Z;
  rd_offset : Z
}.

Record fuse_out_header := {
  oh_len : Z;
  oh_error : Z;
  oh_unique : Z
}.

Record iovec := { iov_base : Z; iov_len : Z }.

Record config := {
  PXD_MAX_QDEPTH : Z;
  PXD_MAX_DEVICES : Z;
  FUSE_REQUEST_QUEUE_SIZE : Z;
  FUSE_MAX_PER_CPU_IDS : Z;
  PX_BLKMQ : bool;                  (* whether __PX_BLKMQ__ is defined *)
  PXD_WRITE : Z;
  PXD_READ : Z;
  PXD_DISCARD : Z;
  PXD_ADD : Z;
  PXD_REMOVE : Z;
  PXD_READ_DATA : Z;
  PXD_UPDATE_SIZE : Z;
  PXD_WRITE_SAME : Z;
  PXD_FLAGS_SYNC : Z;
  PXD_LBS_MASK : Z;
  sizeof_fuse_in_header : Z;
  sizeof_fuse_out_header : Z;
  sizeof_pxd_read_data_out : Z;
  sizeof_pxd_add_out : Z;
  sizeof_pxd_remove_out : Z;
  sizeof_pxd_update_size_out : Z;
  sizeof_iovec : Z;
  (* struct layouts: how the bytes written by the consumer are read *)
  decode_out_header : list Z -> fuse_out_header;
  decode_read_data : list Z -> pxd_read_data_out;
  decode_iovecs : list Z -> list iovec;
  (* the collaborators of pxd.c, seen through their return value *)
  pxd_add : list Z -> Z;
  pxd_remove : list Z -> Z;
  pxd_update_size : list Z -> Z;
  (* how many bytes of the consumer memory named by an iovec array can be
     written before the copy faults *)
  user_writable : list iovec -> Z;
  (* extern uint32_t pxd_detect_zero_writes *)
  pxd_detect_zero_writes : Z
}.

(** ** Data model *)

Definition ptr := nat.

Record fuse_in_header := {
  ih_len : Z;
  ih_opcode : Z;
  ih_unique : Z
}.

Record pxd_rdwr_in := {
  rdwr_size : Z;
  rdwr_flags : Z;
  rdwr_offset : Z
}.

(** The block request behind a fuse request: its segments, each with the
    bytes of its page range. *)
Record request := {
  nr_phys_segments : Z;
  segments : list (list Z)
}.

Record fuse_req := {
  in_h : fuse_in_header;
  in_numargs : Z;
  in_args : list Z;              (* in.args[i].size *)
  out_h : fuse_out_header;
  sequence : Z;
  end_ : bool;                   (* whether req->end is set *)
  misc_pxd_rdwr_in : pxd_rdwr_in;
  rq : request
}.

Record fuse_per_cpu_ids := {
  pc_num_free_ids : Z;
  pc_free_ids : list Z
}.

(** [requests] is the one ring array both [queue.w.requests] and
    [queue.r.requests] point to. *)
Record fuse_req_queue := {
  w_write : Z;
  w_read : Z;
  w_sequence : Z;
  r_read : Z;
  r_write : Z;
  requests : list (option ptr)
}.

(** What the outside observes of a call. *)
Inductive event :=
| EvEnd (req : ptr) (error : Z) (called : bool)
    (* request_end on req, whose out.h.error is error; called tells whether
       req->end was set, and so was called *)
| EvFree (req : ptr)              (* fuse_request_free *)
| EvWakeup                        (* fuse_conn_wakeup *)
| EvWakeAll.                      (* wake_up_all and kill_fasync on abort *)

Global Instance event_eq_dec : EqDecision event.
Proof. solve_decision. Defined.

Record fuse_conn := {
  connected : bool;
  allow_disconnected : bool;
  num_free_ids : Z;
  free_ids : list Z;
  per_cpu_ids : list fuse_per_cpu_ids;
  request_map : list (option ptr);
  queue : fuse_req_queue;
  mem : gmap nat fuse_req;        (* the request objects that are allocated *)
  log : list event
}.

Definition set_connected (v : bool) (fc : fuse_conn) : fuse_conn :=
  {| connected := v; allow_disconnected := allow_disconnected fc;
     num_free_ids := num_free_ids fc; free_ids := free_ids fc;
     per_cpu_ids := per_cpu_ids fc; request_map := request_map fc;
     queue := queue fc; mem := mem fc; log := log fc |}.

Definition set_num_free_ids (v : Z) (fc : fuse_conn) : fuse_conn :=
  {| connected := connected fc; allow_disconnected := allow_disconnected fc;
     num_free_ids := v; free_ids := free_ids fc;
     per_cpu_ids := per_cpu_ids fc; request_map := request_map fc;
     queue := queue fc; mem := mem fc; log := log fc |}.

Definition set_free_ids (v : list Z) (fc : fuse_conn) : fuse_conn :=
  {| connected := connected fc; allow_disconnected := allow_disconnected fc;
     num_free_ids := num_free_ids fc; free_ids := v;
     per_cpu_ids := per_cpu_ids fc; request_map := request_map fc;
     queue := queue fc; mem := mem fc; log := log fc |}.

Definition set_per_cpu_ids (v : list fuse_per_cpu_ids) (fc : fuse_conn) : fuse_conn :=
  {| connected := connected fc; allow_disconnected := allow_disconnected fc;
     num_free_ids := num_free_ids fc; free_ids := free_ids fc;
     per_cpu_ids := v; request_map := request_map fc;
     queue := queue fc; mem := mem fc; log := log fc |}.

Definition set_request_map (v : list (option ptr)) (fc : fuse_conn) : fuse_conn :=
  {| connected := connected fc; allow_disconnected := allow_disconnected fc;
     num_free_ids := num_free_ids fc; free_ids := free_ids fc;
     per_cpu_ids := per_cpu_ids fc; request_map := v;
     queue := queue fc; mem := mem fc; log := log fc |}.

Definition set_queue (v : fuse_req_queue) (fc : fuse_conn) : fuse_conn :=
  {| connected := connected fc; allow_disconnected := allow_disconnected fc;
     num_free_ids := num_free_ids fc; free_ids := free_ids fc;
     per_cpu_ids := per_cpu_ids fc; request_map := request_map fc;
     queue := v; mem := mem fc; log := log fc |}.

Definition set_mem (v : gmap nat fuse_req) (fc : fuse_conn) : fuse_conn :=
  {| connected := connected fc; allow_disconnected := allow_disconnected fc;
     num_free_ids := num_free_ids fc; free_ids := free_ids fc;
     per_cpu_ids := per_cpu_ids fc; request_map := request_map fc;
     queue := queue fc; mem := v; log := log fc |}.

Definition emit (e : event) (fc : fuse_conn) : fuse_conn :=
  {| connected := connected fc; allow_disconnected := allow_disconnected fc;
     num_free_ids := num_free_ids fc; free_ids := free_ids fc;
     per_cpu_ids := per_cpu_ids fc; request_map := request_map fc;
     queue := queue fc; mem := mem fc; log := log fc ++ [e] |}.

(** Field updates of a request. *)
Definition set_in_h (h : fuse_in_header) (r : fuse_req) : fuse_req :=
  {| in_h := h; in_numargs := in_numargs r; in_args := in_args r;
     out_h := out_h r; sequence := sequence r; end_ := end_ r;
     misc_pxd_rdwr_in := misc_pxd_rdwr_in r; rq := rq r |}.

Definition set_out_h (h : fuse_out_header) (r : fuse_req) : fuse_req :=
  {| in_h := in_h r; in_numargs := in_numargs r; in_args := in_args r;
     out_h := h; sequence := sequence r; end_ := end_ r;
     misc_pxd_rdwr_in := misc_pxd_rdwr_in r; rq := rq r |}.

Definition set_sequence (s : Z) (r : fuse_req) : fuse_req :=
  {| in_h := in_h r; in_numargs := in_numargs r; in_args := in_args r;
     out_h := out_h r; sequence := s; end_ := end_ r;
     misc_pxd_rdwr_in := misc_pxd_rdwr_in r; rq := rq r |}.

Definition set_rq (q : request) (r : fuse_req) : fuse_req :=
  {| in_h := in_h r; in_numargs := in_numargs r; in_args := in_args r;
     out_h := out_h r; sequence := sequence r; end_ := end_ r;
     misc_pxd_rdwr_in := misc_pxd_rdwr_in r; rq := q |}.

Definition set_out_error (e : Z) (r : fuse_req) : fuse_req :=
  set_out_h {| oh_len := oh_len (out_h r); oh_error := e;
               oh_unique := oh_unique (out_h r) |} r.

Definition set_in_len (n : Z) (r : fuse_req) : fuse_req :=
  set_in_h {| ih_len := n; ih_opcode := ih_opcode (in_h r);
              ih_unique := ih_unique (in_h r) |} r.

Definition set_in_unique (u : Z) (r : fuse_req) : fuse_req :=
  set_in_h {| ih_len := ih_len (in_h r); ih_opcode := ih_opcode (in_h r);
              ih_unique := u |} r.

Definition set_in_opcode (o : Z) (r : fuse_req) : fuse_req :=
  set_in_h {| ih_len := ih_len (in_h r); ih_opcode := o;
              ih_unique := ih_unique (in_h r) |} r.

(** ** Memory accesses *)

(** [a[i]] for an array held as a list; an index outside it is a fault. *)
Definition array_get {A} (a : list A) (i : Z) : result A :=
  if decide (0 <= i) then of_option (a !! Z.to_nat i) else Fault.

Definition array_set {A} (a : list A) (i : Z) (x : A) : result (list A) :=
  if decide (0 <= i < Z.of_nat (length a)) then Ret (<[Z.to_nat i := x]> a)
  else Fault.

(** [memcpy(&dst[doff], &src[soff], n * sizeof(u64))] *)
Definition memcpy_ids (dst : list Z) (doff : Z) (src : list Z) (soff n : Z)
  : result (list Z) :=
  if decide (0 <= n /\ 0 <= soff /\ 0 <= doff /\
             soff + n <= Z.of_nat (length src) /\
             doff + n <= Z.of_nat (length dst))
  then Ret (list_inserts (Z.to_nat doff)
              (take (Z.to_nat n) (drop (Z.to_nat soff) src)) dst)
  else Fault.

(** [*req] *)
Definition deref (fc : fuse_conn) (p : ptr) : result fuse_req :=
  of_option (mem fc !! p).

(** [*req = r] for an allocated request. *)
Definition store (p : ptr) (r : fuse_req) (fc : fuse_conn) : fuse_conn :=
  set_mem (<[p := r]> (mem fc)) fc.

(** ** The consumer's buffers ([struct iov_iter])

    [count] is the number of bytes left in the iterator; [user_ok] is how
    many of them can be copied before the consumer's memory faults.  For a
    write call [data] holds the bytes the consumer supplies; for a read call
    [out] records what has been copied to the consumer, piece by piece. *)

Inductive source :=
| SrcHeader (req : ptr)                     (* &req->in.h *)
| SrcArg0 (req : ptr)                       (* req->in.args[0].value *)
| SrcPage (req : ptr) (seg : nat) (off : Z). (* a page of req->rq *)

Record iov_iter := {
  count : Z;
  user_ok : Z;
  data : list Z;
  out : list (source * Z)
}.

(** [copy_to_iter(addr, bytes, i)]: copies what fits and is accessible,
    returns the number of bytes copied. *)
Definition copy_to_iter (src : source) (bytes : Z) (i : iov_iter) : Z * iov_iter :=
  let n := Z.max 0 (Z.min bytes (Z.min (count i) (user_ok i))) in
  (n, {| count := count i - n; user_ok := user_ok i - n; data := data i;
         out := if 0 <? n then out i ++ [(src, n)] else out i |}).

(** [copy_from_iter(addr, bytes, i)]: the bytes read and their number. *)
Definition copy_from_iter (bytes : Z) (i : iov_iter) : list Z * Z * iov_iter :=
  let n := Z.max 0 (Z.min bytes (Z.min (count i) (user_ok i))) in
  (take (Z.to_nat n) (data i), n,
   {| count := count i - n; user_ok := user_ok i - n;
      data := drop (Z.to_nat n) (data i); out := out i |}).

(** [iov_iter_advance(i, bytes)] *)
Definition iov_iter_advance (i : iov_iter) (bytes : Z) : iov_iter :=
  let n := Z.max 0 (Z.min bytes (count i)) in
  {| count := count i - n; user_ok := user_ok i - n;
     data := drop (Z.to_nat n) (data i); out := out i |}.

Section Dev.

Variable cfg : config.

(** [dev.c] lines 38 and 40. *)
Definition FUSE_DEFAULT_MAX_BACKGROUND : Z := PXD_MAX_QDEPTH cfg * PXD_MAX_DEVICES cfg.
Definition FUSE_MAX_REQUEST_IDS : Z := 2 * FUSE_DEFAULT_MAX_BACKGROUND.

(** ** ID allocator *)

Definition per_cpu_ptr (fc : fuse_conn) (cpu : nat) : result fuse_per_cpu_ids :=
  of_option (per_cpu_ids fc !! cpu).

Definition set_cpu_ids (cpu : nat) (ids : fuse_per_cpu_ids) (fc : fuse_conn)
  : fuse_conn :=
  set_per_cpu_ids (<[cpu := ids]> (per_cpu_ids fc)) fc.

(** [fuse_get_unique], run on CPU [cpu]. *)
Definition fuse_get_unique (fc : fuse_conn) (cpu : nat) : result (fuse_conn * Z) :=
  my_ids ← per_cpu_ptr fc cpu;
  '(fc, my_ids) ←
    (if pc_num_free_ids my_ids =? 0 then
       if num_free_ids fc =? 0 then BugOn
       else
         let num_alloc :=
           Z.min (num_free_ids fc) (u32 (FUSE_MAX_PER_CPU_IDS cfg) / 2) in
         ids ← memcpy_ids (pc_free_ids my_ids) 0 (free_ids fc)
                 (num_free_ids fc - num_alloc) num_alloc;
         Ret (set_num_free_ids (u32 (num_free_ids fc - num_alloc)) fc,
              {| pc_num_free_ids := num_alloc; pc_free_ids := ids |})
     else Ret (fc, my_ids));
  let n := u32 (pc_num_free_ids my_ids - 1) in
  uid ← array_get (pc_free_ids my_ids) n;
  let fc := set_cpu_ids cpu {| pc_num_free_ids := n;
                               pc_free_ids := pc_free_ids my_ids |} fc in
  let uid := u64 (uid + FUSE_MAX_REQUEST_IDS) in
  (* zero is special *)
  let uid := if uid =? 0 then u64 (uid + FUSE_MAX_REQUEST_IDS) else uid in
  Ret (fc, uid).

(** The slot of an identifier: [uid & (FUSE_MAX_REQUEST_IDS - 1)]. *)
Definition slot_of (uid : Z) : Z := Z.land uid (FUSE_MAX_REQUEST_IDS - 1).

(** [fuse_put_unique], run on CPU [cpu]. *)
Definition fuse_put_unique (fc : fuse_conn) (cpu : nat) (uid : Z)
  : result fuse_conn :=
  my_ids ← per_cpu_ptr fc cpu;
  '(fc, my_ids) ←
    (if pc_num_free_ids my_ids =? FUSE_MAX_PER_CPU_IDS cfg then
       let num_free := FUSE_MAX_PER_CPU_IDS cfg / 2 in
       if u32 (num_free_ids fc + num_free) >? FUSE_MAX_REQUEST_IDS then BugOn
       else
         ids ← memcpy_ids (free_ids fc) (num_free_ids fc) (pc_free_ids my_ids)
                 (pc_num_free_ids my_ids - num_free) num_free;
         Ret (set_num_free_ids (u32 (num_free_ids fc + num_free))
                (set_free_ids ids fc),
              {| pc_num_free_ids := u32 (pc_num_free_ids my_ids - num_free);
                 pc_free_ids := pc_free_ids my_ids |})
     else Ret (fc, my_ids));
  ids ← array_set (pc_free_ids my_ids) (pc_num_free_ids my_ids) uid;
  let fc := set_cpu_ids cpu
              {| pc_num_free_ids := u32 (pc_num_free_ids my_ids + 1);
                 pc_free_ids := ids |} fc in
  map ← array_set (request_map fc) (slot_of uid) None;
  Ret (set_request_map map fc).

(** [spin_lock(&fc->lock)]; [held] tells whether the calling thread holds
    the lock already.  The kernel's spin locks are not recursive: a thread
    that takes a lock it holds spins for ever. *)
Definition spin_lock (held : bool) : result unit :=
  if held then Spin else Ret tt.

(** [fuse_put_unique] called by a thread that holds [fc->lock], as
    [request_end] calls it from [end_queued_requests]: the flush takes the
    lock again. *)
Definition fuse_put_unique_locked (fc : fuse_conn) (cpu : nat) (uid : Z)
  : result fuse_conn :=
  my_ids ← per_cpu_ptr fc cpu;
  '(fc, my_ids) ←
    (if pc_num_free_ids my_ids =? FUSE_MAX_PER_CPU_IDS cfg then
       let num_free := FUSE_MAX_PER_CPU_IDS cfg / 2 in
       _ ← spin_lock true;
       if u32 (num_free_ids fc + num_free) >? FUSE_MAX_REQUEST_IDS then BugOn
       else
         ids ← memcpy_ids (free_ids fc) (num_free_ids fc) (pc_free_ids my_ids)
                 (pc_num_free_ids my_ids - num_free) num_free;
         Ret (set_num_free_ids (u32 (num_free_ids fc + num_free))
                (set_free_ids ids fc),
              {| pc_num_free_ids := u32 (pc_num_free_ids my_ids - num_free);
                 pc_free_ids := pc_free_ids my_ids |})
     else Ret (fc, my_ids));
  ids ← array_set (pc_free_ids my_ids) (pc_num_free_ids my_ids) uid;
  let fc := set_cpu_ids cpu
              {| pc_num_free_ids := u32 (pc_num_free_ids my_ids + 1);
                 pc_free_ids := ids |} fc in
  map ← array_set (request_map fc) (slot_of uid) None;
  Ret (set_request_map map fc).

Definition fuse_request_free (req : ptr) (fc : fuse_conn) : fuse_conn :=
  emit (EvFree req) (set_mem (delete req (mem fc)) fc).

(** [len_args]: the loop [for (i = 0; i < numargs; i++) nbytes += args[i].size],
    with [budget] iterations left. *)
Fixpoint len_args_from (budget : nat) (i numargs : Z) (args : list Z) (nbytes : Z)
  : result Z :=
  if i <? numargs then
    match budget with
    | O => Spin
    | S budget =>
        size ← array_get args i;
        len_args_from budget (i + 1) numargs args (u32 (nbytes + size))
    end
  else Ret nbytes.

Definition len_args (numargs : Z) (args : list Z) : result Z :=
  len_args_from (Z.to_nat numargs) 0 numargs args 0.

(** ** Ring queue *)

Definition set_r_write (v : Z) (q : fuse_req_queue) : fuse_req_queue :=
  {| w_write := w_write q; w_read := w_read q; w_sequence := w_sequence q;
     r_read := r_read q; r_write := v; requests := requests q |}.

Definition set_r_read (v : Z) (q : fuse_req_queue) : fuse_req_queue :=
  {| w_write := w_write q; w_read := w_read q; w_sequence := w_sequence q;
     r_read := v; r_write := r_write q; requests := requests q |}.

Definition set_w_read (v : Z) (q : fuse_req_queue) : fuse_req_queue :=
  {| w_write := w_write q; w_read := v; w_sequence := w_sequence q;
     r_read := r_read q; r_write := r_write q; requests := requests q |}.

Definition set_requests (v : list (option ptr)) (q : fuse_req_queue)
  : fuse_req_queue :=
  {| w_write := w_write q; w_read := w_read q; w_sequence := w_sequence q;
     r_read := r_read q; r_write := r_write q; requests := v |}.

(** [(x) & (FUSE_REQUEST_QUEUE_SIZE - 1)] on a u32 cursor. *)
Definition ring_index (x : Z) : Z :=
  Z.land (u32 x) (FUSE_REQUEST_QUEUE_SIZE cfg - 1).

Definition queue_request (fc : fuse_conn) (req : ptr) : result fuse_conn :=
  let q := queue fc in
  let write := w_write q in
  let next_index := ring_index (write + 1) in
  q ← (if w_read q =? next_index then
         let q := set_w_read (r_read q) q in
         if next_index =? w_read q then BugOn else Ret q
       else Ret q);
  reqs ← array_set (requests q) write (Some req);
  r ← deref fc req;
  let fc := store req (set_sequence (w_sequence q) r) fc in
  Ret (set_queue {| w_write := next_index; w_read := w_read q;
                    w_sequence := u64 (w_sequence q + 1);
                    r_read := r_read q; r_write := r_write q;
                    requests := reqs |} fc).

Definition fuse_conn_wakeup (fc : fuse_conn) : fuse_conn := emit EvWakeup fc.

(** [request_end], run on CPU [cpu] by a thread that does not hold
    [fc->lock]: [fuse_request_send_nowait] drops the lock before the call,
    and the read and write paths do not take it. *)
Definition request_end (fc : fuse_conn) (cpu : nat) (req : ptr)
  : result fuse_conn :=
  r ← deref fc req;
  let uid := ih_unique (in_h r) in
  let fc := emit (EvEnd req (oh_error (out_h r)) (end_ r)) fc in
  fc ← fuse_put_unique fc cpu uid;
  Ret (if PX_BLKMQ cfg then fc else fuse_request_free req fc).

(** [request_end] called by a thread that holds [fc->lock]. *)
Definition request_end_locked (fc : fuse_conn) (cpu : nat) (req : ptr)
  : result fuse_conn :=
  r ← deref fc req;
  let uid := ih_unique (in_h r) in
  let fc := emit (EvEnd req (oh_error (out_h r)) (end_ r)) fc in
  fc ← fuse_put_unique_locked fc cpu uid;
  Ret (if PX_BLKMQ cfg then fc else fuse_request_free req fc).

(** [fuse_request_send_nowait]; the identifier is taken on CPU [cpu] and, on
    the not-connected path, given back on CPU [cpu']. *)
Definition fuse_request_send_nowait (fc : fuse_conn) (cpu cpu' : nat) (req : ptr)
  : result fuse_conn :=
  r ← deref fc req;
  n ← len_args (in_numargs r) (in_args r);
  let r := set_in_len (u32 (sizeof_fuse_in_header cfg + n)) r in
  '(fc, uid) ← fuse_get_unique fc cpu;
  let r := set_in_unique uid r in
  let fc := store req r fc in
  map ← array_set (request_map fc) (slot_of uid) (Some req);
  let fc := set_request_map map fc in
  if connected fc || allow_disconnected fc then
    fc ← queue_request fc req;
    Ret (fuse_conn_wakeup fc)
  else
    let fc := store req (set_out_error (- ENOTCONN) r) fc in
    request_end fc cpu' req.

Definition request_pending (fc : fuse_conn) : fuse_conn * bool :=
  let q := queue fc in
  (* check cached value first *)
  if negb (r_read q =? r_write q) then (fc, true)
  else
    (* check the writer value, if it is same nothing pending *)
    let wwrite := w_write q in
    if r_read q =? wwrite then (fc, false)
    else (set_queue (set_r_write wwrite q) fc, true).

(** [request_wait].  What happens while the reader sleeps is given by [env]:
    for each pass through the loop, whether a signal is pending and what the
    other threads did to the connection during [schedule()].  When [env] is
    used up the reader sleeps for good. *)
Fixpoint request_wait (env : list (bool * (fuse_conn -> fuse_conn)))
    (fc : fuse_conn) : result fuse_conn :=
  if connected fc then
    let '(fc, pending) := request_pending fc in
    if pending then Ret fc
    else
      match env with
      | [] => Spin
      | (signal_pending, schedule) :: env =>
          if signal_pending then Ret fc
          else request_wait env (schedule fc)
      end
  else Ret fc.

(** ** Read path *)

Definition fuse_copy_req_read (fc : fuse_conn) (req : ptr) (iter : iov_iter)
  : result (Z * iov_iter) :=
  r ← deref fc req;
  let copied := sizeof_fuse_in_header cfg in
  let '(n, iter) := copy_to_iter (SrcHeader req) copied iter in
  if negb (n =? copied) then Ret (- EFAULT, iter)
  else
    len ← array_get (in_args r) 0;
    let '(n, iter) := copy_to_iter (SrcArg0 req) len iter in
    if negb (n =? len) then Ret (- EFAULT, iter)
    else Ret (copied + len, iter).

(** [fuse_convert_zero_writes]: the scan over the segments finds no non-zero
    word and no non-zero trailing byte exactly when every byte is zero. *)
Definition fuse_convert_zero_writes (r : fuse_req) : fuse_req :=
  if forallb (forallb (Z.eqb 0)) (segments (rq r))
  then set_in_opcode (PXD_DISCARD cfg) r
  else r.

Definition is_zero_write_candidate (r : fuse_req) : bool :=
  negb (pxd_detect_zero_writes cfg =? 0) &&
  (ih_opcode (in_h r) =? PXD_WRITE cfg) &&
  negb (rdwr_size (misc_pxd_rdwr_in r) =? 0) &&
  (Z.land (rdwr_flags (misc_pxd_rdwr_in r)) (PXD_FLAGS_SYNC cfg) =? 0).

(** The local variables of [fuse_dev_do_read] that its loops change. *)
Record read_locals := {
  l_read : Z;
  l_iter : iov_iter;
  l_copied : Z;
  l_remain : Z
}.

(** The [while (read != write)] loop of [fuse_dev_do_read]. *)
Fixpoint read_loop (budget : nat) (fc : fuse_conn) (cpu : nat) (write : Z)
    (l : read_locals) : result (fuse_conn * read_locals) :=
  if l_read l =? write then Ret (fc, l)
  else
    match budget with
    | O => Spin
    | S budget =>
        slot ← array_get (requests (queue fc)) (l_read l);
        req ← of_option slot;
        r ← deref fc req;
        if ih_len (in_h r) >? l_remain l then Ret (fc, l)
        else
          reqs ← array_set (requests (queue fc)) (l_read l) None;
          let fc := set_queue (set_requests reqs (queue fc)) fc in
          let read := ring_index (l_read l + 1) in
          (* Check if a write request is writing zeroes *)
          let r := if is_zero_write_candidate r
                   then fuse_convert_zero_writes r else r in
          let fc := store req r fc in
          '(copied_this_time, iter) ← fuse_copy_req_read fc req (l_iter l);
          if copied_this_time <? 0 then
            let fc := store req (set_out_error (- EIO) r) fc in
            fc ← request_end fc cpu req;
            read_loop budget fc cpu write
              {| l_read := read; l_iter := iter;
                 l_copied := l_copied l; l_remain := l_remain l |}
          else
            read_loop budget fc cpu write
              {| l_read := read; l_iter := iter;
                 l_copied := l_copied l + copied_this_time;
                 l_remain := l_remain l - copied_this_time |}
    end.

(** From the label [retry] to the return; [budget] bounds both the passes
    through [retry] and the iterations of the loop inside one pass. *)
Fixpoint read_retry (budget : nat) (fc : fuse_conn) (cpu : nat)
    (iter : iov_iter) (copied remain : Z) : result (fuse_conn * iov_iter * Z) :=
  match budget with
  | O => Spin
  | S budget' =>
      let read := r_read (queue fc) in
      let write := r_write (queue fc) in
      '(fc, l) ← read_loop budget fc cpu write
                   {| l_read := read; l_iter := iter;
                      l_copied := copied; l_remain := remain |};
      let fc := set_queue (set_r_read (l_read l) (queue fc)) fc in
      (* Check if more requests could be picked up *)
      if negb (l_remain l =? 0) then
        let '(fc, pending) := request_pending fc in
        if pending then read_retry budget' fc cpu (l_iter l) (l_copied l) (l_remain l)
        else Ret (fc, l_iter l, l_copied l)
      else Ret (fc, l_iter l, l_copied l)
  end.

(** [fuse_dev_do_read]; [nonblock] is [file->f_flags & O_NONBLOCK]. *)
Definition fuse_dev_do_read (budget : nat)
    (env : list (bool * (fuse_conn -> fuse_conn)))
    (fc : fuse_conn) (cpu : nat) (nonblock : bool) (iter : iov_iter)
  : result (fuse_conn * iov_iter * Z) :=
  let remain := count iter in
  let '(fc, pending) := request_pending fc in
  if negb pending then
    if nonblock && connected fc then Ret (fc, iter, - EAGAIN)
    else
      fc ← request_wait env fc;
      if negb (connected fc) then Ret (fc, iter, - ENODEV)
      else
        let '(fc, pending) := request_pending fc in
        if negb pending then Ret (fc, iter, - ERESTARTSYS)
        else read_retry budget fc cpu iter 0 remain
  else read_retry budget fc cpu iter 0 remain.

(** ** Slot table lookup *)

Definition request_find (fc : fuse_conn) (unique : Z) : result (option ptr) :=
  let index := u32 (slot_of unique) in
  slot ← array_get (request_map fc) index;
  match slot with
  | None => Ret None
  | Some req =>
      r ← deref fc req;
      if negb (ih_unique (in_h r) =? unique) then Ret None
      else Ret (Some req)
  end.

(** ** Write path and control messages *)

Definition IOV_BUF_SIZE : Z := 64.

(** [iov_iter_init(data_iter, READ, iov, iovcnt, iov_length(iov, iovcnt))];
    the record of what went to the consumer so far is kept. *)
Definition iov_iter_init (iov : list iovec) (sent : list (source * Z)) : iov_iter :=
  {| count := foldr (fun v n => iov_len v + n) 0 iov;
     user_ok := user_writable cfg iov; data := []; out := sent |}.

Definition set_rd_iovcnt (n : Z) (rd : pxd_read_data_out) : pxd_read_data_out :=
  {| rd_unique := rd_unique rd; rd_iovcnt := n; rd_offset := rd_offset rd |}.

(** [copy_in_read_data_iovec]: return value, then the new [iter],
    [read_data] and [data_iter].  [iov] is the array
    [struct iovec iov[IOV_BUF_SIZE]] on the stack of
    [fuse_notify_read_data]; [iovcnt] is a signed [int], so that a negative
    count makes [len] a size close to 2^64 and [copy_from_iter] copies as
    many bytes as the message has: more than the array holds is a fault. *)
Definition copy_in_read_data_iovec (iter : iov_iter)
    (read_data : pxd_read_data_out) (data_iter : iov_iter)
  : result (Z * iov_iter * pxd_read_data_out * iov_iter) :=
  if rd_iovcnt read_data =? 0 then Ret (- EFAULT, iter, read_data, data_iter)
  else
    let iovcnt := Z.min (rd_iovcnt read_data) IOV_BUF_SIZE in
    let len := u64 (iovcnt * sizeof_iovec cfg) in
    let '(bytes, n, iter) := copy_from_iter len iter in
    if n >? IOV_BUF_SIZE * sizeof_iovec cfg then Fault
    else if negb (n =? len) then Ret (- EFAULT, iter, read_data, data_iter)
    else
      Ret (0, iter, set_rd_iovcnt (rd_iovcnt read_data - iovcnt) read_data,
           iov_iter_init (decode_iovecs cfg bytes) (out data_iter)).

(** The local variables of [fuse_notify_read_data] that its loop changes. *)
Record fetch_locals := {
  f_iter : iov_iter;
  f_read_data : pxd_read_data_out;
  f_data_iter : iov_iter;
  f_skipped : Z
}.

(** The [rq_for_each_segment] loop of [fuse_notify_read_data] over the
    segments from index [k] on: the value returned (an early [return], or
    the final 0) and the locals at that point. *)
Fixpoint read_data_segments (req : ptr) (k : nat) (segs : list (list Z))
    (l : fetch_locals) : result (Z * fetch_locals) :=
  match segs with
  | [] => Ret (0, l)
  | seg :: segs =>
      let len := Z.of_nat (length seg) in
      let offset := rd_offset (f_read_data l) in
      let '(copied, skipped) :=
        if f_skipped l <? offset then
          if offset - f_skipped l >=? len then (len, f_skipped l + len)
          else (offset - f_skipped l, offset)
        else (0, f_skipped l) in
      if copied <? len then
        let '(copy_this, data_iter) :=
          copy_to_iter (SrcPage req k copied) (len - copied) (f_data_iter l) in
        if negb (copy_this =? len - copied) then
          if count (f_iter l) =? 0 then
            Ret (0, {| f_iter := f_iter l; f_read_data := f_read_data l;
                       f_data_iter := data_iter; f_skipped := skipped |})
          else
            (* out of space in destination, copy more iovec *)
            '(ret, iter, read_data, data_iter) ←
              copy_in_read_data_iovec (f_iter l) (f_read_data l) data_iter;
            if negb (ret =? 0) then
              Ret (ret, {| f_iter := iter; f_read_data := read_data;
                           f_data_iter := data_iter; f_skipped := skipped |})
            else
              let len := len - copied in
              let '(copied, data_iter) :=
                copy_to_iter (SrcPage req k (copied + copy_this)) len data_iter in
              let l := {| f_iter := iter; f_read_data := read_data;
                          f_data_iter := data_iter; f_skipped := skipped |} in
              if negb (copied =? len) then Ret (- EFAULT, l)
              else read_data_segments req (S k) segs l
        else
          read_data_segments req (S k) segs
            {| f_iter := f_iter l; f_read_data := f_read_data l;
               f_data_iter := data_iter; f_skipped := skipped |}
      else
        read_data_segments req (S k) segs
          {| f_iter := f_iter l; f_read_data := f_read_data l;
             f_data_iter := f_data_iter l; f_skipped := skipped |}
  end.

Definition fuse_notify_read_data (fc : fuse_conn) (size : Z) (iter : iov_iter)
  : result (Z * iov_iter * list (source * Z)) :=
  let len := sizeof_pxd_read_data_out cfg in
  let '(bytes, n, iter) := copy_from_iter len iter in
  if negb (n =? len) then Ret (- EFAULT, iter, [])
  else
    let read_data := decode_read_data cfg bytes in
    found ← request_find fc (rd_unique read_data);
    match found with
    | None => Ret (- ENOENT, iter, [])
    | Some req =>
        r ← deref fc req;
        if negb (ih_opcode (in_h r) =? PXD_WRITE cfg) &&
           negb (ih_opcode (in_h r) =? PXD_WRITE_SAME cfg)
        then Ret (- EINVAL, iter, [])
        else
          '(ret, iter, read_data, data_iter) ←
            copy_in_read_data_iovec iter read_data (iov_iter_init [] []);
          if negb (ret =? 0) then Ret (ret, iter, [])
          else
            (* advance the iterator if data is unaligned *)
            let unaligned :=
              Z.land (rdwr_offset (misc_pxd_rdwr_in r)) (PXD_LBS_MASK cfg) in
            let data_iter :=
              if negb (unaligned =? 0) then iov_iter_advance data_iter unaligned
              else data_iter in
            '(ret, l) ←
              read_data_segments req 0 (segments (rq r))
                {| f_iter := iter; f_read_data := read_data;
                   f_data_iter := data_iter; f_skipped := 0 |};
            Ret (ret, f_iter l, out (f_data_iter l))
    end.

(** [fuse_notify_add], [fuse_notify_remove] and [fuse_notify_update_size]:
    copy the argument and hand it to the collaborator. *)
Definition fuse_notify_arg (len : Z) (handler : list Z -> Z) (iter : iov_iter)
  : Z * iov_iter :=
  let '(bytes, n, iter) := copy_from_iter len iter in
  if negb (n =? len) then (- EFAULT, iter) else (handler bytes, iter).

Definition fuse_notify (fc : fuse_conn) (code : Z) (size : Z) (iter : iov_iter)
  : result (Z * iov_iter * list (source * Z)) :=
  if code =? PXD_READ_DATA cfg then fuse_notify_read_data fc size iter
  else if code =? PXD_ADD cfg then
    let '(ret, iter) := fuse_notify_arg (sizeof_pxd_add_out cfg) (pxd_add cfg) iter in
    Ret (ret, iter, [])
  else if code =? PXD_REMOVE cfg then
    let '(ret, iter) :=
      fuse_notify_arg (sizeof_pxd_remove_out cfg) (pxd_remove cfg) iter in
    Ret (ret, iter, [])
  else if code =? PXD_UPDATE_SIZE cfg then
    let '(ret, iter) :=
      fuse_notify_arg (sizeof_pxd_update_size_out cfg) (pxd_update_size cfg) iter in
    Ret (ret, iter, [])
  else Ret (- EINVAL, iter, []).

(** [copy_page_from_iter] into a segment: the segment afterwards, and the
    number of bytes copied. *)
Definition copy_page_from_iter (seg : list Z) (iter : iov_iter)
  : list Z * Z * iov_iter :=
  let '(bytes, n, iter) := copy_from_iter (Z.of_nat (length seg)) iter in
  (bytes ++ drop (length bytes) seg, n, iter).

(** The [rq_for_each_segment] loop of [fuse_dev_do_write]: the segments
    afterwards, the iterator, and whether every copy was complete. *)
Fixpoint write_segments (segs : list (list Z)) (iter : iov_iter)
  : list (list Z) * iov_iter * bool :=
  match segs with
  | [] => ([], iter, true)
  | seg :: segs =>
      let '(seg', n, iter) := copy_page_from_iter seg iter in
      if negb (n =? Z.of_nat (length seg)) then (seg' :: segs, iter, false)
      else
        let '(segs', iter, ok) := write_segments segs iter in
        (seg' :: segs', iter, ok)
  end.

(** What a write call yields: the connection, the iterator, what a data
    fetch copied to the consumer, and the return value. *)
Record write_result := {
  wr_fc : fuse_conn;
  wr_iter : iov_iter;
  wr_sent : list (source * Z);
  wr_ret : Z
}.

(** [fuse_dev_do_write]; a completion is retired on CPU [cpu]. *)
Definition fuse_dev_do_write (fc : fuse_conn) (cpu : nat) (iter : iov_iter)
  : result write_result :=
  let fail fc iter err :=
    Ret {| wr_fc := fc; wr_iter := iter; wr_sent := []; wr_ret := err |} in
  let nbytes := count iter in
  if count iter <? sizeof_fuse_out_header cfg then fail fc iter (- EINVAL)
  else
    let len := sizeof_fuse_out_header cfg in
    let '(bytes, n, iter) := copy_from_iter len iter in
    if negb (n =? len) then fail fc iter (- EFAULT)
    else
      let oh := decode_out_header cfg bytes in
      if negb (oh_len oh =? nbytes) then fail fc iter (- EINVAL)
      else if oh_unique oh =? 0 then
        (* unsolicited notification message, error contains the code *)
        '(err, iter, sent) ← fuse_notify fc (oh_error oh)
                               (nbytes - sizeof_fuse_out_header cfg) iter;
        Ret {| wr_fc := fc; wr_iter := iter; wr_sent := sent;
               wr_ret := if negb (err =? 0) then err else nbytes |}
      else if (oh_error oh <=? -1000) || (oh_error oh >? 0)
      then fail fc iter (- EINVAL)
      else
        found ← request_find fc (oh_unique oh);
        match found with
        | None => fail fc iter (- ENOENT)
        | Some req =>
            r ← deref fc req;
            let r := set_out_h oh r in
            let fc := store req r fc in
            let '(r, iter, ok) :=
              if (ih_opcode (in_h r) =? PXD_READ cfg) && (count iter >? 0) &&
                 negb (nr_phys_segments (rq r) =? 0)
              then
                let '(segs, iter, ok) := write_segments (segments (rq r)) iter in
                (set_rq {| nr_phys_segments := nr_phys_segments (rq r);
                           segments := segs |} r, iter, ok)
              else (r, iter, true) in
            let fc := store req r fc in
            if negb ok then fail fc iter (- EFAULT)
            else
              fc ← request_end fc cpu req;
              Ret {| wr_fc := fc; wr_iter := iter; wr_sent := [];
                     wr_ret := nbytes |}
        end.

(** ** Lifecycle and recovery *)

(** The loop of [end_queued_requests] from index [i], [n] iterations left.
    Both callers hold [fc->lock] across the call, and the function does not
    drop it (its [__releases] and [__acquires] annotations notwithstanding):
    [request_end] runs with the lock held. *)
Fixpoint end_queued_requests_from (n : nat) (i : Z) (fc : fuse_conn) (cpu : nat)
  : result fuse_conn :=
  match n with
  | O => Ret fc
  | S n =>
      slot ← array_get (request_map fc) i;
      fc ← match slot with
           | None => Ret fc
           | Some req =>
               r ← deref fc req;
               let fc := store req (set_out_error (- ECONNABORTED) r) fc in
               request_end_locked fc cpu req
           end;
      end_queued_requests_from n (i + 1) fc cpu
  end.

Definition end_queued_requests (fc : fuse_conn) (cpu : nat) : result fuse_conn :=
  end_queued_requests_from (Z.to_nat (FUSE_REQUEST_QUEUE_SIZE cfg)) 0 fc cpu.

(** [fuse_abort_conn], run on CPU [cpu] (the spinlock it holds keeps it
    there): [spin_lock(&fc->lock)], and the lock is held until the end. *)
Definition fuse_abort_conn (fc : fuse_conn) (cpu : nat) : result fuse_conn :=
  if connected fc then
    let fc := set_connected false fc in
    fc ← end_queued_requests fc cpu;
    Ret (emit EvWakeAll fc)
  else Ret fc.

(** [req->sequence] of an allocated request. *)
Definition sequence_at (m : gmap nat fuse_req) (p : ptr) : Z :=
  match m !! p with Some r => sequence r | None => 0 end.

Definition compare_reqs (m : gmap nat fuse_req) (lhs rhs : ptr) : Z :=
  if sequence_at m lhs <? sequence_at m rhs then -1
  else if sequence_at m lhs >? sequence_at m rhs then 1
  else 0.

(** The order [sort] establishes with [compare_reqs]. *)
Definition reqs_le (m : gmap nat fuse_req) (lhs rhs : ptr) : Prop :=
  compare_reqs m lhs rhs <= 0.

Global Instance reqs_le_dec m lhs rhs : Decision (reqs_le m lhs rhs).
Proof. unfold reqs_le. apply _. Defined.

(** The scan of the request map in [fuse_restart_requests]. *)
Fixpoint collect_resend (n : nat) (i : Z) (fc : fuse_conn) (sequence_ : Z)
    (resend_reqs : list ptr) : result (list ptr) :=
  match n with
  | O => Ret resend_reqs
  | S n =>
      slot ← array_get (request_map fc) i;
      match slot with
      | None => collect_resend n (i + 1) fc sequence_ resend_reqs
      | Some req =>
          r ← deref fc req;
          collect_resend n (i + 1) fc sequence_
            (if sequence r <? sequence_ then resend_reqs ++ [req]
             else resend_reqs)
      end
  end.

(** The loop that puts the requests back, [i] counting down. *)
Fixpoint put_back (i : nat) (resend_reqs : list ptr) (read : Z)
    (reqs : list (option ptr)) : result (Z * list (option ptr)) :=
  match i with
  | O => Ret (read, reqs)
  | S i' =>
      let read := ring_index (read - 1) in
      req ← of_option (resend_reqs !! i');
      reqs ← array_set reqs read (Some req);
      put_back i' resend_reqs read reqs
  end.

(** [fuse_restart_requests]; [vmalloc_ok] tells whether the allocation of
    the resend list succeeds.  The kernel's [sort] is any sort by
    [compare_reqs]; a merge sort stands for it. *)
Definition fuse_restart_requests (fc : fuse_conn) (vmalloc_ok : bool)
  : result (fuse_conn * Z) :=
  let q := queue fc in
  let read := r_read q in
  let write := w_write q in
  sequence_ ←
    (if negb (read =? write) then
       slot ← array_get (requests q) read;
       req ← of_option slot;
       r ← deref fc req;
       Ret (sequence r)
     else Ret (w_sequence q));
  if negb vmalloc_ok then Ret (fc, - ENOMEM)
  else
    (* Add all pending requests with lower sequence to resend list *)
    resend_reqs ← collect_resend (Z.to_nat (FUSE_REQUEST_QUEUE_SIZE cfg)) 0
                    fc sequence_ [];
    let resend_reqs := merge_sort (reqs_le (mem fc)) resend_reqs in
    (* Put requests back into the queue *)
    '(read, reqs) ← put_back (length resend_reqs) resend_reqs read (requests q);
    let q := set_r_read read (set_w_read read (set_requests reqs q)) in
    Ret (fuse_conn_wakeup (set_queue q fc), 0).

(** [fuse_req_queue_init] and [fuse_conn_init] with every allocation
    succeeding, on a machine with [ncpus] possible CPUs. *)
Definition fuse_req_queue_init : fuse_req_queue :=
  {| w_write := 0; w_read := 0; w_sequence := 1; r_read := 0; r_write := 0;
     requests := replicate (Z.to_nat (FUSE_REQUEST_QUEUE_SIZE cfg)) None |}.

Definition fuse_conn_init (ncpus : nat) : fuse_conn :=
  {| connected := false; allow_disconnected := false;
     num_free_ids := FUSE_MAX_REQUEST_IDS;
     free_ids := map (fun i => FUSE_MAX_REQUEST_IDS - Z.of_nat i - 1)
                   (seq 0 (Z.to_nat FUSE_MAX_REQUEST_IDS));
     per_cpu_ids :=
       replicate ncpus
         {| pc_num_free_ids := 0;
            pc_free_ids := replicate (Z.to_nat (FUSE_MAX_PER_CPU_IDS cfg)) 0 |};
     request_map := replicate (Z.to_nat FUSE_MAX_REQUEST_IDS) None;
     queue := fuse_req_queue_init;
     mem := ∅; log := [] |}.


(** ** The scan of [fuse_convert_zero_writes], loop by loop

    [fuse_convert_zero_writes] above states what the scan decides; here
    are its loops.  A segment of [len] bytes is read as [len / 8] words of
    64 bits ([q[i]]) and then byte by byte from [len - len % 8] on
    ([p[i]]); the function returns at the first non-zero word or byte. *)

Definition word_at (p : list Z) (i : nat) : Z :=
  foldr (fun b acc => b + 256 * acc) 0 (take 8 (drop (8 * i) p)).

Definition byte_at (p : list Z) (i : nat) : Z := default 0 (p !! i).

Definition segment_is_zero (p : list Z) : bool :=
  let wsize := 8%nat in
  let len := length p in
  forallb (fun i => word_at p i =? 0) (seq 0 (len / wsize)) &&
  forallb (fun i => byte_at p i =? 0) (seq (len - len mod wsize) (len mod wsize)).

Fixpoint scan_segments (segs : list (list Z)) : bool :=
  match segs with
  | [] => true
  | p :: segs => if segment_is_zero p then scan_segments segs else false
  end.

Definition fuse_convert_zero_writes_scan (r : fuse_req) : fuse_req :=
  if scan_segments (segments (rq r))
  then set_in_opcode (PXD_DISCARD cfg) r
  else r.

(** ** Connection setup when allocations can fail *)

(** The four arrays of a connection: [request_map] and [free_ids]
    ([kmalloc]), [per_cpu_ids] ([alloc_percpu]) and [queue.w.requests]
    ([vmalloc]). *)
Inductive allocation := RequestMap | FreeIds | PerCpuIds | RingRequests.

Inductive heap_event :=
| Allocated (a : allocation)
| Freed (a : allocation).

Global Instance allocation_eq_dec : EqDecision allocation.
Proof. solve_decision. Defined.

Global Instance heap_event_eq_dec : EqDecision heap_event.
Proof. solve_decision. Defined.

(** Which of the four pointers are not NULL. *)
Record conn_allocs := {
  has_request_map : bool;
  has_free_ids : bool;
  has_per_cpu_ids : bool;
  has_requests : bool
}.

Definition fuse_conn_free_allocs (a : conn_allocs) : list heap_event :=
  (if has_per_cpu_ids a then [Freed PerCpuIds] else [])
  ++ (if has_free_ids a then [Freed FreeIds] else [])
  ++ (if has_request_map a then [Freed RequestMap] else [])
  ++ (if has_requests a then [Freed RingRequests] else []).

(** [fuse_req_queue_init] seen through its return value. *)
Definition fuse_req_queue_init_rc (avail : allocation -> bool) : Z :=
  if avail RingRequests then 0 else - ENOMEM.

(** [fuse_conn_init]; [avail] tells which allocations succeed.  The result
    is the return value, the connection when it was set up, and what was
    allocated and freed on the way. *)
Definition fuse_conn_init_rc (avail : allocation -> bool) (ncpus : nat)
  : Z * option fuse_conn * list heap_event :=
  (* memset(fc, 0, sizeof( *fc)): every pointer is NULL *)
  let rc := - ENOMEM in
  if negb (avail RequestMap) then
    (rc, None,
     fuse_conn_free_allocs
       {| has_request_map := false; has_free_ids := false;
          has_per_cpu_ids := false; has_requests := false |})
  else if negb (avail FreeIds) then
    (rc, None,
     [Allocated RequestMap]
     ++ fuse_conn_free_allocs
          {| has_request_map := true; has_free_ids := false;
             has_per_cpu_ids := false; has_requests := false |})
  else if negb (avail PerCpuIds) then
    (rc, None,
     [Allocated RequestMap; Allocated FreeIds]
     ++ fuse_conn_free_allocs
          {| has_request_map := true; has_free_ids := true;
             has_per_cpu_ids := false; has_requests := false |})
  else
    let rc := fuse_req_queue_init_rc avail in
    if negb (rc =? 0) then
      (rc, None,
       [Allocated RequestMap; Allocated FreeIds; Allocated PerCpuIds]
       ++ fuse_conn_free_allocs
            {| has_request_map := true; has_free_ids := true;
               has_per_cpu_ids := true; has_requests := false |})
    else
      (0, Some (fuse_conn_init ncpus),
       [Allocated RequestMap; Allocated FreeIds; Allocated PerCpuIds;
        Allocated RingRequests]).

(** ** File operations *)

(** A 32-bit [int] ([atomic_t]). *)
Definition int32 (x : Z) : Z := (x + 2 ^ 31) mod 2 ^ 32 - 2 ^ 31.

(** include/uapi/asm-generic/fcntl.h and poll.h *)
Definition O_NONBLOCK : Z := 2048.
Definition POLLIN : Z := 1.
Definition POLLOUT : Z := 4.
Definition POLLERR : Z := 8.
Definition POLLRDNORM : Z := 64.
Definition POLLWRNORM : Z := 256.

(** A connection with its reference count [fc->count]; [co_released] is
    set once the last reference was dropped: [fuse_conn_free_allocs] freed
    the arrays and [fc->release] was called. *)
Record conn_object := {
  co_conn : fuse_conn;
  co_count : Z;
  co_released : bool
}.

Definition fuse_conn_get (c : conn_object) : conn_object :=
  {| co_conn := co_conn c; co_count := int32 (co_count c + 1);
     co_released := co_released c |}.

Definition fuse_conn_put (c : conn_object) : conn_object :=
  let n := int32 (co_count c - 1) in
  {| co_conn := co_conn c; co_count := n;
     co_released := if n =? 0 then true else co_released c |}.

(** [struct file]: [private_data] is the connection, or NULL. *)
Record file := {
  private_data : option conn_object;
  f_flags : Z
}.

Definition fuse_get_conn (f : file) : option conn_object := private_data f.

Definition with_conn (f : file) (c : conn_object) (fc : fuse_conn) : file :=
  {| private_data := Some {| co_conn := fc; co_count := co_count c;
                             co_released := co_released c |};
     f_flags := f_flags f |}.

Definition fuse_dev_read_iter (budget : nat)
    (env : list (bool * (fuse_conn -> fuse_conn)))
    (f : file) (cpu : nat) (to : iov_iter) : result (file * iov_iter * Z) :=
  match fuse_get_conn f with
  | None => Ret (f, to, - EPERM)
  | Some c =>
      '(fc, to, ret) ← fuse_dev_do_read budget env (co_conn c) cpu
                         (negb (Z.land (f_flags f) O_NONBLOCK =? 0)) to;
      Ret (with_conn f c fc, to, ret)
  end.

(** The file afterwards, the iterator, what a data fetch copied to the
    consumer, and the return value. *)
Definition fuse_dev_write_iter (f : file) (cpu : nat) (from : iov_iter)
  : result (file * iov_iter * list (source * Z) * Z) :=
  match fuse_get_conn f with
  | None => Ret (f, from, [], - EPERM)
  | Some c =>
      res ← fuse_dev_do_write (co_conn c) cpu from;
      Ret (with_conn f c (wr_fc res), wr_iter res, wr_sent res, wr_ret res)
  end.

Definition fuse_dev_splice_read : Z := - EINVAL.
Definition fuse_dev_splice_write : Z := - EINVAL.

Definition fuse_dev_poll (f : file) : file * Z :=
  let mask := Z.lor POLLOUT POLLWRNORM in
  match fuse_get_conn f with
  | None => (f, POLLERR)
  | Some c =>
      if negb (connected (co_conn c)) then (f, POLLERR)
      else
        let '(fc, pending) := request_pending (co_conn c) in
        (with_conn f c fc,
         if pending then Z.lor mask (Z.lor POLLIN POLLRDNORM) else mask)
  end.

(** [fuse_dev_release], run on CPU [cpu]: [fc->lock] is held from the
    clearing of [connected] to the end of [end_queued_requests] and dropped
    before [fuse_conn_put]. *)
Definition fuse_dev_release (f : file) (cpu : nat) : result (file * Z) :=
  match fuse_get_conn f with
  | Some c =>
      let fc := set_connected false (co_conn c) in
      fc ← end_queued_requests fc cpu;
      Ret ({| private_data :=
                Some (fuse_conn_put {| co_conn := fc; co_count := co_count c;
                                       co_released := co_released c |});
              f_flags := f_flags f |}, 0)
  | None => Ret (f, 0)
  end.

End Dev.

(** ** What the development assumes of the constants

    The masks [& (FUSE_MAX_REQUEST_IDS - 1)] and
    [& (FUSE_REQUEST_QUEUE_SIZE - 1)] are remainders only for powers of
    two, and the counters are 32-bit. *)
Record config_ok (cfg : config) : Prop := {
  ids_pow2 : FUSE_MAX_REQUEST_IDS cfg = 2 ^ Z.log2 (FUSE_MAX_REQUEST_IDS cfg);
  ids_range : 0 < FUSE_MAX_REQUEST_IDS cfg < 2 ^ 31;
  queue_pow2 :
    FUSE_REQUEST_QUEUE_SIZE cfg = 2 ^ Z.log2 (FUSE_REQUEST_QUEUE_SIZE cfg);
  queue_range : 0 < FUSE_REQUEST_QUEUE_SIZE cfg < 2 ^ 31;
  per_cpu_range : 2 <= FUSE_MAX_PER_CPU_IDS cfg < 2 ^ 31;
  in_header_pos : 0 < sizeof_fuse_in_header cfg
}.

(** ** A small configuration to run the code on

    Four identifiers per CPU cache, eight identifiers and eight ring slots;
    opcodes numbered from 8193 on in the order of the configuration record,
    headers of little-endian fields. *)
Module Small.

Definition le_bytes (l : list Z) : Z := foldr (fun b acc => b + 256 * acc) 0 l.

Definition field (off len : nat) (l : list Z) : Z := le_bytes (take len (drop off l)).

Definition s32 (x : Z) : Z := if x <? 2 ^ 31 then x else x - 2 ^ 32.

Definition le_out_header (l : list Z) : fuse_out_header :=
  {| oh_len := field 0 4 l; oh_error := s32 (field 4 4 l);
     oh_unique := field 8 8 l |}.

Definition le_read_data (l : list Z) : pxd_read_data_out :=
  {| rd_unique := field 0 8 l; rd_iovcnt := s32 (field 8 4 l);
     rd_offset := field 12 4 l |}.

Fixpoint le_iovecs_n (n : nat) (l : list Z) : list iovec :=
  match n with
  | O => []
  | S n =>
      {| iov_base := field 0 8 l; iov_len := field 8 8 l |}
        :: le_iovecs_n n (drop 16 l)
  end.

Definition le_iovecs (l : list Z) : list iovec :=
  le_iovecs_n (length l / 16) l.

Definition cfg : config :=
  {| PXD_MAX_QDEPTH := 2; PXD_MAX_DEVICES := 2;
     FUSE_REQUEST_QUEUE_SIZE := 8; FUSE_MAX_PER_CPU_IDS := 4;
     PX_BLKMQ := false;
     PXD_WRITE := 8193; PXD_READ := 8194; PXD_DISCARD := 8195;
     PXD_ADD := 8196; PXD_REMOVE := 8197; PXD_READ_DATA := 8198;
     PXD_UPDATE_SIZE := 8199; PXD_WRITE_SAME := 8200;
     PXD_FLAGS_SYNC := 2; PXD_LBS_MASK := 511;
     sizeof_fuse_in_header := 40; sizeof_fuse_out_header := 16;
     sizeof_pxd_read_data_out := 16; sizeof_pxd_add_out := 24;
     sizeof_pxd_remove_out := 16; sizeof_pxd_update_size_out := 16;
     sizeof_iovec := 16;
     decode_out_header := le_out_header;
     decode_read_data := le_read_data;
     decode_iovecs := le_iovecs;
     pxd_add := fun _ => 0; pxd_remove := fun _ => 0;
     pxd_update_size := fun _ => 0;
     user_writable := fun iov => foldr (fun v n => iov_len v + n) 0 iov;
     pxd_detect_zero_writes := 0 |}.

(** A request as a submitter hands it over: one argument of [arg] bytes. *)
Definition new_req (opcode arg : Z) (cb : bool) : fuse_req :=
  {| in_h := {| ih_len := 0; ih_opcode := opcode; ih_unique := 0 |};
     in_numargs := 1; in_args := [arg; 0; 0];
     out_h := {| oh_len := 0; oh_error := 0; oh_unique := 0 |};
     sequence := 0; end_ := cb;
     misc_pxd_rdwr_in := {| rdwr_size := 0; rdwr_flags := 0; rdwr_offset := 0 |};
     rq := {| nr_phys_segments := 0; segments := [] |} |}.

(** The connection after [fuse_conn_init] on two CPUs, marked connected as
    the mount does, with requests allocated at the addresses of [reqs]. *)
Definition conn (reqs : list (nat * fuse_req)) : fuse_conn :=
  set_connected true (set_mem (list_to_map reqs) (fuse_conn_init cfg 2)).

Definition buffer (n ok : Z) (bytes : list Z) : iov_iter :=
  {| count := n; user_ok := ok; data := bytes; out := [] |}.

Definition returned (r : result fuse_conn) : fuse_conn :=
  match r with Ret fc => fc | _ => fuse_conn_init cfg 0 end.

(** Three requests A, B, C at the addresses 10, 11 and 12, each 48 bytes
    on the wire, submitted in that order from CPUs 0, 1 and 0. *)
Definition three_reqs : list (nat * fuse_req) :=
  [(10%nat, new_req 8193 8 true); (11%nat, new_req 8193 8 true);
   (12%nat, new_req 8194 8 false)].

Definition submit3 (fc : fuse_conn) : result fuse_conn :=
  fc ← fuse_request_send_nowait cfg fc 0 0 10%nat;
  fc ← fuse_request_send_nowait cfg fc 1 1 11%nat;
  fuse_request_send_nowait cfg fc 0 0 12%nat.

Definition submitted : fuse_conn :=
  Eval vm_compute in returned (submit3 (conn three_reqs)).

(** The same after a read call into a buffer of exactly 96 bytes. *)
Definition delivered2 : fuse_conn :=
  Eval vm_compute in
    returned ('(fc, _, _) ← fuse_dev_do_read cfg 8 [] submitted 0 false
                              (buffer 96 96 []);
              Ret fc).

(** A channel that is not connected, with one request allocated. *)
Definition disconnected : fuse_conn :=
  set_connected false (conn [(10%nat, new_req 8193 8 true)]).

(** The allocator after five acquires on CPU 0 and four releases on CPU 1,
    whose cache is then full. *)
Definition cache_full : fuse_conn :=
  Eval vm_compute in
    returned ('(fc, a) ← fuse_get_unique cfg (conn []) 0;
              '(fc, b) ← fuse_get_unique cfg fc 0;
              '(fc, c) ← fuse_get_unique cfg fc 0;
              '(fc, d) ← fuse_get_unique cfg fc 0;
              '(fc, e) ← fuse_get_unique cfg fc 0;
              fc ← fuse_put_unique cfg fc 1 a;
              fc ← fuse_put_unique cfg fc 1 b;
              fc ← fuse_put_unique cfg fc 1 c;
              fuse_put_unique cfg fc 1 d).

(** The allocator after five acquires, on CPUs 0, 1, 0, 1 and 0, and the
    identifiers they returned, latest first. *)
Definition five_acquired : fuse_conn * list Z :=
  Eval vm_compute in
    match
      '(fc, a) ← fuse_get_unique cfg (fuse_conn_init cfg 2) 0;
      '(fc, b) ← fuse_get_unique cfg fc 1;
      '(fc, c) ← fuse_get_unique cfg fc 0;
      '(fc, d) ← fuse_get_unique cfg fc 1;
      '(fc, e) ← fuse_get_unique cfg fc 0;
      Ret (fc, [e; d; c; b; a])
    with
    | Ret s => s
    | _ => (fuse_conn_init cfg 0, [])
    end.

(** A completion with the status 0 for the identifier 8. *)
Definition completion8 : list Z :=
  [16; 0; 0; 0; 0; 0; 0; 0; 8; 0; 0; 0; 0; 0; 0; 0].

(** Slot 0 used twice: request 10 is submitted (identifier 8) and
    completed, then request 13 is submitted from the same CPU and is given
    the identifier 16. *)
Definition reused : fuse_conn :=
  Eval vm_compute in
    returned
      (fc ← fuse_request_send_nowait cfg
              (conn [(10%nat, new_req 8193 8 true);
                     (13%nat, new_req 8194 8 true)]) 0 0 10%nat;
       res ← fuse_dev_do_write cfg fc 0 (buffer 16 16 completion8);
       fuse_request_send_nowait cfg (wr_fc res) 0 0 13%nat).

(** A completion for the identifier 0xdead with the status 1:
    len = 16, error = 1, unique = 0xdead. *)
Definition bad_status : list Z :=
  [16; 0; 0; 0; 1; 0; 0; 0; 173; 222; 0; 0; 0; 0; 0; 0].

(** A completion for the identifier 0xdead with the status 0. *)
Definition unknown_id : list Z :=
  [16; 0; 0; 0; 0; 0; 0; 0; 173; 222; 0; 0; 0; 0; 0; 0].

(** A data fetch naming the identifier 9 (request C, a PXD_READ):
    unique = 9, iovcnt = 1, offset = 0. *)
Definition fetch_c : list Z :=
  [9; 0; 0; 0; 0; 0; 0; 0; 1; 0; 0; 0; 0; 0; 0; 0].

(** The allocator after three acquires, on CPUs 0, 1 and 0, and the
    identifiers they returned, latest first. *)
Definition three_acquired : fuse_conn * list Z :=
  Eval vm_compute in
    match
      '(fc, a) ← fuse_get_unique cfg (fuse_conn_init cfg 2) 0;
      '(fc, b) ← fuse_get_unique cfg fc 1;
      '(fc, c) ← fuse_get_unique cfg fc 0;
      Ret (fc, [c; b; a])
    with
    | Ret s => s
    | _ => (fuse_conn_init cfg 0, [])
    end.

(** The allocator after eight acquires on CPU 0: no identifier is left. *)
Definition exhausted : fuse_conn :=
  Eval vm_compute in
    returned ('(fc, _) ← fuse_get_unique cfg (conn []) 0;
              '(fc, _) ← fuse_get_unique cfg fc 0;
              '(fc, _) ← fuse_get_unique cfg fc 0;
              '(fc, _) ← fuse_get_unique cfg fc 0;
              '(fc, _) ← fuse_get_unique cfg fc 0;
              '(fc, _) ← fuse_get_unique cfg fc 0;
              '(fc, _) ← fuse_get_unique cfg fc 0;
              '(fc, _) ← fuse_get_unique cfg fc 0;
              Ret fc).

(** A, B and C submitted as before while a fourth request D, of 56 bytes
    on the wire, is allocated at the address 13. *)
Definition four_reqs : list (nat * fuse_req) :=
  three_reqs ++ [(13%nat, new_req 8193 16 true)].

Definition submitted_of_four : fuse_conn :=
  Eval vm_compute in returned (submit3 (conn four_reqs)).

(** A read of four bytes into one segment, submitted from CPU 0: it is
    given the identifier 8. *)
Definition read_req : fuse_req :=
  {| in_h := {| ih_len := 0; ih_opcode := 8194; ih_unique := 0 |};
     in_numargs := 1; in_args := [8; 0; 0];
     out_h := {| oh_len := 0; oh_error := 0; oh_unique := 0 |};
     sequence := 0; end_ := true;
     misc_pxd_rdwr_in := {| rdwr_size := 4; rdwr_flags := 0; rdwr_offset := 0 |};
     rq := {| nr_phys_segments := 1; segments := [[0; 0; 0; 0]] |} |}.

Definition reading : fuse_conn :=
  Eval vm_compute in
    returned (fuse_request_send_nowait cfg (conn [(10%nat, read_req)]) 0 0 10%nat).

(** A completion with the status 0 for the identifier 8 that carries two
    bytes of data: len = 18. *)
Definition short_payload : list Z :=
  [18; 0; 0; 0; 0; 0; 0; 0; 8; 0; 0; 0; 0; 0; 0; 0; 1; 2].

(** A write of thirteen zero bytes in two segments. *)
Definition zero_write : fuse_req :=
  {| in_h := {| ih_len := 48; ih_opcode := 8193; ih_unique := 8 |};
     in_numargs := 1; in_args := [8; 0; 0];
     out_h := {| oh_len := 0; oh_error := 0; oh_unique := 0 |};
     sequence := 1; end_ := true;
     misc_pxd_rdwr_in := {| rdwr_size := 13; rdwr_flags := 0; rdwr_offset := 0 |};
     rq := {| nr_phys_segments := 2;
              segments := [[0; 0; 0; 0; 0; 0; 0; 0; 0; 0]; [0; 0; 0]] |} |}.

(** The ring after seven calls of [queue_request]: it is full. *)
Definition full_ring : fuse_conn :=
  Eval vm_compute in
    returned (fc ← queue_request cfg (conn [(10%nat, new_req 8193 8 true)]) 10%nat;
              fc ← queue_request cfg fc 10%nat;
              fc ← queue_request cfg fc 10%nat;
              fc ← queue_request cfg fc 10%nat;
              fc ← queue_request cfg fc 10%nat;
              fc ← queue_request cfg fc 10%nat;
              queue_request cfg fc 10%nat).

(** The device file opened on a connection, with one reference. *)
Definition dev_file (fc : fuse_conn) (flags : Z) : file :=
  {| private_data :=
       Some {| co_conn := fc; co_count := 1; co_released := false |};
     f_flags := flags |}.

(** Five requests at the addresses 10 to 14, submitted from CPU 0: one
    more than a CPU cache holds. *)
Definition five_reqs : list (nat * fuse_req) :=
  [(10%nat, new_req 8193 8 true); (11%nat, new_req 8193 8 true);
   (12%nat, new_req 8194 8 false); (13%nat, new_req 8193 8 true);
   (14%nat, new_req 8193 8 true)].

Definition five_submitted : fuse_conn :=
  Eval vm_compute in
    returned (fc ← fuse_request_send_nowait cfg (conn five_reqs) 0 0 10%nat;
              fc ← fuse_request_send_nowait cfg fc 0 0 11%nat;
              fc ← fuse_request_send_nowait cfg fc 0 0 12%nat;
              fc ← fuse_request_send_nowait cfg fc 0 0 13%nat;
              fuse_request_send_nowait cfg fc 0 0 14%nat).

End Small.

(** * Properties *)

(** ** Vocabulary of the statements *)

Section Vocabulary.

Variable cfg : config.

(** The identifiers a CPU cache holds, and all the free identifiers of a
    connection: the valid part of the global array and of every cache. *)
Definition cpu_pool (c : fuse_per_cpu_ids) : list Z :=
  take (Z.to_nat (pc_num_free_ids c)) (pc_free_ids c).

Definition free_pool (fc : fuse_conn) : list Z :=
  take (Z.to_nat (num_free_ids fc)) (free_ids fc)
    ++ concat (cpu_pool <$> per_cpu_ids fc).

(** The arrays have their declared sizes and the counters are within them. *)
Definition cpu_shape (c : fuse_per_cpu_ids) : Prop :=
  0 <= pc_num_free_ids c <= FUSE_MAX_PER_CPU_IDS cfg /\
  Z.of_nat (length (pc_free_ids c)) = FUSE_MAX_PER_CPU_IDS cfg.

Definition alloc_shape (fc : fuse_conn) : Prop :=
  Z.of_nat (length (free_ids fc)) = FUSE_MAX_REQUEST_IDS cfg /\
  0 <= num_free_ids fc <= FUSE_MAX_REQUEST_IDS cfg /\
  Forall cpu_shape (per_cpu_ids fc) /\
  Z.of_nat (length (request_map fc)) = FUSE_MAX_REQUEST_IDS cfg.

(** What [fuse_get_unique] makes of the value it pops. *)
Definition next_unique (v : Z) : Z :=
  let uid := u64 (v + FUSE_MAX_REQUEST_IDS cfg) in
  if uid =? 0 then u64 (uid + FUSE_MAX_REQUEST_IDS cfg) else uid.

(** Two connections that differ in the allocator only, and have the same
    CPUs. *)
Definition same_channel (fc fc' : fuse_conn) : Prop :=
  connected fc' = connected fc /\
  allow_disconnected fc' = allow_disconnected fc /\
  queue fc' = queue fc /\ mem fc' = mem fc /\ log fc' = log fc /\
  length (per_cpu_ids fc') = length (per_cpu_ids fc).

(** Clients of the allocator: each step is one call on some CPU, and only an
    identifier that is held is released. *)
Inductive alloc_op :=
| Acquire (cpu : nat)
| Release (cpu : nat) (uid : Z).

Inductive alloc_step : fuse_conn * list Z -> alloc_op -> fuse_conn * list Z -> Prop :=
| step_acquire fc held cpu fc' uid :
    fuse_get_unique cfg fc cpu = Ret (fc', uid) ->
    alloc_step (fc, held) (Acquire cpu) (fc', uid :: held)
| step_release fc held1 held2 cpu uid fc' :
    fuse_put_unique cfg fc cpu uid = Ret fc' ->
    alloc_step (fc, held1 ++ uid :: held2) (Release cpu uid) (fc', held1 ++ held2).

Inductive alloc_run : fuse_conn * list Z -> list alloc_op -> fuse_conn * list Z -> Prop :=
| run_nil s : alloc_run s [] s
| run_cons s op s' ops s'' :
    alloc_step s op s' -> alloc_run s' ops s'' -> alloc_run s (op :: ops) s''.

(** The invariant of the allocator and its clients: no slot occurs twice
    among the free and the held identifiers. *)
Definition alloc_inv (s : fuse_conn * list Z) : Prop :=
  alloc_shape s.1 /\ NoDup (slot_of cfg <$> (free_pool s.1 ++ s.2)).

(** The requests the slot table holds, in slot order. *)
Definition registered (fc : fuse_conn) : list ptr := omap id (request_map fc).

(** Every request in the slot table is allocated and sits in the slot of its
    own identifier, as [fuse_request_send_nowait] registers it. *)
Definition table_ok (fc : fuse_conn) : Prop :=
  forall (i : nat) req, request_map fc !! i = Some (Some req) ->
    exists r, mem fc !! req = Some r /\
      slot_of cfg (ih_unique (in_h r)) = Z.of_nat i.

Definition unique_at (m : gmap nat fuse_req) (req : ptr) : Z :=
  match m !! req with Some r => ih_unique (in_h r) | None => 0 end.

(** What the finalization of [req] with status [error] leaves in the log. *)
Definition finalization (m : gmap nat fuse_req) (error : Z) (req : ptr)
  : list event :=
  match m !! req with
  | Some r =>
      EvEnd req error (end_ r) :: (if PX_BLKMQ cfg then [] else [EvFree req])
  | None => []
  end.

(** The calls of [request_end] on [req] among some events. *)
Definition is_end_of (req : ptr) (ev : event) : bool :=
  match ev with EvEnd q _ _ => Nat.eqb q req | _ => false end.

Definition ends_of (req : ptr) (l : list event) : list event :=
  List.filter (is_end_of req) l.

(** The ring between the reader's cursor and the writer's: what the
    consumer is handed next, slot by slot. *)
Definition ring_at (q : fuse_req_queue) (x : Z) : option ptr :=
  default None (requests q !! Z.to_nat (x mod FUSE_REQUEST_QUEUE_SIZE cfg)).

Definition pending_count (q : fuse_req_queue) : Z :=
  (w_write q - r_read q) mod FUSE_REQUEST_QUEUE_SIZE cfg.

Definition pending_queue (q : fuse_req_queue) : list (option ptr) :=
  (fun k => ring_at q (r_read q + Z.of_nat k))
    <$> seq 0 (Z.to_nat (pending_count q)).

Definition queue_shape (q : fuse_req_queue) : Prop :=
  0 <= r_read q < FUSE_REQUEST_QUEUE_SIZE cfg /\
  0 <= w_write q < FUSE_REQUEST_QUEUE_SIZE cfg /\
  Z.of_nat (length (requests q)) = FUSE_REQUEST_QUEUE_SIZE cfg.

(** The sequence number below which [fuse_restart_requests] replays: that
    of the oldest request still queued, or the next one to be issued. *)
Definition replay_boundary (fc : fuse_conn) : Z :=
  match pending_queue (queue fc) with
  | Some req :: _ => sequence_at (mem fc) req
  | _ => w_sequence (queue fc)
  end.

Definition seq_le (m : gmap nat fuse_req) (a b : ptr) : Prop :=
  sequence_at m a <= sequence_at m b.

(** Some request was finalized with an I/O error among these events. *)
Definition eio_in (ev : list event) : Prop :=
  exists req cb, EvEnd req (- EIO) cb ∈ ev.

(** The request at the reader's cursor [read] is allocated and longer than
    [remain]. *)
Definition head_blocked (fc : fuse_conn) (read remain : Z) : Prop :=
  exists req r, 0 <= read /\
    requests (queue fc) !! Z.to_nat read = Some (Some req) /\
    mem fc !! req = Some r /\ remain < ih_len (in_h r).

(** The invariant of a connection between calls: the arrays have their
    shape, the slot table is consistent, and no slot occurs twice among the
    free identifiers and the identifiers of the registered requests. *)
Definition conn_inv (fc : fuse_conn) : Prop :=
  alloc_shape fc /\ table_ok fc /\
  NoDup (slot_of cfg <$> (free_pool fc
                          ++ (unique_at (mem fc) <$> registered fc))).

(** ** Three sentences of the specification, as it words them *)

(** "refilling from the global pool (taking up to half of what remains)" *)
Definition refill_at_most_half_of_rest : Prop :=
  forall ncpus ops fc held cpu c fc' uid,
    alloc_run (fuse_conn_init cfg ncpus, []) ops (fc, held) ->
    per_cpu_ids fc !! cpu = Some c -> pc_num_free_ids c = 0 ->
    fuse_get_unique cfg fc cpu = Ret (fc', uid) ->
    2 * (num_free_ids fc - num_free_ids fc') <= num_free_ids fc.

(** "Unknown identifiers are reported and the write call fails [with not
    found] without side effects beyond the lookup", for every completion
    with a non-zero correlation identifier. *)
Definition unknown_completion_not_found : Prop :=
  forall fc cpu iter bytes iter',
    copy_from_iter (sizeof_fuse_out_header cfg) iter
      = (bytes, sizeof_fuse_out_header cfg, iter') ->
    oh_unique (decode_out_header cfg bytes) <> 0 ->
    request_find cfg fc (oh_unique (decode_out_header cfg bytes)) = Ret None ->
    exists res, fuse_dev_do_write cfg fc cpu iter = Ret res /\
      wr_ret res = - ENOENT /\ wr_fc res = fc.



(** The sum of some sizes. *)
Definition sum_sizes (l : list Z) : Z := foldr Z.add 0 l.

(** A request as the read path hands it over: its address and the size of
    its first argument.  [wire_chunks] is what the consumer receives for
    it, the header and then the argument, and [wire_size] the number of
    bytes that makes. *)
Definition wire_chunks (d : ptr * Z) : list (source * Z) :=
  (SrcHeader d.1, sizeof_fuse_in_header cfg)
    :: (if 0 <? d.2 then [(SrcArg0 d.1, d.2)] else []).

Definition wire_size (d : ptr * Z) : Z := sizeof_fuse_in_header cfg + d.2.

(** The request is allocated, and its header length is the size of the
    header plus that of its first argument, as [fuse_request_send_nowait]
    sets it for a request with one argument. *)
Definition deliverable (m : gmap nat fuse_req) (d : ptr * Z) : Prop :=
  exists r, m !! d.1 = Some r /\ in_args r !! 0%nat = Some d.2 /\ 0 <= d.2 /\
    ih_len (in_h r) = sizeof_fuse_in_header cfg + d.2.

(** The ring holds the requests [ds], in this order, from the cursor
    [read] on. *)
Definition ring_holds (q : fuse_req_queue) (read : Z) (ds : list (ptr * Z)) : Prop :=
  forall (k : nat) d, ds !! k = Some d ->
    requests q !! Z.to_nat ((read + Z.of_nat k) mod FUSE_REQUEST_QUEUE_SIZE cfg)
    = Some (Some d.1).

(** Two requests that differ in the opcode at most (what the conversion of
    a zero write to a discard changes), and two memories whose requests
    differ that way. *)
Definition same_but_opcode (r r1 : fuse_req) : Prop :=
  in_args r1 = in_args r /\ in_numargs r1 = in_numargs r /\
  ih_len (in_h r1) = ih_len (in_h r) /\
  ih_unique (in_h r1) = ih_unique (in_h r) /\
  sequence r1 = sequence r /\ out_h r1 = out_h r /\ rq r1 = rq r /\
  end_ r1 = end_ r /\ misc_pxd_rdwr_in r1 = misc_pxd_rdwr_in r.

Definition mem_kept (m m1 : gmap nat fuse_req) : Prop :=
  forall p : ptr, match m !! p, m1 !! p with
            | Some r, Some r1 => same_but_opcode r r1
            | None, None => True
            | _, _ => False
            end.

(** [fc1] is [fc] after the read path handed over the [n] requests from
    the cursor [read] on: their ring slots are NULL, and nothing else has
    changed but, possibly, opcodes. *)
Definition delivered (fc fc1 : fuse_conn) (read : Z) (n : nat) : Prop :=
  w_write (queue fc1) = w_write (queue fc) /\
  w_read (queue fc1) = w_read (queue fc) /\
  w_sequence (queue fc1) = w_sequence (queue fc) /\
  length (requests (queue fc1)) = length (requests (queue fc)) /\
  (forall k : nat, (k < n)%nat ->
     requests (queue fc1)
       !! Z.to_nat ((read + Z.of_nat k) mod FUSE_REQUEST_QUEUE_SIZE cfg)
     = Some None) /\
  (forall x : nat,
     (forall k : nat, (k < n)%nat ->
        x <> Z.to_nat ((read + Z.of_nat k) mod FUSE_REQUEST_QUEUE_SIZE cfg)) ->
     requests (queue fc1) !! x = requests (queue fc) !! x) /\
  log fc1 = log fc /\ request_map fc1 = request_map fc /\
  num_free_ids fc1 = num_free_ids fc /\ free_ids fc1 = free_ids fc /\
  per_cpu_ids fc1 = per_cpu_ids fc /\
  connected fc1 = connected fc /\
  allow_disconnected fc1 = allow_disconnected fc /\
  mem_kept (mem fc) (mem fc1).

(** What a data fetch copies to the consumer of the segments [segs] of
    [req], numbered from [k], when the first [skip] bytes are left out:
    the rest of the segment in which the skipped bytes end, then every
    later segment whole. *)
Fixpoint page_chunks (req : ptr) (k : nat) (segs : list (list Z)) (skip : Z)
  : list (source * Z) :=
  match segs with
  | [] => []
  | seg :: segs =>
      let len := Z.of_nat (length seg) in
      if 0 <? skip then
        if skip >=? len then page_chunks req (S k) segs (skip - len)
        else (SrcPage req k skip, len - skip) :: page_chunks req (S k) segs 0
      else if 0 <? len then (SrcPage req k 0, len) :: page_chunks req (S k) segs 0
      else page_chunks req (S k) segs 0
  end.

(** The writer's copy of the read cursor ([queue.w.read]) is a value the
    read cursor had and has not been overtaken: going round the ring from
    it one meets the read cursor and then the write cursor. *)
Definition writer_view_ok (q : fuse_req_queue) : Prop :=
  0 <= w_read q < FUSE_REQUEST_QUEUE_SIZE cfg /\
  (r_read q - w_read q) mod FUSE_REQUEST_QUEUE_SIZE cfg
  + (w_write q - r_read q) mod FUSE_REQUEST_QUEUE_SIZE cfg
  < FUSE_REQUEST_QUEUE_SIZE cfg.

(** The requests [queued] are what is pending, their sequence numbers
    increase strictly along the queue, and all are below the next number
    to be issued. *)
Definition seq_lt (m : gmap nat fuse_req) (a b : ptr) : Prop :=
  sequence_at m a < sequence_at m b.

Definition ring_ordered (fc : fuse_conn) (queued : list ptr) : Prop :=
  pending_queue (queue fc) = Some <$> queued /\
  StronglySorted (seq_lt (mem fc)) queued /\
  Forall (fun p => sequence_at (mem fc) p < w_sequence (queue fc)) queued.

(** ** What a read call did

                              called when [called] *)







End Vocabulary.

(** ** Arithmetic of the masks and counters *)

Global Arguments u32 : simpl never.
Global Arguments u64 : simpl never.

Lemma u32_small x : 0 <= x < 2 ^ 32 -> u32 x = x.
Proof. intros. unfold u32. by apply Z.mod_small. Qed.

Lemma land_pow2_mod x n :
  0 < n -> n = 2 ^ Z.log2 n -> Z.land x (n - 1) = x mod n.
Proof.
  intros Hpos Hn.
  assert (Hk : 0 <= Z.log2 n) by apply Z.log2_nonneg.
  remember (Z.log2 n) as k. rewrite Hn.
  replace (2 ^ k - 1) with (Z.ones k) by (rewrite Z.ones_equiv; lia).
  by apply Z.land_ones.
Qed.

Section Facts.

Variable cfg : config.
Hypothesis Hcfg : config_ok cfg.

Local Abbreviation MAX_IDS := (FUSE_MAX_REQUEST_IDS cfg).
Local Abbreviation PER_CPU := (FUSE_MAX_PER_CPU_IDS cfg).
Local Abbreviation QUEUE_SIZE := (FUSE_REQUEST_QUEUE_SIZE cfg).

Lemma slot_of_mod uid : slot_of cfg uid = uid mod MAX_IDS.
Proof.
  unfold slot_of. apply land_pow2_mod; [apply Hcfg | apply Hcfg].
Qed.

Lemma slot_of_range uid : 0 <= slot_of cfg uid < MAX_IDS.
Proof. rewrite slot_of_mod. apply Z.mod_pos_bound, Hcfg. Qed.

Lemma ids_divide_word : (MAX_IDS | 2 ^ 64).
Proof.
  destruct Hcfg as [Hp [Hpos Hlt] _ _ _ _].
  assert (Hl : 0 <= Z.log2 MAX_IDS <= 64).
  { split; [apply Z.log2_nonneg |].
    assert (Z.log2 MAX_IDS < 31); [| lia].
    apply Z.log2_lt_pow2; lia. }
  exists (2 ^ (64 - Z.log2 MAX_IDS)).
  rewrite Hp at 2. rewrite <- Z.pow_add_r by lia. f_equal. lia.
Qed.

Lemma slot_of_next_unique v : slot_of cfg (next_unique cfg v) = slot_of cfg v.
Proof.
  assert (Hpos : 0 < MAX_IDS) by apply Hcfg.
  assert (Hstep : forall x, slot_of cfg (u64 (x + MAX_IDS)) = slot_of cfg x).
  { intros x. rewrite !slot_of_mod. unfold u64.
    rewrite Z.mod_mod_divide by apply ids_divide_word.
    rewrite <- (Z.mul_1_l MAX_IDS) at 1. apply Z_mod_plus_full. }
  unfold next_unique. destruct (_ =? 0); by rewrite ?Hstep.
Qed.
(** ** The allocator *)

Lemma pool_split (l : list fuse_per_cpu_ids) cpu c :
  l !! cpu = Some c ->
  exists A B, concat (cpu_pool <$> l) = A ++ cpu_pool c ++ B /\
    forall c', concat (cpu_pool <$> <[cpu := c']> l) = A ++ cpu_pool c' ++ B.
Proof.
  intros H.
  exists (concat (cpu_pool <$> take cpu l)),
         (concat (cpu_pool <$> drop (S cpu) l)).
  split.
  - rewrite <- (take_drop_middle l cpu c H) at 1.
    by rewrite fmap_app, concat_app.
  - intros c'. rewrite insert_take_drop by (eapply lookup_lt_Some; eauto).
    by rewrite fmap_app, concat_app.
Qed.

Lemma cpu_shape_insert (l : list fuse_per_cpu_ids) cpu c :
  Forall (cpu_shape cfg) l -> cpu_shape cfg c ->
  Forall (cpu_shape cfg) (<[cpu := c]> l).
Proof. intros. by apply Forall_insert. Qed.

Lemma take_pop (l : list Z) (n : Z) :
  0 < n <= Z.of_nat (length l) ->
  exists v, l !! Z.to_nat (n - 1) = Some v /\
    take (Z.to_nat n) l = take (Z.to_nat (n - 1)) l ++ [v].
Proof.
  intros Hn.
  destruct (lookup_lt_is_Some_2 l (Z.to_nat (n - 1))) as [v Hv]; [lia |].
  exists v. split; [done |].
  replace (Z.to_nat n) with (S (Z.to_nat (n - 1))) by lia.
  by apply take_S_r.
Qed.

Lemma fuse_get_unique_ok fc cpu c :
  alloc_shape cfg fc -> per_cpu_ids fc !! cpu = Some c ->
  (pc_num_free_ids c = 0 -> 0 < num_free_ids fc) ->
  exists fc' v, fuse_get_unique cfg fc cpu = Ret (fc', next_unique cfg v) /\
    alloc_shape cfg fc' /\ free_pool fc ≡ₚ v :: free_pool fc' /\
    request_map fc' = request_map fc /\ same_channel fc fc'.
Proof.
  intros (Hlen & Hnum & Hcpus & Hmap) Hc Havail.
  assert (Hpc : 2 <= PER_CPU < 2 ^ 31) by apply Hcfg.
  assert (Hmax : 0 < MAX_IDS < 2 ^ 31) by apply Hcfg.
  pose proof (Forall_lookup_1 _ _ _ _ Hcpus Hc) as [Hcn Hcl].
  destruct (pool_split _ _ _ Hc) as (A & B & Hsplit & Hins).
  unfold fuse_get_unique, per_cpu_ptr. rewrite Hc. cbn.
  destruct (Z.eqb_spec (pc_num_free_ids c) 0) as [Hz | Hnz].
  - specialize (Havail Hz).
    destruct (Z.eqb_spec (num_free_ids fc) 0) as [? | _]; [lia |].
    rewrite (u32_small PER_CPU) by lia.
    set (n := Z.min (num_free_ids fc) (PER_CPU / 2)).
    assert (Hn : 0 < n <= PER_CPU / 2 /\ n <= num_free_ids fc /\ n <= PER_CPU).
    { assert (1 <= PER_CPU / 2) by (apply Z.div_le_lower_bound; lia).
      assert (PER_CPU / 2 <= PER_CPU) by (apply Z.div_le_upper_bound; lia).
      unfold n. lia. }
    unfold memcpy_ids. rewrite decide_True by lia. cbn.
    set (moved := take (Z.to_nat n)
                    (drop (Z.to_nat (num_free_ids fc - n)) (free_ids fc))).
    assert (Hml : length moved = Z.to_nat n).
    { unfold moved. rewrite length_take, length_drop. lia. }
    set (ids := list_inserts (Z.to_nat 0) moved (pc_free_ids c)).
    assert (Hids : take (Z.to_nat n) ids = moved).
    { unfold ids. rewrite <- (take_drop (Z.to_nat n) (pc_free_ids c)).
      rewrite list_inserts_0_r by (rewrite length_take; lia).
      by apply take_app_length'. }
    assert (Hil : length ids = length (pc_free_ids c)).
    { unfold ids. apply length_inserts. }
    rewrite (u32_small (n - 1)) by lia.
    destruct (take_pop ids n) as (v & Hv & Htake); [lia |].
    unfold array_get. rewrite decide_True by lia. rewrite Hv. cbn.
    eexists _, v. split; [reflexivity |].
    rewrite (u32_small (num_free_ids fc - n)) by lia.
    split; [| split; [| split]].
    + repeat split; cbn; try lia; try done.
      apply cpu_shape_insert; [done |]. split; cbn; lia.
    + unfold free_pool. cbn. rewrite Hsplit, Hins.
      unfold cpu_pool at 1 2. cbn. rewrite Hz. cbn.
      assert (Hg : take (Z.to_nat (num_free_ids fc)) (free_ids fc)
                   = take (Z.to_nat (num_free_ids fc - n)) (free_ids fc) ++ moved).
      { unfold moved. rewrite take_take_drop. f_equal. lia. }
      rewrite Hg, <- Hids, Htake. solve_Permutation.
    + done.
    + repeat split; cbn; try done. apply length_insert.
  - destruct (take_pop (pc_free_ids c) (pc_num_free_ids c))
      as (v & Hv & Htake); [lia |].
    cbn. rewrite (u32_small (pc_num_free_ids c - 1)) by lia.
    unfold array_get. rewrite decide_True by lia. rewrite Hv. cbn.
    eexists _, v. split; [reflexivity |].
    split; [| split; [| split]].
    + repeat split; cbn; try lia; try done.
      apply cpu_shape_insert; [done |]. split; cbn; lia.
    + unfold free_pool. cbn. rewrite Hsplit, Hins.
      unfold cpu_pool at 1 2. cbn. rewrite Htake. solve_Permutation.
    + done.
    + repeat split; cbn; try done. apply length_insert.
Qed.

Lemma take_inserts_end (l k : list Z) (i : nat) :
  (i + length k <= length l)%nat ->
  take (i + length k) (list_inserts i k l) = take i l ++ k.
Proof.
  intros Hle.
  rewrite <- (take_drop i l) at 1.
  assert (Hi : length (take i l) = i) by (rewrite length_take; lia).
  rewrite <- (Nat.add_0_r i) at 2. rewrite <- Hi at 2.
  rewrite list_inserts_app_r.
  rewrite <- (take_drop (length k) (drop i l)).
  rewrite list_inserts_0_r by (rewrite length_take, length_drop; lia).
  rewrite app_assoc. apply take_app_length'.
  rewrite length_app, Hi. lia.
Qed.

Lemma take_push (l : list Z) (n : nat) (x : Z) :
  (n < length l)%nat -> take (S n) (<[n := x]> l) = take n l ++ [x].
Proof.
  intros Hn. rewrite (take_S_r _ _ x) by (by apply list_lookup_insert_eq).
  by rewrite take_insert_ge by lia.
Qed.

Lemma fuse_put_unique_ok fc cpu c uid :
  alloc_shape cfg fc -> per_cpu_ids fc !! cpu = Some c ->
  (pc_num_free_ids c = PER_CPU -> num_free_ids fc + PER_CPU / 2 <= MAX_IDS) ->
  exists fc', fuse_put_unique cfg fc cpu uid = Ret fc' /\
    alloc_shape cfg fc' /\ free_pool fc' ≡ₚ uid :: free_pool fc /\
    request_map fc' = <[Z.to_nat (slot_of cfg uid) := None]> (request_map fc) /\
    same_channel fc fc'.
Proof.
  intros (Hlen & Hnum & Hcpus & Hmap) Hc Hroom.
  assert (Hpc : 2 <= PER_CPU < 2 ^ 31) by apply Hcfg.
  assert (Hmax : 0 < MAX_IDS < 2 ^ 31) by apply Hcfg.
  assert (Hhalf : 1 <= PER_CPU / 2 <= PER_CPU).
  { split; [apply Z.div_le_lower_bound | apply Z.div_le_upper_bound]; lia. }
  pose proof (slot_of_range uid) as Hslot.
  pose proof (Forall_lookup_1 _ _ _ _ Hcpus Hc) as [Hcn Hcl].
  destruct (pool_split _ _ _ Hc) as (A & B & Hsplit & Hins).
  unfold fuse_put_unique, per_cpu_ptr. rewrite Hc. cbn.
  destruct (Z.eqb_spec (pc_num_free_ids c) PER_CPU) as [Hfull | Hnf].
  - specialize (Hroom Hfull). set (h := PER_CPU / 2) in *.
    rewrite (u32_small (num_free_ids fc + h)) by lia.
    destruct (Z.gtb_spec (num_free_ids fc + h) MAX_IDS) as [? | _]; [lia |].
    unfold memcpy_ids. rewrite decide_True by lia. cbn.
    rewrite (u32_small (pc_num_free_ids c - h)) by lia.
    set (moved := take (Z.to_nat h)
                    (drop (Z.to_nat (pc_num_free_ids c - h)) (pc_free_ids c))).
    assert (Hml : length moved = Z.to_nat h).
    { unfold moved. rewrite length_take, length_drop. lia. }
    unfold array_set at 1. cbn. rewrite decide_True by lia. cbn.
    rewrite (u32_small (pc_num_free_ids c - h + 1)) by lia.
    unfold array_set. cbn. rewrite decide_True by lia. cbn.
    eexists. split; [reflexivity |].
    split; [| split; [| split]].
    + repeat split; cbn; try lia.
      * rewrite length_inserts. lia.
      * apply cpu_shape_insert; [done |]. split; cbn; [lia |].
        rewrite length_insert. lia.
      * rewrite length_insert. lia.
    + unfold free_pool. cbn. rewrite Hsplit, Hins.
      unfold cpu_pool at 1 2. cbn.
      replace (Z.to_nat (num_free_ids fc + h))
        with (Z.to_nat (num_free_ids fc) + length moved)%nat by lia.
      rewrite take_inserts_end by lia.
      replace (Z.to_nat (pc_num_free_ids c - h + 1))
        with (S (Z.to_nat (pc_num_free_ids c - h))) by lia.
      rewrite take_push by lia.
      assert (Hg : take (Z.to_nat (pc_num_free_ids c)) (pc_free_ids c)
                   = take (Z.to_nat (pc_num_free_ids c - h)) (pc_free_ids c)
                       ++ moved).
      { unfold moved. rewrite take_take_drop. f_equal. lia. }
      rewrite Hg. solve_Permutation.
    + done.
    + repeat split; cbn; try done. apply length_insert.
  - unfold array_set at 1. cbn. rewrite decide_True by lia. cbn.
    rewrite (u32_small (pc_num_free_ids c + 1)) by lia.
    unfold array_set. cbn. rewrite decide_True by lia. cbn.
    eexists. split; [reflexivity |].
    split; [| split; [| split]].
    + repeat split; cbn; try lia; try done.
      * apply cpu_shape_insert; [done |]. split; cbn; [lia |].
        rewrite length_insert. lia.
      * rewrite length_insert. lia.
    + unfold free_pool. cbn. rewrite Hsplit, Hins.
      unfold cpu_pool at 1 2. cbn.
      replace (Z.to_nat (pc_num_free_ids c + 1))
        with (S (Z.to_nat (pc_num_free_ids c))) by lia.
      rewrite take_push by lia. solve_Permutation.
    + done.
    + repeat split; cbn; try done. apply length_insert.
Qed.

Lemma fuse_get_unique_inv fc cpu fc' uid :
  alloc_shape cfg fc -> fuse_get_unique cfg fc cpu = Ret (fc', uid) ->
  exists v, uid = next_unique cfg v /\ alloc_shape cfg fc' /\
    free_pool fc ≡ₚ v :: free_pool fc'.
Proof.
  intros Hs Hget.
  destruct (per_cpu_ids fc !! cpu) as [c |] eqn:Hc.
  - destruct (decide (pc_num_free_ids c = 0 /\ num_free_ids fc = 0))
      as [[Hz Hg] | Hn].
    + unfold fuse_get_unique, per_cpu_ptr in Hget.
      rewrite Hc in Hget. cbn in Hget. by rewrite Hz, Hg in Hget.
    + destruct (fuse_get_unique_ok fc cpu c Hs Hc)
        as (fc1 & v & Heq & Hs1 & Hperm & _).
      { destruct Hs as (_ & ? & _). lia. }
      rewrite Heq in Hget. injection Hget as <- <-. eauto.
  - unfold fuse_get_unique, per_cpu_ptr in Hget. by rewrite Hc in Hget.
Qed.

Lemma fuse_put_unique_inv fc cpu uid fc' :
  alloc_shape cfg fc -> fuse_put_unique cfg fc cpu uid = Ret fc' ->
  alloc_shape cfg fc' /\ free_pool fc' ≡ₚ uid :: free_pool fc.
Proof.
  intros Hs Hput.
  assert (Hpc : 2 <= PER_CPU < 2 ^ 31) by apply Hcfg.
  assert (Hmax : 0 < MAX_IDS < 2 ^ 31) by apply Hcfg.
  destruct (per_cpu_ids fc !! cpu) as [c |] eqn:Hc.
  - destruct (decide (pc_num_free_ids c = PER_CPU /\
                      MAX_IDS < num_free_ids fc + PER_CPU / 2))
      as [[Hfull Hg] | Hn].
    + unfold fuse_put_unique, per_cpu_ptr in Hput.
      rewrite Hc in Hput. cbn in Hput.
      rewrite Hfull, Z.eqb_refl in Hput.
      assert (Hhalf : PER_CPU / 2 <= PER_CPU)
        by (apply Z.div_le_upper_bound; lia).
      destruct Hs as (_ & ? & _).
      rewrite u32_small in Hput by lia.
      destruct (Z.gtb_spec (num_free_ids fc + PER_CPU / 2) MAX_IDS);
        [done | lia].
    + destruct (fuse_put_unique_ok fc cpu c uid Hs Hc)
        as (fc1 & Heq & Hs1 & Hperm & _); [lia |].
      rewrite Heq in Hput. by injection Hput as <-.
  - unfold fuse_put_unique, per_cpu_ptr in Hput. by rewrite Hc in Hput.
Qed.

Lemma fuse_conn_init_shape ncpus : alloc_shape cfg (fuse_conn_init cfg ncpus).
Proof.
  assert (Hpc : 2 <= PER_CPU < 2 ^ 31) by apply Hcfg.
  assert (Hmax : 0 < MAX_IDS < 2 ^ 31) by apply Hcfg.
  repeat split; cbn; try lia.
  - rewrite length_map, length_seq. lia.
  - apply Forall_replicate. split; cbn; [lia |]. rewrite length_replicate. lia.
  - rewrite length_replicate. lia.
Qed.

Lemma fuse_conn_init_pool ncpus :
  free_pool (fuse_conn_init cfg ncpus)
  = map (fun i => MAX_IDS - Z.of_nat i - 1) (seq 0 (Z.to_nat MAX_IDS)).
Proof.
  unfold free_pool. cbn.
  rewrite take_ge by (rewrite length_map, length_seq; lia).
  assert (Hnil : concat (cpu_pool <$> replicate ncpus
            {| pc_num_free_ids := 0;
               pc_free_ids := replicate (Z.to_nat PER_CPU) 0 |}) = []).
  { induction ncpus as [| n IH]; [done |]. cbn. by rewrite IH. }
  by rewrite Hnil, app_nil_r.
Qed.

Lemma fuse_conn_init_slots ncpus :
  NoDup (slot_of cfg <$> free_pool (fuse_conn_init cfg ncpus)).
Proof.
  assert (Hmax : 0 < MAX_IDS < 2 ^ 31) by apply Hcfg.
  rewrite fuse_conn_init_pool.
  change (map ?f ?l) with (f <$> l). rewrite <- list_fmap_compose.
  apply NoDup_fmap_2_strong; [| apply NoDup_seq].
  intros i j Hi Hj. cbn. rewrite !slot_of_mod.
  apply elem_of_seq in Hi, Hj.
  rewrite !Z.mod_small by lia. lia.
Qed.

Lemma alloc_step_inv s op s' :
  alloc_step cfg s op s' -> alloc_inv cfg s -> alloc_inv cfg s'.
Proof.
  intros Hstep [Hs Hnd]. destruct Hstep as [fc held cpu fc' uid Hget
                                           | fc h1 h2 cpu uid fc' Hput]; cbn in *.
  - destruct (fuse_get_unique_inv _ _ _ _ Hs Hget) as (v & -> & Hs' & Hperm).
    split; [done |]. cbn.
    rewrite fmap_app, fmap_cons, slot_of_next_unique.
    rewrite <- Permutation_middle, <- fmap_app.
    rewrite Hperm in Hnd. by rewrite <- app_comm_cons, fmap_cons in Hnd.
  - destruct (fuse_put_unique_inv _ _ _ _ Hs Hput) as (Hs' & Hperm).
    split; [done |]. cbn.
    rewrite Hperm.
    eapply NoDup_Permutation_proper; [| exact Hnd].
    rewrite !fmap_app, !fmap_cons. solve_Permutation.
Qed.

(** C3: from the state [fuse_conn_init] leaves, after any sequence of
    [fuse_get_unique] and [fuse_put_unique] calls on any CPUs in which only
    held identifiers are released, the identifiers held at the same time
    are pairwise distinct, and so are their slots in the request map. *)
Theorem identifier_uniqueness ncpus ops fc held :
  alloc_run cfg (fuse_conn_init cfg ncpus, []) ops (fc, held) ->
  NoDup held /\ NoDup (slot_of cfg <$> held).
Proof.
  intros Hrun.
  assert (Hinv : alloc_inv cfg (fc, held)).
  { remember (fuse_conn_init cfg ncpus, @nil Z) as s0 eqn:Hs0.
    assert (H0 : alloc_inv cfg s0).
    { subst s0. split; cbn; [apply fuse_conn_init_shape |].
      rewrite app_nil_r. apply fuse_conn_init_slots. }
    clear Hs0. remember (fc, held) as s1 eqn:Hs1. clear Hs1.
    induction Hrun as [| s op s' ops s'' Hstep _ IH]; [done |].
    apply IH. by eapply alloc_step_inv. }
  destruct Hinv as [_ Hnd]. cbn in Hnd.
  rewrite fmap_app in Hnd. apply NoDup_app in Hnd as (_ & _ & Hheld).
  split; [by eapply NoDup_fmap_1 | done].
Qed.

(** ** Slot table lookup *)

Lemma u32_nonneg x : 0 <= u32 x.
Proof. unfold u32. apply Z.mod_pos_bound. lia. Qed.

Lemma request_find_slot fc unique req r :
  request_map fc !! Z.to_nat (u32 (slot_of cfg unique)) = Some (Some req) ->
  mem fc !! req = Some r ->
  request_find cfg fc unique
  = Ret (if ih_unique (in_h r) =? unique then Some req else None).
Proof.
  intros Hslot Hreq. unfold request_find, array_get, deref.
  rewrite decide_True by apply u32_nonneg.
  rewrite Hslot. cbn. rewrite Hreq. cbn.
  by destruct (ih_unique (in_h r) =? unique).
Qed.

(** C7: when the slot of an identifier [old] holds a request whose own
    identifier [new] is a different one (the slot was reused), looking [old]
    up yields NULL and not that request; looking [new] up yields it. *)
Theorem request_find_reused_slot fc old new req r :
  slot_of cfg old = slot_of cfg new ->
  request_map fc !! Z.to_nat (u32 (slot_of cfg new)) = Some (Some req) ->
  mem fc !! req = Some r ->
  ih_unique (in_h r) = new ->
  old <> new ->
  request_find cfg fc old = Ret None /\
  request_find cfg fc new = Ret (Some req).
Proof.
  intros Halias Hslot Hreq Hnew Hne. split.
  - rewrite (request_find_slot fc old req r); [| by rewrite Halias | done].
    rewrite Hnew. by destruct (Z.eqb_spec new old); [congruence |].
  - rewrite (request_find_slot fc new req r) by done.
    by rewrite Hnew, Z.eqb_refl.
Qed.

(** ** Write path *)

(** C10: a data fetch whose identifier resolves to a request that is neither
    a PXD_WRITE nor a PXD_WRITE_SAME fails with -EINVAL; only the fixed
    argument has been read from the message and nothing has been copied to
    the consumer. *)
Theorem fuse_notify_read_data_not_write fc size iter bytes iter' req r :
  copy_from_iter (sizeof_pxd_read_data_out cfg) iter
    = (bytes, sizeof_pxd_read_data_out cfg, iter') ->
  request_find cfg fc (rd_unique (decode_read_data cfg bytes))
    = Ret (Some req) ->
  mem fc !! req = Some r ->
  ih_opcode (in_h r) <> PXD_WRITE cfg ->
  ih_opcode (in_h r) <> PXD_WRITE_SAME cfg ->
  fuse_notify_read_data cfg fc size iter = Ret (- EINVAL, iter', []).
Proof.
  intros Hcopy Hfind Hreq Hw Hws. unfold fuse_notify_read_data.
  rewrite Hcopy, Z.eqb_refl. cbn. rewrite Hfind. cbn.
  unfold deref. rewrite Hreq. cbn.
  destruct (Z.eqb_spec (ih_opcode (in_h r)) (PXD_WRITE cfg)); [done |].
  by destruct (Z.eqb_spec (ih_opcode (in_h r)) (PXD_WRITE_SAME cfg)).
Qed.

(** C9, as amended: a completion (non-zero correlation identifier) whose
    header was read in full and names an identifier that [request_find] does
    not resolve fails and leaves the connection as it was: with -ENOENT when
    the header is well formed (length equal to the bytes written, status in
    -999..0), and with -EINVAL when it is not. *)
Theorem fuse_dev_do_write_unknown fc cpu iter bytes iter' :
  sizeof_fuse_out_header cfg <= count iter ->
  copy_from_iter (sizeof_fuse_out_header cfg) iter
    = (bytes, sizeof_fuse_out_header cfg, iter') ->
  oh_unique (decode_out_header cfg bytes) <> 0 ->
  request_find cfg fc (oh_unique (decode_out_header cfg bytes)) = Ret None ->
  fuse_dev_do_write cfg fc cpu iter
  = Ret {| wr_fc := fc; wr_iter := iter'; wr_sent := [];
           wr_ret :=
             let oh := decode_out_header cfg bytes in
             if (oh_len oh =? count iter) && (-1000 <? oh_error oh)
                && (oh_error oh <=? 0)
             then - ENOENT else - EINVAL |}.
Proof.
  intros Hlen Hcopy Hu Hfind. unfold fuse_dev_do_write.
  destruct (Z.ltb_spec (count iter) (sizeof_fuse_out_header cfg)); [lia |].
  rewrite Hcopy, Z.eqb_refl. cbn.
  set (oh := decode_out_header cfg bytes) in *.
  destruct (Z.eqb_spec (oh_len oh) (count iter)); cbn; [| done].
  destruct (Z.eqb_spec (oh_unique oh) 0); [done |].
  destruct (Z.leb_spec (oh_error oh) (-1000)); cbn.
  { destruct (Z.ltb_spec (-1000) (oh_error oh)); [lia | done]. }
  destruct (Z.ltb_spec (-1000) (oh_error oh)); [| lia]. cbn.
  destruct (Z.gtb_spec (oh_error oh) 0);
    destruct (Z.leb_spec (oh_error oh) 0); try lia; [done |].
  by rewrite Hfind.
Qed.

Lemma slots_bounded (l : list Z) :
  NoDup (slot_of cfg <$> l) -> Z.of_nat (length l) <= MAX_IDS.
Proof.
  intros Hnd.
  assert (Hmax : 0 < MAX_IDS) by apply Hcfg.
  assert (Hsub : (slot_of cfg <$> l) ⊆+ seqZ 0 MAX_IDS).
  { apply NoDup_submseteq; [done |]. intros x Hx.
    apply list_elem_of_fmap in Hx as (u & -> & _).
    apply elem_of_seqZ. pose proof (slot_of_range u). lia. }
  apply submseteq_length in Hsub.
  rewrite length_fmap, length_seqZ in Hsub. lia.
Qed.

Lemma conn_inv_room fc :
  conn_inv cfg fc ->
  Z.of_nat (length (free_pool fc) + length (registered fc)) <= MAX_IDS.
Proof.
  intros (_ & _ & Hnd). apply slots_bounded in Hnd.
  by rewrite length_app, length_fmap in Hnd.
Qed.

(** ** Submission and finalization *)

Lemma pool_length_bound fc cpu c :
  alloc_shape cfg fc -> per_cpu_ids fc !! cpu = Some c ->
  num_free_ids fc + pc_num_free_ids c <= Z.of_nat (length (free_pool fc)).
Proof.
  intros (Hlen & Hnum & Hcpus & _) Hc.
  pose proof (Forall_lookup_1 _ _ _ _ Hcpus Hc) as [Hcn Hcl].
  destruct (pool_split _ _ _ Hc) as (A & B & Hsplit & _).
  unfold free_pool. rewrite Hsplit, !length_app. unfold cpu_pool.
  rewrite !length_take. lia.
Qed.

Lemma len_args_from_ok budget i numargs args nbytes :
  0 <= i -> i + Z.of_nat budget = numargs ->
  numargs <= Z.of_nat (length args) ->
  exists n, len_args_from budget i numargs args nbytes = Ret n.
Proof.
  revert i nbytes. induction budget as [| b IH]; intros i nbytes Hi Hsum Hle.
  - cbn. destruct (Z.ltb_spec i numargs); [lia | eauto].
  - cbn. destruct (Z.ltb_spec i numargs); [| lia].
    unfold array_get. rewrite decide_True by lia.
    destruct (lookup_lt_is_Some_2 args (Z.to_nat i)) as [size Hsize]; [lia |].
    rewrite Hsize. cbn. apply IH; lia.
Qed.

Lemma len_args_ok numargs args :
  0 <= numargs <= Z.of_nat (length args) ->
  exists n, len_args numargs args = Ret n.
Proof. intros. apply len_args_from_ok; lia. Qed.

(** What [request_end] does to a connection whose allocator has room. *)
Lemma request_end_ok fc cpu req r c :
  alloc_shape cfg fc -> mem fc !! req = Some r ->
  per_cpu_ids fc !! cpu = Some c ->
  Z.of_nat (length (free_pool fc)) < MAX_IDS ->
  exists fc', request_end cfg fc cpu req = Ret fc' /\
    alloc_shape cfg fc' /\
    free_pool fc' ≡ₚ ih_unique (in_h r) :: free_pool fc /\
    request_map fc'
      = <[Z.to_nat (slot_of cfg (ih_unique (in_h r))) := None]> (request_map fc) /\
    log fc' = log fc ++ EvEnd req (oh_error (out_h r)) (end_ r)
                :: (if PX_BLKMQ cfg then [] else [EvFree req]) /\
    mem fc' = (if PX_BLKMQ cfg then mem fc else delete req (mem fc)) /\
    connected fc' = connected fc /\
    allow_disconnected fc' = allow_disconnected fc /\
    queue fc' = queue fc /\
    length (per_cpu_ids fc') = length (per_cpu_ids fc).
Proof.
  intros Hs Hreq Hc Hroom.
  assert (Hpc : 2 <= PER_CPU < 2 ^ 31) by apply Hcfg.
  assert (Hhalf : PER_CPU / 2 <= PER_CPU) by (apply Z.div_le_upper_bound; lia).
  pose proof (pool_length_bound fc cpu c Hs Hc) as Hbound.
  unfold request_end, deref. rewrite Hreq. cbn.
  set (fc1 := emit _ fc).
  destruct (fuse_put_unique_ok fc1 cpu c (ih_unique (in_h r)))
    as (fc2 & Hput & Hs2 & Hperm & Hmap & Hc2 & Ha2 & Hq2 & Hm2 & Hl2 & Hn2);
    [done | done | cbn; lia |].
  rewrite Hput. cbn. eexists. split; [reflexivity |].
  destruct (PX_BLKMQ cfg); cbn;
    repeat split; try done; try apply Hs2.
  - rewrite Hl2. cbn. by rewrite <- app_assoc.
  - by rewrite Hm2.
Qed.

(** C8: a submission on a channel that is not connected and does not allow
    disconnected submission returns with the request finalized:
    [request_end] ran on it with out.h.error = -ENOTCONN (calling req->end
    when it is set), the identifier it was given is back among the free
    ones and its slot is empty, and the ring queue is what it was. *)
Theorem fuse_request_send_nowait_not_connected fc cpu cpu' req r c :
  connected fc = false -> allow_disconnected fc = false ->
  conn_inv cfg fc ->
  per_cpu_ids fc !! cpu = Some c ->
  (pc_num_free_ids c = 0 -> 0 < num_free_ids fc) ->
  (cpu' < length (per_cpu_ids fc))%nat ->
  mem fc !! req = Some r ->
  0 <= in_numargs r <= Z.of_nat (length (in_args r)) ->
  exists fc' fc1 uid,
    fuse_request_send_nowait cfg fc cpu cpu' req = Ret fc' /\
    fuse_get_unique cfg fc cpu = Ret (fc1, uid) /\
    queue fc' = queue fc /\
    log fc' = log fc ++ EvEnd req (- ENOTCONN) (end_ r)
                :: (if PX_BLKMQ cfg then [] else [EvFree req]) /\
    uid ∈ free_pool fc' /\
    length (free_pool fc') = length (free_pool fc) /\
    request_map fc' !! Z.to_nat (slot_of cfg uid) = Some None.
Proof.
  intros Hconn Hallow Hinv Hc Havail Hcpu' Hreq Hargs.
  pose proof (conn_inv_room fc Hinv) as Hroom.
  destruct Hinv as (Hs & _).
  destruct (len_args_ok _ _ Hargs) as [n Hn].
  destruct (fuse_get_unique_ok fc cpu c Hs Hc Havail)
    as (fc1 & v & Hget & Hs1 & Hperm & Hmap1 & Hc1 & Ha1 & Hq1 & Hm1 & Hl1 & Hn1).
  pose proof (slot_of_range (next_unique cfg v)) as Hslot.
  unfold fuse_request_send_nowait, deref. rewrite Hreq. cbn.
  rewrite Hn. cbn. rewrite Hget. cbn.
  unfold array_set. rewrite decide_True by (destruct Hs1 as (_ & _ & _ & ?); lia).
  cbn. rewrite Hc1, Ha1, Hconn, Hallow. cbn.
  set (r2 := set_out_error _ _).
  set (fcx := store req r2 _).
  destruct (lookup_lt_is_Some_2 (per_cpu_ids fcx) cpu') as [c' Hc'].
  { cbn. lia. }
  destruct (request_end_ok fcx cpu' req r2 c')
    as (fc' & Hend & Hs' & Hperm' & Hmap' & Hlog' & _ & _ & _ & Hq' & _).
  - destruct Hs1 as (? & ? & ? & ?). repeat split; cbn; try done; try lia.
    rewrite length_insert. lia.
  - cbn. apply lookup_insert_eq.
  - done.
  - change (free_pool fcx) with (free_pool fc1).
    apply Permutation_length in Hperm. cbn in Hperm. lia.
  - exists fc', fc1, (next_unique cfg v).
    change (free_pool fcx) with (free_pool fc1) in Hperm'.
    repeat split; try done.
    + by rewrite Hq'.
    + rewrite Hlog'. cbn. by rewrite Hl1.
    + rewrite Hperm'. cbn. apply list_elem_of_here.
    + apply Permutation_length in Hperm, Hperm'. cbn in *. lia.
    + rewrite Hmap'. cbn. apply list_lookup_insert_eq.
      rewrite length_insert. destruct Hs1 as (_ & _ & _ & ?). lia.
Qed.

(** ** Refill and flush *)

(** C6, as amended: an acquire on a CPU whose cache is empty moves
    min(what the global pool holds, FUSE_MAX_PER_CPU_IDS / 2) identifiers,
    the topmost of the global pool, into the cache and pops one of them;
    a release on a CPU whose cache is full moves the topmost
    FUSE_MAX_PER_CPU_IDS / 2 identifiers of the cache onto the global pool
    and then stores the released identifier on top of what the cache
    keeps. *)
Theorem refill_and_flush_amounts fc1 cpu1 c1 fc2 cpu2 c2 uid :
  alloc_shape cfg fc1 -> per_cpu_ids fc1 !! cpu1 = Some c1 ->
  pc_num_free_ids c1 = 0 -> 0 < num_free_ids fc1 ->
  alloc_shape cfg fc2 -> per_cpu_ids fc2 !! cpu2 = Some c2 ->
  pc_num_free_ids c2 = PER_CPU ->
  num_free_ids fc2 + PER_CPU / 2 <= MAX_IDS ->
  (exists fc1' c1' v,
     let n := Z.min (num_free_ids fc1) (PER_CPU / 2) in
     fuse_get_unique cfg fc1 cpu1 = Ret (fc1', next_unique cfg v) /\
     num_free_ids fc1' = num_free_ids fc1 - n /\
     per_cpu_ids fc1' !! cpu1 = Some c1' /\
     pc_num_free_ids c1' = n - 1 /\
     cpu_pool c1' ++ [v]
     = take (Z.to_nat n) (drop (Z.to_nat (num_free_ids fc1 - n)) (free_ids fc1)))
  /\
  (exists fc2' c2',
     let h := PER_CPU / 2 in
     fuse_put_unique cfg fc2 cpu2 uid = Ret fc2' /\
     num_free_ids fc2' = num_free_ids fc2 + h /\
     take (Z.to_nat (num_free_ids fc2')) (free_ids fc2')
     = take (Z.to_nat (num_free_ids fc2)) (free_ids fc2)
         ++ drop (Z.to_nat (PER_CPU - h)) (pc_free_ids c2) /\
     per_cpu_ids fc2' !! cpu2 = Some c2' /\
     pc_num_free_ids c2' = PER_CPU - h + 1 /\
     cpu_pool c2' = take (Z.to_nat (PER_CPU - h)) (pc_free_ids c2) ++ [uid]).
Proof.
  intros (Hlen1 & Hnum1 & Hcpus1 & Hmap1) Hc1 Hz Havail
         (Hlen2 & Hnum2 & Hcpus2 & Hmap2) Hc2 Hfull Hroom.
  assert (Hpc : 2 <= PER_CPU < 2 ^ 31) by apply Hcfg.
  assert (Hmax : 0 < MAX_IDS < 2 ^ 31) by apply Hcfg.
  assert (Hhalf : 1 <= PER_CPU / 2 <= PER_CPU).
  { split; [apply Z.div_le_lower_bound | apply Z.div_le_upper_bound]; lia. }
  pose proof (Forall_lookup_1 _ _ _ _ Hcpus1 Hc1) as [Hcn1 Hcl1].
  pose proof (Forall_lookup_1 _ _ _ _ Hcpus2 Hc2) as [Hcn2 Hcl2].
  pose proof (slot_of_range uid) as Hslot.
  split.
  - unfold fuse_get_unique, per_cpu_ptr. rewrite Hc1. cbn.
    rewrite Hz. cbn.
    destruct (Z.eqb_spec (num_free_ids fc1) 0) as [? | _]; [lia |].
    rewrite (u32_small PER_CPU) by lia.
    set (n := Z.min (num_free_ids fc1) (PER_CPU / 2)).
    assert (Hn : 0 < n <= PER_CPU) by (unfold n; lia).
    assert (Hn' : n <= num_free_ids fc1) by (unfold n; lia).
    unfold memcpy_ids. rewrite decide_True by lia. cbn.
    set (moved := take (Z.to_nat n)
                    (drop (Z.to_nat (num_free_ids fc1 - n)) (free_ids fc1))).
    assert (Hml : length moved = Z.to_nat n).
    { unfold moved. rewrite length_take, length_drop. lia. }
    set (ids := list_inserts (Z.to_nat 0) moved (pc_free_ids c1)).
    assert (Hids : take (Z.to_nat n) ids = moved).
    { unfold ids. rewrite <- (take_drop (Z.to_nat n) (pc_free_ids c1)).
      rewrite list_inserts_0_r by (rewrite length_take; lia).
      by apply take_app_length'. }
    assert (Hil : length ids = length (pc_free_ids c1))
      by apply length_inserts.
    rewrite (u32_small (n - 1)) by lia.
    destruct (take_pop ids n) as (v & Hv & Htake); [lia |].
    unfold array_get. rewrite decide_True by lia. rewrite Hv. cbn.
    eexists _, _, v. split; [reflexivity |].
    rewrite (u32_small (num_free_ids fc1 - n)) by lia. cbn.
    split; [done |]. split.
    { apply list_lookup_insert_eq. by eapply lookup_lt_Some. }
    split; [done |].
    unfold cpu_pool. cbn. by rewrite <- Htake.
  - unfold fuse_put_unique, per_cpu_ptr. rewrite Hc2. cbn.
    rewrite Hfull, Z.eqb_refl. set (h := PER_CPU / 2) in *.
    rewrite (u32_small (num_free_ids fc2 + h)) by lia.
    destruct (Z.gtb_spec (num_free_ids fc2 + h) MAX_IDS) as [? | _]; [lia |].
    unfold memcpy_ids. rewrite decide_True by lia. cbn.
    rewrite (u32_small (PER_CPU - h)) by lia.
    assert (Hmoved : take (Z.to_nat h)
                       (drop (Z.to_nat (PER_CPU - h)) (pc_free_ids c2))
                     = drop (Z.to_nat (PER_CPU - h)) (pc_free_ids c2)).
    { apply take_ge. rewrite length_drop. lia. }
    rewrite Hmoved.
    set (moved := drop (Z.to_nat (PER_CPU - h)) (pc_free_ids c2)).
    assert (Hml : length moved = Z.to_nat h).
    { unfold moved. rewrite length_drop. lia. }
    unfold array_set at 1. cbn. rewrite decide_True by lia. cbn.
    rewrite (u32_small (PER_CPU - h + 1)) by lia.
    unfold array_set. cbn. rewrite decide_True by lia. cbn.
    eexists _, _. split; [reflexivity |]. cbn.
    split; [done |]. split.
    { replace (Z.to_nat (num_free_ids fc2 + h))
        with (Z.to_nat (num_free_ids fc2) + length moved)%nat by lia.
      apply take_inserts_end. lia. }
    split.
    { apply list_lookup_insert_eq. by eapply lookup_lt_Some. }
    split; [done |].
    unfold cpu_pool. cbn.
    replace (Z.to_nat (PER_CPU - h + 1))
      with (S (Z.to_nat (PER_CPU - h))) by lia.
    apply take_push. lia.
Qed.

(** ** Forced abort *)

Lemma omap_take_drop_S (l : list (option ptr)) (i n : nat) s :
  l !! i = Some s ->
  omap id (take (S n) (drop i l))
  = match s with Some req => [req] | None => [] end
      ++ omap id (take n (drop (S i) l)).
Proof.
  intros Hi. rewrite (drop_S _ _ _ Hi). cbn. by destruct s.
Qed.

Lemma later_slot_other fc (i n : nat) req q :
  (forall (j : nat) p, (i <= j)%nat -> request_map fc !! j = Some (Some p) ->
     exists r, mem fc !! p = Some r /\
       slot_of cfg (ih_unique (in_h r)) = Z.of_nat j) ->
  request_map fc !! i = Some (Some req) ->
  q ∈ omap id (take n (drop (S i) (request_map fc))) -> q <> req.
Proof.
  intros Htab Hi Hq ->.
  apply list_elem_of_omap in Hq as (s & Hs & Hid). cbn in Hid. subst s.
  apply list_elem_of_lookup in Hs as (k & Hk).
  apply lookup_take_Some in Hk as [Hk _]. rewrite lookup_drop in Hk.
  destruct (Htab i req) as (r & Hr & Hslot); [lia | done |].
  destruct (Htab (S i + k)%nat req) as (r' & Hr' & Hslot'); [lia | done |].
  rewrite Hr in Hr'. injection Hr' as <-. lia.
Qed.

(** [fuse_put_unique] and [request_end] under [fc->lock]: as without the
    lock while the cache of the CPU has room, and spinning on the lock when
    the cache is full. *)
Lemma fuse_put_unique_locked_room fc cpu c uid :
  per_cpu_ids fc !! cpu = Some c -> pc_num_free_ids c <> PER_CPU ->
  fuse_put_unique_locked cfg fc cpu uid = fuse_put_unique cfg fc cpu uid.
Proof.
  intros Hc Hroom. unfold fuse_put_unique_locked, fuse_put_unique, per_cpu_ptr.
  rewrite Hc. cbn [of_option mbind result_bind].
  by destruct (Z.eqb_spec (pc_num_free_ids c) PER_CPU).
Qed.

Lemma fuse_put_unique_locked_full fc cpu c uid :
  per_cpu_ids fc !! cpu = Some c -> pc_num_free_ids c = PER_CPU ->
  fuse_put_unique_locked cfg fc cpu uid = Spin.
Proof.
  intros Hc Hfull. unfold fuse_put_unique_locked, per_cpu_ptr.
  rewrite Hc. cbn [of_option mbind result_bind].
  by destruct (Z.eqb_spec (pc_num_free_ids c) PER_CPU).
Qed.

Lemma request_end_locked_room fc cpu req c :
  per_cpu_ids fc !! cpu = Some c -> pc_num_free_ids c <> PER_CPU ->
  request_end_locked cfg fc cpu req = request_end cfg fc cpu req.
Proof.
  intros Hc Hroom. unfold request_end_locked, request_end.
  destruct (deref fc req) as [r | | |]; cbn [mbind result_bind]; try done.
  by rewrite (fuse_put_unique_locked_room _ cpu c).
Qed.

Lemma request_end_locked_full fc cpu req r c :
  mem fc !! req = Some r ->
  per_cpu_ids fc !! cpu = Some c -> pc_num_free_ids c = PER_CPU ->
  request_end_locked cfg fc cpu req = Spin.
Proof.
  intros Hr Hc Hfull. unfold request_end_locked, deref. rewrite Hr.
  cbn [of_option mbind result_bind].
  by rewrite (fuse_put_unique_locked_full _ cpu c).
Qed.

(** A release that does not flush adds one identifier to the cache. *)
Lemma fuse_put_unique_cache fc cpu c uid fc' :
  per_cpu_ids fc !! cpu = Some c -> 0 <= pc_num_free_ids c < PER_CPU ->
  fuse_put_unique cfg fc cpu uid = Ret fc' ->
  exists c', per_cpu_ids fc' !! cpu = Some c' /\
    pc_num_free_ids c' = pc_num_free_ids c + 1.
Proof.
  intros Hc Hn. assert (Hpc : 2 <= PER_CPU < 2 ^ 31) by apply Hcfg.
  unfold fuse_put_unique, per_cpu_ptr. rewrite Hc.
  cbn [of_option mbind result_bind].
  destruct (Z.eqb_spec (pc_num_free_ids c) PER_CPU) as [? | _]; [lia |].
  cbn [mbind result_bind].
  destruct (array_set (pc_free_ids c) _ _) as [ids | | |];
    cbn [mbind result_bind]; try done.
  destruct (array_set _ _ _) as [map | | |]; cbn [mbind result_bind]; try done.
  intros [= <-]. eexists. split.
  - cbn. apply list_lookup_insert_eq. by eapply lookup_lt_Some.
  - cbn. apply u32_small. lia.
Qed.

Lemma request_end_cache fc cpu req c fc' :
  per_cpu_ids fc !! cpu = Some c -> 0 <= pc_num_free_ids c < PER_CPU ->
  request_end cfg fc cpu req = Ret fc' ->
  exists c', per_cpu_ids fc' !! cpu = Some c' /\
    pc_num_free_ids c' = pc_num_free_ids c + 1.
Proof.
  intros Hc Hn. unfold request_end.
  destruct (deref fc req) as [r | | |]; cbn [mbind result_bind]; try done.
  destruct (fuse_put_unique _ _ _ _) as [fc1 | | |] eqn:Hput;
    cbn [mbind result_bind]; try done.
  intros [= <-].
  destruct (fuse_put_unique_cache (emit (EvEnd req (oh_error (out_h r)) (end_ r)) fc)
              cpu c _ _ Hc Hn Hput) as (c' & Hc' & Hn').
  exists c'. split; [| done]. by destruct (PX_BLKMQ cfg).
Qed.

(** The loop of [end_queued_requests], run with [fc->lock] held on CPU
    [cpu]: it runs to its end when the cache of the CPU has room for the
    identifiers of the requests it finds, and it never returns when it has
    not, the release that finds the cache full spinning on the lock. *)
Lemma end_queued_requests_from_ok cpu n : forall (i : nat) fc c,
  alloc_shape cfg fc ->
  per_cpu_ids fc !! cpu = Some c ->
  (forall (j : nat) p, (i <= j)%nat -> request_map fc !! j = Some (Some p) ->
     exists r, mem fc !! p = Some r /\
       slot_of cfg (ih_unique (in_h r)) = Z.of_nat j) ->
  (i + n <= length (request_map fc))%nat ->
  Z.of_nat (length (free_pool fc)
            + length (omap id (take n (drop i (request_map fc))))) <= MAX_IDS ->
  (PER_CPU < pc_num_free_ids c
             + Z.of_nat (length (omap id (take n (drop i (request_map fc))))) ->
   end_queued_requests_from cfg n (Z.of_nat i) fc cpu = Spin) /\
  (pc_num_free_ids c
   + Z.of_nat (length (omap id (take n (drop i (request_map fc))))) <= PER_CPU ->
  exists fc', end_queued_requests_from cfg n (Z.of_nat i) fc cpu = Ret fc' /\
    alloc_shape cfg fc' /\
    request_map fc' = take i (request_map fc) ++ replicate n None
                        ++ drop (i + n) (request_map fc) /\
    NoDup (omap id (take n (drop i (request_map fc)))) /\
    log fc' = log fc ++ concat (finalization cfg (mem fc) (- ECONNABORTED)
                                  <$> omap id (take n (drop i (request_map fc)))) /\
    free_pool fc' ≡ₚ (unique_at (mem fc)
                        <$> omap id (take n (drop i (request_map fc))))
                      ++ free_pool fc /\
    (forall p, p ∉ omap id (take n (drop i (request_map fc))) ->
       mem fc' !! p = mem fc !! p) /\
    connected fc' = connected fc /\
    allow_disconnected fc' = allow_disconnected fc /\
    queue fc' = queue fc /\
    length (per_cpu_ids fc') = length (per_cpu_ids fc)).
Proof.
  induction n as [| n IH]; intros i fc c Hs Hc Htab Hlen Hcount.
  { split.
    { intros Hover. rewrite take_0 in Hover.
      change (omap id []) with (@nil ptr) in Hover. cbn [length] in Hover.
      destruct Hs as (_ & _ & Hcpus & _).
      pose proof (Forall_lookup_1 _ _ _ _ Hcpus Hc) as [Hcn _]. lia. }
    intros _. exists fc. cbn. rewrite Nat.add_0_r, take_drop, app_nil_r.
    do 3 (split; [done |]). split; [apply NoDup_nil_2 |].
    repeat split; done. }
  assert (Hcn : 0 <= pc_num_free_ids c <= PER_CPU).
  { destruct Hs as (_ & _ & Hcpus & _).
    by pose proof (Forall_lookup_1 _ _ _ _ Hcpus Hc) as [? _]. }
  assert (Hcpu : (cpu < length (per_cpu_ids fc))%nat)
    by (by eapply lookup_lt_Some).
  destruct (lookup_lt_is_Some_2 (request_map fc) i) as [s Hslot]; [lia |].
  rewrite (omap_take_drop_S _ _ _ _ Hslot) in *.
  cbn [end_queued_requests_from]. unfold array_get.
  rewrite decide_True by lia. rewrite Nat2Z.id, Hslot. cbn [of_option mbind result_bind].
  replace (Z.of_nat i + 1) with (Z.of_nat (S i)) by lia.
  assert (Hrest : take (S i) (request_map fc) = take i (request_map fc) ++ [s])
    by (by apply take_S_r).
  destruct s as [req |].
  - destruct (Htab i req) as (r & Hr & Hri); [lia | done |].
    unfold deref. rewrite Hr. cbn [of_option mbind result_bind].
    set (r' := set_out_error (- ECONNABORTED) r).
    set (fc1 := store req r' fc).
    destruct (Z.eq_dec (pc_num_free_ids c) PER_CPU) as [Hfull | Hnotfull].
    { split; [| rewrite length_app; cbn [length]; lia].
      intros _.
      rewrite (request_end_locked_full fc1 cpu req r' c); try done.
      cbn. apply lookup_insert_eq. }
    rewrite (request_end_locked_room fc1 cpu req c) by done.
    destruct (request_end_ok fc1 cpu req r' c)
      as (fc2 & Hend & Hs2 & Hperm2 & Hmap2 & Hlog2 & Hmem2 & Hc2 & Ha2 & Hq2 & Hn2).
    { done. }
    { cbn. apply lookup_insert_eq. }
    { done. }
    { change (free_pool fc1) with (free_pool fc).
      rewrite length_app in Hcount. cbn in Hcount. lia. }
    destruct (request_end_cache fc1 cpu req c fc2) as (c2 & Hcpu2 & Hcount2);
      [done | lia | done |].
    rewrite Hend. cbn [mbind result_bind].
    change (ih_unique (in_h r')) with (ih_unique (in_h r)) in *.
    rewrite Hri, Nat2Z.id in Hmap2.
    change (request_map fc1) with (request_map fc) in Hmap2.
    assert (Hdrop : forall k, drop (S i + k) (request_map fc2)
                              = drop (S i + k) (request_map fc)).
    { intros k. rewrite Hmap2. apply list_eq. intros j.
      rewrite !lookup_drop. apply list_lookup_insert_ne. lia. }
    pose proof (Hdrop 0%nat) as Hdrop0. rewrite Nat.add_0_r in Hdrop0.
    assert (Hother : forall q,
              q ∈ omap id (take n (drop (S i) (request_map fc))) -> q <> req).
    { intros q Hq. by eapply later_slot_other. }
    assert (Hmemq : forall q, q <> req -> mem fc2 !! q = mem fc !! q).
    { intros q Hq. rewrite Hmem2. subst fc1. cbn.
      destruct (PX_BLKMQ cfg);
        rewrite ?lookup_delete_ne by done; by rewrite lookup_insert_ne. }
    destruct (IH (S i) fc2 c2) as [Hspin Hok].
    { done. }
    { done. }
    { intros j p Hj Hp. rewrite Hmap2 in Hp.
      rewrite list_lookup_insert_ne in Hp by lia.
      destruct (Htab j p) as (rp & Hrp & Hsp); [lia | done |].
      exists rp. split; [| done]. rewrite Hmemq; [done |].
      intros ->. rewrite Hr in Hrp. injection Hrp as <-. lia. }
    { rewrite Hmap2, length_insert. lia. }
    { rewrite Hdrop0. apply Permutation_length in Hperm2.
      change (free_pool fc1) with (free_pool fc) in Hperm2.
      rewrite length_app in Hcount. cbn in *. lia. }
    rewrite Hdrop0 in *.
    split.
    { intros Hover. apply Hspin.
      rewrite length_app in Hover. cbn [length] in Hover. lia. }
    intros Hroom.
    destruct Hok
      as (fc' & Hrun & Hs' & Hmap' & Hnd' & Hlog' & Hperm' & Hmem' & Hc' & Ha' & Hq' & Hn').
    { rewrite length_app in Hroom. cbn [length] in Hroom. lia. }
    exists fc'. split; [done |]. split; [done |].
    assert (Hfin : finalization cfg (mem fc2) (- ECONNABORTED)
                     <$> omap id (take n (drop (S i) (request_map fc)))
                   = finalization cfg (mem fc) (- ECONNABORTED)
                     <$> omap id (take n (drop (S i) (request_map fc)))).
    { apply Forall_fmap_ext_1, Forall_forall. intros q Hq.
      unfold finalization. by rewrite Hmemq by auto. }
    assert (Huniq : unique_at (mem fc2)
                      <$> omap id (take n (drop (S i) (request_map fc)))
                    = unique_at (mem fc)
                      <$> omap id (take n (drop (S i) (request_map fc)))).
    { apply Forall_fmap_ext_1, Forall_forall. intros q Hq.
      unfold unique_at. by rewrite Hmemq by auto. }
    repeat split.
    + rewrite Hmap'. rewrite (Hdrop n).
      replace (i + S n)%nat with (S i + n)%nat by lia.
      assert (Ht : take (S i) (request_map fc2)
                   = take i (request_map fc) ++ [None]).
      { rewrite Hmap2. rewrite (take_S_r _ _ None).
        - by rewrite take_insert_ge by lia.
        - apply list_lookup_insert_eq. lia. }
      rewrite Ht. cbn. by rewrite <- app_assoc.
    + cbn. apply NoDup_cons. split; [| done].
      intros Hin. by apply (Hother req).
    + rewrite Hlog', Hlog2, Hfin. cbn.
      unfold finalization at 2. rewrite Hr.
      by rewrite <- !app_assoc.
    + rewrite Hperm', Hperm2, Huniq. cbn.
      unfold unique_at at 2. rewrite Hr.
      change (free_pool fc1) with (free_pool fc). solve_Permutation.
    + intros p Hp. cbn in Hp. apply not_elem_of_cons in Hp as [Hne Hp].
      rewrite Hmem' by done. by apply Hmemq.
    + by rewrite Hc', Hc2.
    + by rewrite Ha', Ha2.
    + by rewrite Hq', Hq2.
    + by rewrite Hn', Hn2.
  - cbn [mbind result_bind].
    destruct (IH (S i) fc c) as [Hspin Hok]; try done.
    { intros j p Hj. apply Htab. lia. }
    { lia. }
    split; [exact Hspin |]. intros Hroom.
    destruct (Hok Hroom) as (fc' & Hrun & Hrest').
    exists fc'. split; [done |].
    destruct Hrest' as (Hs' & Hmap' & Hrest').
    split; [done |]. split; [| done].
    rewrite Hmap', Hrest.
    replace (i + S n)%nat with (S i + n)%nat by lia.
    cbn. by rewrite <- app_assoc.
Qed.

Lemma ends_of_app req l1 l2 :
  ends_of req (l1 ++ l2) = ends_of req l1 ++ ends_of req l2.
Proof. apply List.filter_app. Qed.

Lemma ends_of_other m error req q :
  q <> req -> ends_of req (finalization cfg m error q) = [].
Proof.
  intros Hne. unfold finalization.
  destruct (m !! q) as [r |]; [| done]. cbn.
  destruct (Nat.eqb_spec q req); [done |].
  by destruct (PX_BLKMQ cfg).
Qed.

Lemma ends_of_finalizations_absent m error (l : list ptr) req :
  req ∉ l -> ends_of req (concat (finalization cfg m error <$> l)) = [].
Proof.
  induction l as [| q l IH]; intros Hnin; [done |].
  apply not_elem_of_cons in Hnin as [Hne Hnin].
  rewrite fmap_cons. cbn [concat].
  rewrite ends_of_app, ends_of_other by done. by apply IH.
Qed.

Lemma ends_of_finalizations m error (l : list ptr) req r :
  NoDup l -> req ∈ l -> m !! req = Some r ->
  ends_of req (concat (finalization cfg m error <$> l))
  = [EvEnd req error (end_ r)].
Proof.
  induction l as [| q l IH]; intros Hnd Hin Hr.
  { by apply elem_of_nil in Hin. }
  apply NoDup_cons in Hnd as [Hq Hnd].
  rewrite fmap_cons. cbn [concat]. rewrite ends_of_app.
  destruct (decide (q = req)) as [-> | Hne].
  - rewrite ends_of_finalizations_absent by done.
    unfold finalization. rewrite Hr. cbn. rewrite Nat.eqb_refl.
    by destruct (PX_BLKMQ cfg).
  - rewrite ends_of_other by done. apply IH; [done | | done].
    apply elem_of_cons in Hin as [-> | Hin]; [done | done].
Qed.

(** With room in the cache of the calling CPU for the identifiers of all
    registered requests no release flushes, and [fuse_abort_conn] does what
    is expected of it: it returns with the channel disconnected and every
    slot NULL; for every request that was in the table, [request_end] ran
    exactly once, with out.h.error = -ECONNABORTED (calling req->end when
    it is set), and the free identifiers grew by exactly the identifiers
    of those requests, each once. *)
Lemma fuse_abort_conn_with_room fc cpu c :
  FUSE_REQUEST_QUEUE_SIZE cfg = MAX_IDS ->
  connected fc = true ->
  conn_inv cfg fc ->
  per_cpu_ids fc !! cpu = Some c ->
  pc_num_free_ids c + Z.of_nat (length (registered fc)) <= PER_CPU ->
  exists fc', fuse_abort_conn cfg fc cpu = Ret fc' /\
    connected fc' = false /\
    request_map fc' = replicate (length (request_map fc)) None /\
    NoDup (registered fc) /\
    (forall req, req ∈ registered fc ->
       exists r, mem fc !! req = Some r /\
         ends_of req (drop (length (log fc)) (log fc'))
         = [EvEnd req (- ECONNABORTED) (end_ r)]) /\
    free_pool fc' ≡ₚ (unique_at (mem fc) <$> registered fc) ++ free_pool fc.
Proof.
  intros Hsize Hconn Hinv Hc Hroom.
  pose proof (conn_inv_room fc Hinv) as Hcount.
  destruct Hinv as (Hs & Htab & _).
  assert (Hn : Z.to_nat QUEUE_SIZE = length (request_map fc)).
  { destruct Hs as (_ & _ & _ & ?). lia. }
  unfold fuse_abort_conn, end_queued_requests. rewrite Hconn, Hn.
  set (fc0 := set_connected false fc).
  destruct (end_queued_requests_from_ok cpu (length (request_map fc)) 0 fc0 c)
    as [_ Hok].
  { done. }
  { done. }
  { intros j p _ Hp. by apply Htab. }
  { cbn. lia. }
  { cbn. rewrite drop_0, take_ge by done. exact Hcount. }
  destruct Hok
    as (fc' & Hrun & Hs' & Hmap' & Hnd & Hlog' & Hperm' & Hmem' & Hc' & _).
  { cbn. rewrite drop_0, take_ge by done. exact Hroom. }
  change (Z.of_nat 0) with 0 in Hrun. rewrite Hrun.
  cbn [mbind result_bind].
  change (request_map fc0) with (request_map fc) in *.
  change (mem fc0) with (mem fc) in *.
  change (log fc0) with (log fc) in *.
  change (free_pool fc0) with (free_pool fc) in *.
  rewrite drop_0, take_ge in * by done.
  fold (registered fc) in *.
  eexists. split; [reflexivity |]. cbn.
  split; [done |]. split.
  { rewrite Hmap'. cbn. by rewrite drop_ge, app_nil_r by lia. }
  split; [done |]. split; [| done].
  intros req Hreq.
  assert (Hr : exists r, mem fc !! req = Some r).
  { unfold registered in Hreq.
    apply list_elem_of_omap in Hreq as (s & Hin & Hid). cbn in Hid. subst s.
    apply list_elem_of_lookup in Hin as (i & Hi).
    destruct (Htab i req Hi) as (r & Hr & _). eauto. }
  destruct Hr as [r Hr]. exists r. split; [done |].
  rewrite Hlog', <- app_assoc, drop_app_length.
  rewrite ends_of_app.
  by rewrite (ends_of_finalizations _ _ _ req r) by done.
Qed.

(** C2 fails on the code: [fuse_abort_conn] takes [fc->lock] and keeps it
    while [end_queued_requests] finalizes the requests, and the release
    of an identifier into a full CPU cache takes the same lock for its
    flush.  On a connected channel that satisfies the invariant, whenever
    the requests in the slot table are more than the cache of the calling
    CPU has room for, the call never returns: the release that finds the
    cache full spins on the lock, the identifier of its request is not
    reclaimed, and the requests after it are not finalized and stay in
    their slots. *)
Theorem fuse_abort_conn_deadlock fc cpu c :
  FUSE_REQUEST_QUEUE_SIZE cfg = MAX_IDS ->
  connected fc = true ->
  conn_inv cfg fc ->
  per_cpu_ids fc !! cpu = Some c ->
  PER_CPU < pc_num_free_ids c + Z.of_nat (length (registered fc)) ->
  fuse_abort_conn cfg fc cpu = Spin.
Proof.
  intros Hsize Hconn Hinv Hc Hover.
  pose proof (conn_inv_room fc Hinv) as Hcount.
  destruct Hinv as (Hs & Htab & _).
  assert (Hn : Z.to_nat QUEUE_SIZE = length (request_map fc)).
  { destruct Hs as (_ & _ & _ & ?). lia. }
  unfold fuse_abort_conn, end_queued_requests. rewrite Hconn, Hn.
  destruct (end_queued_requests_from_ok cpu (length (request_map fc)) 0
              (set_connected false fc) c)
    as [Hspin _].
  { done. }
  { done. }
  { intros j p _ Hp. by apply Htab. }
  { cbn. lia. }
  { cbn. rewrite drop_0, take_ge by done. exact Hcount. }
  change (Z.of_nat 0) with 0 in Hspin. rewrite Hspin; [done |].
  cbn. rewrite drop_0, take_ge by done. exact Hover.
Qed.

(** ** The ring *)

Lemma queue_divides_word : (QUEUE_SIZE | 2 ^ 32).
Proof.
  destruct Hcfg as [_ _ Hp [Hpos Hlt] _ _].
  assert (Hl : 0 <= Z.log2 QUEUE_SIZE <= 32).
  { split; [apply Z.log2_nonneg |].
    assert (Z.log2 QUEUE_SIZE < 31); [| lia].
    apply Z.log2_lt_pow2; lia. }
  exists (2 ^ (32 - Z.log2 QUEUE_SIZE)).
  rewrite Hp at 2. rewrite <- Z.pow_add_r by lia. f_equal. lia.
Qed.

Lemma ring_index_mod x : ring_index cfg x = x mod QUEUE_SIZE.
Proof.
  unfold ring_index. rewrite land_pow2_mod by apply Hcfg.
  unfold u32. apply Z.mod_mod_divide, queue_divides_word.
Qed.

Lemma mod_pred d n :
  0 < n -> 0 <= d < n -> (d - 1) mod n = if d =? 0 then n - 1 else d - 1.
Proof.
  intros Hn Hd. destruct (Z.eqb_spec d 0) as [-> | Hne].
  - replace (0 - 1) with (-1 + 1 * n - n + 0) by lia.
    replace (-1 + 1 * n - n + 0) with ((n - 1) + (-1) * n) by lia.
    rewrite Z.mod_add by lia. apply Z.mod_small. lia.
  - apply Z.mod_small. lia.
Qed.

Lemma put_back_ok resend : forall (i : nat) read reqs,
  (i <= length resend)%nat -> Z.of_nat i < QUEUE_SIZE ->
  0 <= read < QUEUE_SIZE ->
  Z.of_nat (length reqs) = QUEUE_SIZE ->
  exists reqs',
    put_back cfg i resend read reqs
    = Ret ((read - Z.of_nat i) mod QUEUE_SIZE, reqs') /\
    length reqs' = length reqs /\
    forall x, 0 <= x < QUEUE_SIZE ->
      reqs' !! Z.to_nat x
      = if decide (1 <= (read - x) mod QUEUE_SIZE <= Z.of_nat i)
        then Some (resend !! (i - Z.to_nat ((read - x) mod QUEUE_SIZE))%nat)
        else reqs !! Z.to_nat x.
Proof.
  assert (Hq : 0 < QUEUE_SIZE) by apply Hcfg.
  induction i as [| i IH]; intros read reqs Hi Hlt Hread Hlen.
  { exists reqs. cbn. rewrite Z.sub_0_r, Z.mod_small by lia.
    do 2 (split; [done |]).
    intros x Hx. rewrite decide_False; [done | lia]. }
  cbn [put_back]. rewrite ring_index_mod.
  set (read1 := (read - 1) mod QUEUE_SIZE).
  assert (Hread1 : 0 <= read1 < QUEUE_SIZE) by (apply Z.mod_pos_bound; lia).
  destruct (lookup_lt_is_Some_2 resend i) as [p Hp]; [lia |].
  rewrite Hp. cbn [of_option mbind result_bind].
  unfold array_set. rewrite decide_True by lia. cbn [mbind result_bind].
  destruct (IH read1 (<[Z.to_nat read1 := Some p]> reqs))
    as (reqs' & Hrun & Hlen' & Hat); [lia | lia | done | |].
  { rewrite length_insert. lia. }
  exists reqs'. split.
  { rewrite Hrun. do 2 f_equal. unfold read1.
    rewrite Zminus_mod_idemp_l. f_equal. lia. }
  split; [by rewrite Hlen', length_insert |].
  intros x Hx. rewrite (Hat x Hx).
  assert (Hd : (read1 - x) mod QUEUE_SIZE
               = ((read - x) mod QUEUE_SIZE - 1) mod QUEUE_SIZE).
  { unfold read1. rewrite Zminus_mod_idemp_l.
    rewrite Zminus_mod_idemp_l. f_equal. lia. }
  rewrite Hd.
  set (d := (read - x) mod QUEUE_SIZE).
  assert (Hdr : 0 <= d < QUEUE_SIZE) by (apply Z.mod_pos_bound; lia).
  rewrite (mod_pred d) by lia.
  destruct (Z.eqb_spec d 0) as [Hd0 | Hd0].
  - rewrite !decide_False by lia.
    apply list_lookup_insert_ne. intros Heq.
    assert (x = read1) by lia. subst x.
    unfold d, read1 in Hd0. rewrite Zminus_mod_idemp_r in Hd0.
    replace (read - (read - 1)) with 1 in Hd0 by lia.
    destruct (decide (QUEUE_SIZE = 1)) as [H1 | H1]; [lia |].
    rewrite Z.mod_small in Hd0 by lia. lia.
  - destruct (decide (d = 1)) as [Hd1 | Hd1].
    + rewrite decide_False by lia. rewrite decide_True by lia.
      assert (x = read1).
      { unfold d in Hd1. unfold read1.
        assert (Hx' : x = x mod QUEUE_SIZE) by (by rewrite Z.mod_small).
        rewrite Hx'. rewrite <- Hd1 at 1.
        rewrite Zminus_mod_idemp_r. f_equal. lia. }
      subst x. rewrite list_lookup_insert_eq by lia.
      f_equal. rewrite <- Hp. f_equal. lia.
    + destruct (decide (1 <= d <= Z.of_nat (S i))) as [Hin | Hout].
      * rewrite decide_True by lia. do 2 f_equal. lia.
      * rewrite decide_False by lia.
        apply list_lookup_insert_ne. intros Heq.
        assert (x = read1) by lia. subst x.
        unfold d, read1 in Hd1. rewrite Zminus_mod_idemp_r in Hd1.
        replace (read - (read - 1)) with 1 in Hd1 by lia.
        destruct (decide (QUEUE_SIZE = 1)) as [H1 | H1]; [lia |].
        rewrite Z.mod_small in Hd1 by lia. lia.
Qed.

(** ** Replay *)

Lemma reqs_le_seq m a b : reqs_le m a b <-> seq_le m a b.
Proof.
  unfold reqs_le, compare_reqs, seq_le.
  destruct (Z.ltb_spec (sequence_at m a) (sequence_at m b));
    destruct (Z.gtb_spec (sequence_at m a) (sequence_at m b)); lia.
Qed.

Global Instance reqs_le_total m : Total (reqs_le m).
Proof. intros a b. rewrite !reqs_le_seq. unfold seq_le. lia. Qed.

Global Instance reqs_le_trans m : Transitive (reqs_le m).
Proof. intros a b c. rewrite !reqs_le_seq. unfold seq_le. lia. Qed.

Lemma StronglySorted_weaken {A} (R1 R2 : relation A) l :
  (forall a b, R1 a b -> R2 a b) ->
  StronglySorted R1 l -> StronglySorted R2 l.
Proof.
  intros Himp. induction 1 as [| a l Hl IH Ha]; constructor; [done |].
  eapply Forall_impl; eauto.
Qed.

Lemma sorted_by_compare m l :
  StronglySorted (seq_le m) (merge_sort (reqs_le m) l).
Proof.
  eapply StronglySorted_weaken; [| apply StronglySorted_merge_sort; apply _].
  intros a b. apply reqs_le_seq.
Qed.

Lemma collect_resend_ok fc seq_ n : forall (i : nat) acc,
  (i + n <= length (request_map fc))%nat ->
  (forall (j : nat) req, request_map fc !! j = Some (Some req) ->
     is_Some (mem fc !! req)) ->
  collect_resend n (Z.of_nat i) fc seq_ acc
  = Ret (acc ++ filter (fun req => sequence_at (mem fc) req < seq_)
                  (omap id (take n (drop i (request_map fc))))).
Proof.
  induction n as [| n IH]; intros i acc Hlen Hmem.
  { cbn. by rewrite app_nil_r. }
  destruct (lookup_lt_is_Some_2 (request_map fc) i) as [s Hslot]; [lia |].
  rewrite (omap_take_drop_S _ _ _ _ Hslot).
  cbn [collect_resend]. unfold array_get.
  rewrite decide_True by lia. rewrite Nat2Z.id, Hslot.
  cbn [of_option mbind result_bind].
  replace (Z.of_nat i + 1) with (Z.of_nat (S i)) by lia.
  destruct s as [req |]; [| by apply IH; [lia | done]].
  destruct (Hmem i req Hslot) as [r Hr].
  unfold deref. rewrite Hr. cbn [of_option mbind result_bind].
  rewrite IH by (done || lia). f_equal. rewrite filter_app.
  assert (Hseq : sequence_at (mem fc) req = sequence r).
  { unfold sequence_at. by rewrite Hr. }
  destruct (Z.ltb_spec (sequence r) seq_).
  - rewrite filter_cons_True by lia. by rewrite <- app_assoc.
  - rewrite filter_cons_False by lia. by rewrite filter_nil.
Qed.

Lemma pending_queue_lookup q (k : nat) :
  pending_queue cfg q !! k
  = if decide (Z.of_nat k < pending_count cfg q)
    then Some (ring_at cfg q (r_read q + Z.of_nat k)) else None.
Proof.
  unfold pending_queue. rewrite list_lookup_fmap.
  destruct (decide (Z.of_nat k < pending_count cfg q)).
  - rewrite lookup_seq_lt by lia. done.
  - rewrite lookup_seq_ge by lia. done.
Qed.

Lemma pending_queue_length q :
  0 <= pending_count cfg q ->
  Z.of_nat (length (pending_queue cfg q)) = pending_count cfg q.
Proof. intros. unfold pending_queue. rewrite length_fmap, length_seq. lia. Qed.

Lemma pending_count_range q : 0 <= pending_count cfg q < QUEUE_SIZE.
Proof. unfold pending_count. apply Z.mod_pos_bound, Hcfg. Qed.

Lemma sorted_positions {A} (R : relation A) (l : list A) i j a b :
  StronglySorted R l -> l !! i = Some a -> l !! j = Some b ->
  (i < j)%nat -> R a b.
Proof.
  intros Hs Hi Hj Hlt.
  rewrite <- (take_drop_middle l i a Hi) in Hs.
  apply StronglySorted_app_1_r, StronglySorted_cons in Hs as [Hall _].
  rewrite Forall_forall in Hall. apply Hall.
  apply list_elem_of_lookup. exists (j - S i)%nat.
  rewrite lookup_drop. rewrite <- Hj. f_equal. lia.
Qed.

Lemma ring_at_lookup q x p :
  ring_at cfg q x = Some p ->
  requests q !! Z.to_nat (x mod QUEUE_SIZE) = Some (Some p).
Proof.
  unfold ring_at. destruct (requests q !! _) as [[p' |] |]; cbn; congruence.
Qed.

(** The boundary the code computes is [replay_boundary]. *)
Lemma boundary_computed fc queued :
  queue_shape cfg (queue fc) ->
  pending_queue cfg (queue fc) = Some <$> queued ->
  Forall (fun req => is_Some (mem fc !! req)) queued ->
  (if negb (r_read (queue fc) =? w_write (queue fc)) then
     slot ← array_get (requests (queue fc)) (r_read (queue fc));
     req ← of_option slot;
     r ← deref fc req;
     Ret (sequence r)
   else Ret (w_sequence (queue fc)))
  = Ret (replay_boundary cfg fc).
Proof.
  intros (Hr & Hw & Hlen) Hpend Hmem.
  assert (Hq : 0 < QUEUE_SIZE) by apply Hcfg.
  pose proof (pending_count_range (queue fc)) as Hcount.
  pose proof (pending_queue_length (queue fc) (proj1 Hcount)) as Hplen.
  unfold replay_boundary.
  destruct (Z.eqb_spec (r_read (queue fc)) (w_write (queue fc))) as [Heq | Hne].
  - cbn. assert (Hz : pending_count cfg (queue fc) = 0).
    { unfold pending_count. rewrite Heq, Z.sub_diag. apply Z.mod_0_l. lia. }
    rewrite Hz in Hplen. destruct (pending_queue cfg (queue fc)); [done |].
    cbn in Hplen. lia.
  - cbn. assert (Hnz : 0 < pending_count cfg (queue fc)).
    { unfold pending_count in *.
      destruct (decide (r_read (queue fc) < w_write (queue fc))).
      - rewrite Z.mod_small; lia.
      - replace (w_write (queue fc) - r_read (queue fc))
          with ((w_write (queue fc) - r_read (queue fc) + QUEUE_SIZE)
                + (-1) * QUEUE_SIZE) by lia.
        rewrite Z.mod_add by lia. rewrite Z.mod_small; lia. }
    pose proof (pending_queue_lookup (queue fc) 0) as H0.
    rewrite decide_True in H0 by lia. rewrite Hpend in H0 |- *.
    destruct queued as [| q0 queued]; [done |]. cbn in H0.
    injection H0 as H0. symmetry in H0. apply ring_at_lookup in H0.
    rewrite Z.add_0_r, Z.mod_small in H0 by lia.
    unfold array_get. rewrite decide_True by lia. rewrite H0.
    cbn [of_option mbind result_bind].
    apply Forall_cons in Hmem as [[r0 Hr0] _].
    unfold deref. rewrite Hr0. cbn. unfold sequence_at. by rewrite Hr0.
Qed.

(** The queue after the put-back loop: the resent requests, then what was
    queued. *)
Lemma pending_queue_put_back q (resend : list ptr) reqs' :
  queue_shape cfg q ->
  pending_count cfg q + Z.of_nat (length resend) < QUEUE_SIZE ->
  (forall x, 0 <= x < QUEUE_SIZE ->
     reqs' !! Z.to_nat x
     = if decide (1 <= (r_read q - x) mod QUEUE_SIZE <= Z.of_nat (length resend))
       then Some (resend !! (length resend
                             - Z.to_nat ((r_read q - x) mod QUEUE_SIZE))%nat)
       else requests q !! Z.to_nat x) ->
  let read' := (r_read q - Z.of_nat (length resend)) mod QUEUE_SIZE in
  pending_queue cfg (set_r_read read' (set_w_read read' (set_requests reqs' q)))
  = (Some <$> resend) ++ pending_queue cfg q.
Proof.
  intros (Hr & Hw & Hlen) Hroom Hat read'.
  assert (Hq : 0 < QUEUE_SIZE) by apply Hcfg.
  pose proof (pending_count_range q) as Hcount.
  set (m := length resend) in *.
  set (q' := set_r_read read' _).
  assert (Hcount' : pending_count cfg q' = pending_count cfg q + Z.of_nat m).
  { unfold pending_count, q', read'. cbn.
    rewrite Zminus_mod_idemp_r.
    replace (w_write q - (r_read q - Z.of_nat m))
      with ((w_write q - r_read q) + Z.of_nat m) by lia.
    rewrite <- Zplus_mod_idemp_l. apply Z.mod_small.
    unfold pending_count in *. lia. }
  apply list_eq. intros k.
  rewrite pending_queue_lookup, Hcount'.
  destruct (decide (k < m)%nat) as [Hkm | Hkm].
  - rewrite decide_True by lia.
    rewrite lookup_app_l by (rewrite length_fmap; lia).
    rewrite list_lookup_fmap.
    destruct (lookup_lt_is_Some_2 resend k) as [p Hp]; [done |].
    rewrite Hp. cbn. f_equal. unfold ring_at. cbn.
    set (x := (read' + Z.of_nat k) mod QUEUE_SIZE).
    assert (Hx : 0 <= x < QUEUE_SIZE) by (apply Z.mod_pos_bound; lia).
    assert (Hd : (r_read q - x) mod QUEUE_SIZE = Z.of_nat m - Z.of_nat k).
    { unfold x, read'. rewrite Zminus_mod_idemp_r.
      rewrite <- (Z.mod_small (Z.of_nat m - Z.of_nat k) QUEUE_SIZE) by lia.
      replace (r_read q
               - ((r_read q - Z.of_nat m) mod QUEUE_SIZE + Z.of_nat k))
        with ((r_read q - Z.of_nat k)
              - (r_read q - Z.of_nat m) mod QUEUE_SIZE) by lia.
      rewrite Zminus_mod_idemp_r. f_equal. lia. }
    rewrite (Hat x Hx), Hd. rewrite decide_True by lia.
    replace (m - Z.to_nat (Z.of_nat m - Z.of_nat k))%nat with k by lia.
    by rewrite Hp.
  - rewrite lookup_app_r by (rewrite length_fmap; lia).
    rewrite length_fmap. fold m. rewrite pending_queue_lookup.
    destruct (decide (Z.of_nat k < pending_count cfg q + Z.of_nat m)).
    + rewrite decide_True by lia. f_equal. unfold ring_at. cbn.
      set (x := (read' + Z.of_nat k) mod QUEUE_SIZE).
      assert (Hx : 0 <= x < QUEUE_SIZE) by (apply Z.mod_pos_bound; lia).
      assert (Hxe : x = (r_read q + Z.of_nat (k - m)) mod QUEUE_SIZE).
      { unfold x, read'. rewrite Zplus_mod_idemp_l. f_equal. lia. }
      assert (Hd : (r_read q - x) mod QUEUE_SIZE
                   = (Z.of_nat m - Z.of_nat k) mod QUEUE_SIZE).
      { rewrite Hxe, Zminus_mod_idemp_r. f_equal. lia. }
      rewrite (Hat x Hx), Hd.
      rewrite decide_False; [by rewrite Hxe |].
      destruct (decide (k = m)) as [-> | Hne].
      * rewrite Z.sub_diag, Z.mod_0_l by lia. lia.
      * replace (Z.of_nat m - Z.of_nat k)
          with ((Z.of_nat m - Z.of_nat k + QUEUE_SIZE) + (-1) * QUEUE_SIZE)
          by lia.
        rewrite Z.mod_add by lia. rewrite Z.mod_small; lia.
    + by rewrite decide_False by lia.
Qed.

(** Enqueueing onto a ring with a free slot appends to the queue. *)
Lemma queue_request_append fc req r :
  queue_shape cfg (queue fc) -> mem fc !! req = Some r ->
  pending_count cfg (queue fc) + 1 < QUEUE_SIZE ->
  exists fc', queue_request cfg fc req = Ret fc' /\
    pending_queue cfg (queue fc') = pending_queue cfg (queue fc) ++ [Some req] /\
    sequence_at (mem fc') req = w_sequence (queue fc) /\
    (forall p, p <> req -> mem fc' !! p = mem fc !! p).
Proof.
  intros (Hr & Hw & Hlen) Hreq Hroom.
  assert (Hq : 0 < QUEUE_SIZE) by apply Hcfg.
  pose proof (pending_count_range (queue fc)) as Hcount.
  set (q := queue fc) in *.
  set (next := (w_write q + 1) mod QUEUE_SIZE).
  assert (Hnext : 0 <= next < QUEUE_SIZE) by (apply Z.mod_pos_bound; lia).
  assert (Hfree : next <> r_read q).
  { intros Heq.
    assert (pending_count cfg q = QUEUE_SIZE - 1); [| lia].
    unfold pending_count. rewrite <- Heq. unfold next.
    rewrite Zminus_mod_idemp_r.
    replace (w_write q - (w_write q + 1))
      with ((QUEUE_SIZE - 1) + (-1) * QUEUE_SIZE) by lia.
    rewrite Z.mod_add by lia. apply Z.mod_small. lia. }
  assert (Hq1 : exists q1,
    (if w_read q =? next then
       let q0 := set_w_read (r_read q) q in
       if next =? w_read q0 then BugOn else Ret q0
     else Ret q) = Ret q1 /\ requests q1 = requests q /\
    r_read q1 = r_read q /\ w_sequence q1 = w_sequence q).
  { destruct (w_read q =? next); [| by exists q].
    cbn. destruct (Z.eqb_spec next (r_read q)); [done |]. by eexists. }
  destruct Hq1 as (q1 & Hq1 & Hreqs1 & Hread1 & Hseq1).
  unfold queue_request. rewrite ring_index_mod. fold q next.
  cbv zeta in Hq1. rewrite Hq1. cbn [mbind result_bind]. rewrite Hreqs1.
  unfold array_set. rewrite decide_True by lia. cbn [mbind result_bind].
  unfold deref. rewrite Hreq. cbn [of_option mbind result_bind].
  eexists. split; [reflexivity |]. cbn [queue set_queue store set_mem mem].
  split; [| split].
  - set (q' := {| w_write := next |}).
    assert (Hcount' : pending_count cfg q' = pending_count cfg q + 1).
    { unfold pending_count, q', next. cbn. rewrite Hread1.
      rewrite Zminus_mod_idemp_l.
      replace (w_write q + 1 - r_read q)
        with ((w_write q - r_read q) + 1) by lia.
      rewrite <- Zplus_mod_idemp_l. apply Z.mod_small.
      unfold pending_count in *. lia. }
    pose proof (pending_queue_length q (proj1 Hcount)) as Hplen.
    apply list_eq. intros k. rewrite pending_queue_lookup, Hcount'.
    assert (Hw' : (r_read q + pending_count cfg q) mod QUEUE_SIZE = w_write q).
    { unfold pending_count. rewrite Zplus_mod_idemp_r.
      replace (r_read q + (w_write q - r_read q)) with (w_write q) by lia.
      apply Z.mod_small. lia. }
    destruct (decide (Z.of_nat k < pending_count cfg q)) as [Hk | Hk].
    + rewrite decide_True by lia. rewrite lookup_app_l by lia.
      rewrite pending_queue_lookup, decide_True by lia.
      f_equal. unfold ring_at, q'. cbn. rewrite Hread1.
      rewrite list_lookup_insert_ne; [done |].
      intros Heq.
      assert (Hmod : (r_read q + Z.of_nat k) mod QUEUE_SIZE = w_write q).
      { pose proof (Z.mod_pos_bound (r_read q + Z.of_nat k) QUEUE_SIZE Hq).
        lia. }
      assert (pending_count cfg q = Z.of_nat k); [| lia].
      unfold pending_count. rewrite <- Hmod.
      rewrite Zminus_mod_idemp_l.
      replace (r_read q + Z.of_nat k - r_read q) with (Z.of_nat k) by lia.
      apply Z.mod_small. lia.
    + rewrite lookup_app_r by lia.
      destruct (decide (Z.of_nat k = pending_count cfg q)) as [Hke | Hke].
      * rewrite decide_True by lia.
        replace (k - length (pending_queue cfg q))%nat with 0%nat by lia.
        cbn. f_equal. unfold ring_at, q'. cbn. rewrite Hread1, Hke, Hw'.
        rewrite list_lookup_insert_eq by lia. done.
      * rewrite decide_False by lia.
        symmetry. apply lookup_ge_None. cbn. lia.
  - unfold sequence_at. rewrite lookup_insert_eq. cbn. done.
  - intros p Hp. by rewrite lookup_insert_ne.
Qed.

(** C1: replay on a quiesced channel whose queue is in sequence order.
    [fuse_restart_requests] returns 0 and leaves, between the reader's and
    the writer's cursor, first the requests of the slot table whose
    sequence is below the boundary (the sequence of the oldest queued
    request, or the next sequence when nothing is queued), sorted by
    sequence, then what was queued before; in that queue a request with a
    smaller sequence comes before one with a larger sequence, and a request
    enqueued afterwards goes behind all of them. *)
Theorem fuse_restart_requests_order fc queued :
  QUEUE_SIZE = MAX_IDS ->
  Z.of_nat (length (request_map fc)) = MAX_IDS ->
  (forall (i : nat) req, request_map fc !! i = Some (Some req) ->
     is_Some (mem fc !! req)) ->
  queue_shape cfg (queue fc) ->
  pending_queue cfg (queue fc) = Some <$> queued ->
  Forall (fun req => is_Some (mem fc !! req)) queued ->
  StronglySorted (seq_le (mem fc)) queued ->
  Z.of_nat (length (filter (fun req => sequence_at (mem fc) req
                                       < replay_boundary cfg fc)
                      (registered fc))
            + length queued) + 1 < QUEUE_SIZE ->
  exists fc' resend,
    fuse_restart_requests cfg fc true = Ret (fc', 0) /\
    resend ≡ₚ filter (fun req => sequence_at (mem fc) req
                                 < replay_boundary cfg fc) (registered fc) /\
    mem fc' = mem fc /\
    pending_queue cfg (queue fc') = Some <$> (resend ++ queued) /\
    StronglySorted (seq_le (mem fc)) (resend ++ queued) /\
    (forall (i j : nat) a b,
       (resend ++ queued) !! i = Some a -> (resend ++ queued) !! j = Some b ->
       sequence_at (mem fc) a < sequence_at (mem fc) b -> (i < j)%nat) /\
    (forall req r, mem fc' !! req = Some r ->
       exists fc'', queue_request cfg fc' req = Ret fc'' /\
         pending_queue cfg (queue fc'')
         = Some <$> (resend ++ queued ++ [req])).
Proof.
  intros Hsize Hmaplen Htab Hshape Hpend Hmem Hsorted Hroom.
  assert (Hq : 0 < QUEUE_SIZE) by apply Hcfg.
  pose proof (pending_count_range (queue fc)) as Hcount.
  pose proof (pending_queue_length (queue fc) (proj1 Hcount)) as Hplen.
  rewrite Hpend, length_fmap in Hplen.
  set (below := filter _ (registered fc)) in *.
  set (resend := merge_sort (reqs_le (mem fc)) below).
  assert (Hperm : resend ≡ₚ below) by apply merge_sort_Permutation.
  assert (Hrlen : length resend = length below)
    by (by apply Permutation_length).
  unfold fuse_restart_requests.
  rewrite (boundary_computed fc queued) by done.
  cbn [mbind result_bind negb].
  assert (Hn : Z.to_nat QUEUE_SIZE = length (request_map fc)) by lia.
  rewrite Hn.
  pose proof (collect_resend_ok fc (replay_boundary cfg fc)
                (length (request_map fc)) 0 []) as Hcol.
  change (Z.of_nat 0) with 0 in Hcol. rewrite Hcol by (done || lia).
  clear Hcol. cbn [mbind result_bind app].
  rewrite drop_0, take_ge by done. fold (registered fc). fold below resend.
  destruct Hshape as (Hr & Hw & Hlen).
  destruct (put_back_ok resend (length resend) (r_read (queue fc))
              (requests (queue fc)))
    as (reqs' & Hput & Hlen' & Hat); [lia | lia | done | done |].
  rewrite Hput. cbn [mbind result_bind].
  set (read' := (r_read (queue fc) - Z.of_nat (length resend)) mod QUEUE_SIZE).
  set (q' := set_r_read read' _).
  assert (Hpq : pending_queue cfg q' = Some <$> (resend ++ queued)).
  { unfold q', read'. rewrite pending_queue_put_back; try done; try lia.
    by rewrite Hpend, fmap_app. }
  assert (Hss : StronglySorted (seq_le (mem fc)) (resend ++ queued)).
  { apply StronglySorted_app_2; [| apply sorted_by_compare | done].
    intros a b Ha Hb. rewrite Hperm in Ha.
    apply list_elem_of_filter in Ha as [Ha _].
    unfold replay_boundary in Ha. rewrite Hpend in Ha.
    destruct queued as [| q0 queued]; [by apply elem_of_nil in Hb |].
    cbn in Ha. apply StronglySorted_cons in Hsorted as [Hall _].
    rewrite Forall_forall in Hall. unfold seq_le in *.
    apply elem_of_cons in Hb as [-> | Hb]; [lia |].
    specialize (Hall b Hb). lia. }
  eexists _, resend. split; [reflexivity |].
  split; [done |]. split; [done |]. split; [done |]. split; [done |].
  split.
  - intros i j a b Hi Hj Hlt.
    destruct (decide (i < j)%nat) as [| Hge]; [done | exfalso].
    destruct (decide (i = j)) as [-> | Hne].
    + rewrite Hi in Hj. injection Hj as ->. lia.
    + assert (Hba : seq_le (mem fc) b a).
      { eapply (sorted_positions _ _ j i); eauto. lia. }
      unfold seq_le in Hba. lia.
  - intros req r Hreq.
    destruct (queue_request_append (fuse_conn_wakeup (set_queue q' fc)) req r)
      as (fc'' & Hrun & Happ & _).
    + unfold q'. repeat split; cbn; try lia.
      * apply Z.mod_pos_bound. lia.
      * apply Z.mod_pos_bound. lia.
    + done.
    + cbn [queue fuse_conn_wakeup emit set_queue].
      pose proof (pending_count_range q') as Hc'.
      rewrite <- (pending_queue_length q') by lia.
      rewrite Hpq, length_fmap, length_app. lia.
    + exists fc''. split; [done |].
      rewrite Happ. cbn [queue fuse_conn_wakeup emit set_queue].
      rewrite Hpq. by rewrite !fmap_app, <- app_assoc.
Qed.

(** ** Read path *)

Ltac inv_bind H :=
  match type of H with
  | mbind _ ?m = Ret _ =>
      let E := fresh "E" in
      destruct m eqn:E; cbn [mbind result_bind] in H; try discriminate H
  end.

Lemma fuse_put_unique_log fc cpu uid fc' :
  fuse_put_unique cfg fc cpu uid = Ret fc' -> log fc' = log fc.
Proof.
  unfold fuse_put_unique. intros H.
  inv_bind H. inv_bind H.
  destruct a0 as [fc1 ids1]. inv_bind H. inv_bind H.
  injection H as <-. cbn.
  destruct (pc_num_free_ids a =? PER_CPU).
  - destruct (_ >? _); [done |]. inv_bind E0. by injection E0 as <- <-.
  - by injection E0 as <- <-.
Qed.

Lemma request_end_log fc cpu req fc' :
  request_end cfg fc cpu req = Ret fc' ->
  exists r, mem fc !! req = Some r /\
    log fc' = log fc ++ EvEnd req (oh_error (out_h r)) (end_ r)
                :: (if PX_BLKMQ cfg then [] else [EvFree req]).
Proof.
  unfold request_end, deref. intros H.
  destruct (mem fc !! req) as [r |] eqn:Hr; [| done].
  cbn [of_option mbind result_bind] in H. inv_bind H.
  apply fuse_put_unique_log in E. cbn in E.
  exists r. split; [done |]. injection H as <-.
  destruct (PX_BLKMQ cfg); cbn; rewrite E; [done |].
  by rewrite <- app_assoc.
Qed.

Lemma copy_to_iter_count src bytes i n i' :
  copy_to_iter src bytes i = (n, i') -> 0 <= n /\ count i' = count i - n.
Proof. unfold copy_to_iter. intros [= <- <-]. cbn. lia. Qed.

Lemma fuse_copy_req_read_result fc req iter c iter' :
  fuse_copy_req_read cfg fc req iter = Ret (c, iter') ->
  count iter' <= count iter /\
  (c < 0 \/ (0 < c /\ c = count iter - count iter')).
Proof.
  assert (Hh : 0 < sizeof_fuse_in_header cfg) by apply Hcfg.
  unfold fuse_copy_req_read. intros H. inv_bind H.
  destruct (copy_to_iter _ _ iter) as [n1 it1] eqn:H1.
  apply copy_to_iter_count in H1 as [Hn1 Hc1].
  destruct (Z.eqb_spec n1 (sizeof_fuse_in_header cfg)) as [-> | _];
    cbn [negb] in H.
  - inv_bind H.
    destruct (copy_to_iter _ _ it1) as [n2 it2] eqn:H2.
    apply copy_to_iter_count in H2 as [Hn2 Hc2].
    destruct (Z.eqb_spec n2 a0) as [-> | _]; cbn [negb] in H;
      injection H as <- <-; unfold EFAULT; lia.
  - injection H as <- <-. unfold EFAULT. lia.
Qed.

(** The reader cannot get past a request that does not fit while bytes
    remain: every pass through [retry] finds the same state. *)
Lemma read_retry_stuck budget : forall fc cpu iter copied remain req r,
  r_read (queue fc) <> r_write (queue fc) ->
  0 <= r_read (queue fc) ->
  requests (queue fc) !! Z.to_nat (r_read (queue fc)) = Some (Some req) ->
  mem fc !! req = Some r ->
  remain < ih_len (in_h r) -> remain <> 0 ->
  read_retry cfg budget fc cpu iter copied remain = Spin.
Proof.
  induction budget as [| b IH];
    intros fc cpu iter copied remain req r Hne Hpos Hslot Hreq Hbig Hrem;
    [done |].
  cbn [read_retry read_loop l_read l_remain].
  destruct (Z.eqb_spec (r_read (queue fc)) (r_write (queue fc))); [done |].
  unfold array_get. rewrite decide_True by done. rewrite Hslot.
  cbn [of_option mbind result_bind]. unfold deref. rewrite Hreq.
  cbn [of_option mbind result_bind].
  destruct (Z.gtb_spec (ih_len (in_h r)) remain); [| lia].
  cbn [mbind result_bind l_read l_remain l_iter l_copied].
  destruct (Z.eqb_spec remain 0); [done |]. cbn [negb].
  unfold request_pending. cbn [queue set_queue set_r_read r_read r_write].
  destruct (Z.eqb_spec (r_read (queue fc)) (r_write (queue fc))); [done |].
  cbn [negb]. eapply IH; cbn; eauto.
Qed.

Lemma read_loop_spec budget : forall fc cpu write l fc' l',
  read_loop cfg budget fc cpu write l = Ret (fc', l') ->
  (fc' = fc /\ l' = l /\
   (l_read l = write \/ head_blocked fc (l_read l) (l_remain l)))
  \/
  (l_copied l <= l_copied l' /\
   l_copied l' - l_copied l <= count (l_iter l) - count (l_iter l') /\
   exists ev, log fc' = log fc ++ ev /\
     (l_copied l < l_copied l' \/ eio_in ev)).
Proof.
  induction budget as [| b IH]; intros fc cpu write l fc' l' H.
  { cbn in H. destruct (Z.eqb_spec (l_read l) write); [| done].
    injection H as <- <-. left. auto. }
  cbn [read_loop] in H.
  destruct (Z.eqb_spec (l_read l) write) as [Heq | Hne].
  { injection H as <- <-. left. auto. }
  unfold array_get in H.
  destruct (decide (0 <= l_read l)) as [Hpos |]; [| done].
  destruct (requests (queue fc) !! Z.to_nat (l_read l)) as [slot |] eqn:Hslot;
    [| done].
  cbn [of_option mbind result_bind] in H.
  destruct slot as [req |]; [| done].
  cbn [of_option mbind result_bind] in H.
  unfold deref in H at 1.
  destruct (mem fc !! req) as [r |] eqn:Hreq; [| done].
  cbn [of_option mbind result_bind] in H.
  destruct (Z.gtb_spec (ih_len (in_h r)) (l_remain l)) as [Hbig | Hfit].
  { injection H as <- <-. left. split; [done |]. split; [done |].
    right. exists req, r. auto. }
  right. inv_bind H.
  set (r1 := if is_zero_write_candidate cfg r then _ else r) in H.
  set (fc1 := store req r1 _) in H.
  inv_bind H. destruct a0 as [c iter1].
  apply fuse_copy_req_read_result in E0 as [Hcnt Hc].
  destruct (Z.ltb_spec c 0) as [Hneg | Hnn].
  - inv_bind H.
    apply request_end_log in E0 as (r2 & Hr2 & Hlog2).
    cbn in Hr2. rewrite lookup_insert_eq in Hr2. injection Hr2 as <-.
    cbn in Hlog2.
    assert (Heio : eio_in (EvEnd req (- EIO) (end_ r1)
                             :: (if PX_BLKMQ cfg then [] else [EvFree req]))).
    { exists req, (end_ r1). apply list_elem_of_here. }
    apply IH in H as [(-> & -> & _) | (Hle & Hbytes & ev & Hlog & Hprog)];
      cbn in *.
    + split; [lia |]. split; [lia |]. eexists. split; [exact Hlog2 |].
      by right.
    + split; [lia |]. split; [lia |].
      eexists. split; [by rewrite Hlog, Hlog2, <- app_assoc |].
      right. destruct Heio as (q & cb & Hin). exists q, cb.
      apply elem_of_app. by left.
  - assert (Hcpos : 0 < c /\ c = count (l_iter l) - count iter1) by lia.
    apply IH in H as [(-> & -> & _) | (Hle & Hbytes & ev & Hlog & Hprog)];
      cbn in *.
    + split; [lia |]. split; [lia |]. exists []. split; [by rewrite app_nil_r |].
      left. lia.
    + split; [lia |]. split; [lia |]. exists ev. split; [done |]. left. lia.
Qed.

Lemma request_pending_spec fc fc' b :
  request_pending fc = (fc', b) ->
  log fc' = log fc /\ mem fc' = mem fc /\
  r_read (queue fc') = r_read (queue fc) /\
  requests (queue fc') = requests (queue fc) /\
  (b = true -> r_read (queue fc') <> r_write (queue fc')) /\
  (b = false -> fc' = fc /\ r_read (queue fc) = r_write (queue fc)).
Proof.
  unfold request_pending.
  destruct (Z.eqb_spec (r_read (queue fc)) (r_write (queue fc))) as [Hrw | Hrw];
    cbn [negb].
  - destruct (Z.eqb_spec (r_read (queue fc)) (w_write (queue fc))) as [Hw | Hw];
      intros [= <- <-]; cbn; repeat split; try done.
  - intros [= <- <-]. repeat split; try done.
Qed.

Lemma eio_in_app_l ev1 ev2 : eio_in ev1 -> eio_in (ev1 ++ ev2).
Proof.
  intros (req & cb & Hin). exists req, cb. apply elem_of_app. by left.
Qed.

Lemma eio_in_app_r ev1 ev2 : eio_in ev2 -> eio_in (ev1 ++ ev2).
Proof.
  intros (req & cb & Hin). exists req, cb. apply elem_of_app. by right.
Qed.

Lemma read_retry_spec budget : forall fc cpu iter copied remain fc' iter' v,
  read_retry cfg budget fc cpu iter copied remain = Ret (fc', iter', v) ->
  copied <= v /\ v - copied <= count iter - count iter' /\
  exists ev, log fc' = log fc ++ ev /\
    (r_read (queue fc) <> r_write (queue fc) -> remain <> 0 ->
     copied < v \/ eio_in ev).
Proof.
  induction budget as [| b IH];
    intros fc cpu iter copied remain fc' iter' v H; [done |].
  cbn [read_retry] in H. inv_bind H. destruct a as [fc1 l1].
  apply read_loop_spec in E.
  set (fcq := set_queue (set_r_read (l_read l1) (queue fc1)) fc1) in H.
  destruct (request_pending fcq) as [fc2 p] eqn:Hp.
  apply request_pending_spec in Hp as (Hlog2 & Hmem2 & Hread2 & Hreqs2 & Hpt & Hpf).
  cbn in Hlog2, Hmem2, Hread2, Hreqs2.
  destruct E as [(-> & -> & Hwhy) | (Hle & Hbytes & ev1 & Hlog1 & Hprog1)];
    cbn [l_read l_iter l_copied l_remain] in *.
  - destruct (Z.eqb_spec remain 0) as [Hz | Hnz]; cbn [negb] in H.
    { injection H as <- <- <-. split; [lia |]. split; [lia |].
      exists []. split; [by rewrite app_nil_r | done]. }
    destruct p.
    + specialize (Hpt eq_refl).
      destruct Hwhy as [Heq | (req & r & Hpos & Hslot & Hreq & Hbig)].
      * apply IH in H as (Hle & Hbytes & ev & Hlog & Hprog).
        split; [done |]. split; [done |].
        exists ev. split; [by rewrite Hlog, Hlog2 |].
        intros _ _. by apply Hprog.
      * rewrite (read_retry_stuck b fc2 cpu iter copied remain req r) in H;
          try done.
        -- by rewrite Hread2.
        -- by rewrite Hread2, Hreqs2.
        -- by rewrite Hmem2.
    + destruct (Hpf eq_refl) as [-> Hrw]. cbn in Hrw.
      injection H as <- <- <-. split; [lia |]. split; [lia |].
      exists []. split; [by rewrite app_nil_r |].
      intros Hne _. done.
  - assert (Hdone : Ret (fcq, l_iter l1, l_copied l1) = Ret (fc', iter', v) ->
              copied <= v /\ v - copied <= count iter - count iter' /\
              exists ev, log fc' = log fc ++ ev /\
                (r_read (queue fc) <> r_write (queue fc) -> remain <> 0 ->
                 copied < v \/ eio_in ev)).
    { intros [= <- <- <-]. split; [done |]. split; [done |].
      exists ev1. split; [done |]. intros _ _. done. }
    destruct (Z.eqb_spec (l_remain l1) 0); cbn [negb] in H; [by apply Hdone |].
    destruct p.
    + apply IH in H as (Hle2 & Hbytes2 & ev2 & Hlog & Hprog).
      split; [lia |]. split; [lia |].
      exists (ev1 ++ ev2). split.
      { by rewrite Hlog, Hlog2, Hlog1, <- app_assoc. }
      intros _ _. destruct Hprog1 as [Hlt | Heio]; [left; lia |].
      right. by apply eio_in_app_l.
    + destruct (Hpf eq_refl) as [-> _]. by apply Hdone.
Qed.

(** *** What the return value counts *)













(** A larger budget does not change an outcome other than [Spin]. *)
Lemma read_loop_mono n : forall m fc cpu write l res,
  read_loop cfg n fc cpu write l = res -> res <> Spin -> (n <= m)%nat ->
  read_loop cfg m fc cpu write l = res.
Proof.
  induction n as [| n IH]; intros m fc cpu write l res H Hres Hle.
  { cbn in H. destruct (Z.eqb_spec (l_read l) write) as [Heq | Hne];
      [| congruence].
    destruct m; cbn [read_loop]; by destruct (Z.eqb_spec (l_read l) write). }
  destruct m as [| m]; [lia |].
  cbn [read_loop] in H |- *.
  destruct (l_read l =? write); [done |].
  destruct (array_get _ _) as [slot | | |]; cbn [mbind result_bind] in *;
    try done.
  destruct (of_option slot) as [req | | |]; cbn [mbind result_bind] in *;
    try done.
  destruct (deref fc req) as [r | | |]; cbn [mbind result_bind] in *;
    try done.
  destruct (_ >? _); [done |].
  destruct (array_set _ _ _) as [reqs | | |]; cbn [mbind result_bind] in *;
    try done.
  destruct (fuse_copy_req_read _ _ _ _) as [[c iter1] | | |];
    cbn [mbind result_bind] in *; try done.
  destruct (c <? 0).
  - destruct (request_end _ _ _ _) as [fc2 | | |];
      cbn [mbind result_bind] in *; try done.
    apply IH; [done | done | lia].
  - apply IH; [done | done | lia].
Qed.

(** When the loop of the read call, run to its end, stops in front of a
    request that does not fit and bytes remain in the buffer, the call does
    not return, whatever the budget. *)
Lemma fuse_dev_do_read_never_returns n env fc cpu nonblock iter fc0 fc1 l1 :
  request_pending fc = (fc0, true) ->
  read_loop cfg n fc0 cpu (r_write (queue fc0))
    {| l_read := r_read (queue fc0); l_iter := iter;
       l_copied := 0; l_remain := count iter |} = Ret (fc1, l1) ->
  l_read l1 <> r_write (queue fc1) ->
  head_blocked fc1 (l_read l1) (l_remain l1) ->
  l_remain l1 <> 0 ->
  forall budget,
    fuse_dev_do_read cfg budget env fc cpu nonblock iter = Spin.
Proof.
  intros Hp Hloop Hne (req & r & Hpos & Hslot & Hreq & Hbig) Hrem budget.
  unfold fuse_dev_do_read. rewrite Hp. cbn [negb].
  destruct budget as [| b]; [done |].
  cbn [read_retry].
  destruct (read_loop cfg (S b) fc0 cpu _ _) as [[fc2 l2] | | |] eqn:Hb;
    cbn [mbind result_bind]; try done.
  - assert (Hsame : Ret (fc2, l2) = Ret (fc1, l1)).
    { rewrite <- (read_loop_mono _ (max (S b) n) _ _ _ _ _ Hb); [| done | lia].
      apply read_loop_mono with (n := n); [done | done | lia]. }
    injection Hsame as -> ->.
    destruct (Z.eqb_spec (l_remain l1) 0); [done |]. cbn [negb].
    unfold request_pending. cbn [queue set_queue set_r_read r_read r_write].
    destruct (Z.eqb_spec (l_read l1) (r_write (queue fc1))); [done |].
    cbn [negb]. eapply read_retry_stuck; cbn; eauto.
  - exfalso.
    assert (Hbad : @BugOn (fuse_conn * read_locals) = Ret (fc1, l1)); [| done].
    rewrite <- (read_loop_mono _ (max (S b) n) _ _ _ _ _ Hb); [| done | lia].
    apply read_loop_mono with (n := n); [done | done | lia].
  - exfalso.
    assert (Hbad : @Fault (fuse_conn * read_locals) = Ret (fc1, l1)); [| done].
    rewrite <- (read_loop_mono _ (max (S b) n) _ _ _ _ _ Hb); [| done | lia].
    apply read_loop_mono with (n := n); [done | done | lia].
Qed.

(** ** The invariant of a connection *)

Lemma omap_replicate_None {A} n : omap id (replicate n (@None A)) = [].
Proof. induction n; [done | by cbn]. Qed.

Lemma fuse_conn_init_inv ncpus : conn_inv cfg (fuse_conn_init cfg ncpus).
Proof.
  split; [apply fuse_conn_init_shape |]. split.
  - intros i req Hi. cbn in Hi.
    apply lookup_replicate in Hi as [Hi _]. done.
  - unfold registered. cbn [request_map fuse_conn_init].
    rewrite omap_replicate_None. cbn [fmap list_fmap].
    rewrite app_nil_r. apply fuse_conn_init_slots.
Qed.

(** The registered requests around one slot. *)
Lemma registered_split (l : list (option ptr)) i s :
  l !! i = Some s ->
  omap id l = omap id (take i l)
                ++ match s with Some req => [req] | None => [] end
                ++ omap id (drop (S i) l) /\
  forall s', omap id (<[i := s']> l)
             = omap id (take i l)
                 ++ match s' with Some req => [req] | None => [] end
                 ++ omap id (drop (S i) l).
Proof.
  intros Hi. split.
  - rewrite <- (take_drop_middle l i s Hi) at 1.
    rewrite omap_app. cbn. by destruct s.
  - intros s'. rewrite insert_take_drop by (by eapply lookup_lt_Some).
    rewrite omap_app. cbn. by destruct s'.
Qed.

Lemma registered_at fc q :
  q ∈ registered fc -> exists i : nat, request_map fc !! i = Some (Some q).
Proof.
  unfold registered. intros Hq.
  apply list_elem_of_omap in Hq as (s & Hin & Hid). cbn in Hid. subst s.
  by apply list_elem_of_lookup in Hin.
Qed.

Lemma registered_around fc i req q :
  table_ok cfg fc -> request_map fc !! i = Some (Some req) ->
  q ∈ omap id (take i (request_map fc)) ++ omap id (drop (S i) (request_map fc)) ->
  q <> req.
Proof.
  intros Htab Hi Hq ->.
  destruct (Htab i req Hi) as (r & Hr & Hslot).
  assert (Hj : exists j : nat, j <> i /\ request_map fc !! j = Some (Some req)).
  { apply elem_of_app in Hq as [Hq | Hq];
      apply list_elem_of_omap in Hq as (s & Hin & Hid); cbn in Hid; subst s;
      apply list_elem_of_lookup in Hin as (k & Hk).
    - apply lookup_take_Some in Hk as [Hk Hlt]. exists k. split; [lia | done].
    - rewrite lookup_drop in Hk. exists (S i + k)%nat. split; [lia | done]. }
  destruct Hj as (j & Hne & Hj).
  destruct (Htab j req Hj) as (r' & Hr' & Hslot').
  rewrite Hr in Hr'. injection Hr' as <-. lia.
Qed.

(** Finalizing a registered request keeps the invariant. *)
Lemma request_end_inv fc cpu (i : nat) req :
  conn_inv cfg fc -> request_map fc !! i = Some (Some req) ->
  (cpu < length (per_cpu_ids fc))%nat ->
  exists fc', request_end cfg fc cpu req = Ret fc' /\ conn_inv cfg fc' /\
    registered fc' = omap id (take i (request_map fc))
                       ++ omap id (drop (S i) (request_map fc)).
Proof.
  intros Hinv Hi Hcpu. pose proof (conn_inv_room fc Hinv) as Hroom.
  destruct Hinv as (Hs & Htab & Hnd).
  destruct (Htab i req Hi) as (r & Hr & Hslot).
  destruct (registered_split _ _ _ Hi) as [Hreg Hreg'].
  fold (registered fc) in Hreg.
  destruct (lookup_lt_is_Some_2 (per_cpu_ids fc) cpu) as [c Hc]; [done |].
  destruct (request_end_ok fc cpu req r c)
    as (fc' & Hend & Hs' & Hperm & Hmap & _ & Hmem & _); [done | done | done | |].
  { rewrite Hreg, !length_app in Hroom. cbn in Hroom. lia. }
  rewrite Hslot, Nat2Z.id in Hmap.
  assert (Hregd : registered fc' = omap id (take i (request_map fc))
                                     ++ omap id (drop (S i) (request_map fc))).
  { unfold registered. rewrite Hmap. apply (Hreg' None). }
  assert (Hmemq : forall q, q <> req -> mem fc' !! q = mem fc !! q).
  { intros q Hq. rewrite Hmem.
    destruct (PX_BLKMQ cfg); [done | by rewrite lookup_delete_ne]. }
  exists fc'. split; [done |]. split; [| done].
  split; [done |]. split.
  - intros j q Hj. rewrite Hmap in Hj.
    destruct (decide (j = i)) as [-> | Hne].
    { rewrite list_lookup_insert_eq in Hj by (by eapply lookup_lt_Some). done. }
    rewrite list_lookup_insert_ne in Hj by done.
    destruct (Htab j q Hj) as (rq & Hrq & Hsq).
    exists rq. split; [| done]. rewrite Hmemq; [done |].
    intros ->. rewrite Hr in Hrq. injection Hrq as <-. lia.
  - rewrite Hregd, Hperm.
    assert (Hu : unique_at (mem fc')
                   <$> omap id (take i (request_map fc))
                       ++ omap id (drop (S i) (request_map fc))
                 = unique_at (mem fc)
                   <$> omap id (take i (request_map fc))
                       ++ omap id (drop (S i) (request_map fc))).
    { apply Forall_fmap_ext_1, Forall_forall. intros q Hq.
      unfold unique_at. rewrite Hmemq; [done |].
      by eapply registered_around. }
    rewrite Hu. eapply NoDup_Permutation_proper; [| exact Hnd].
    rewrite Hreg, !fmap_app. cbn. unfold unique_at at 4. rewrite Hr.
    solve_Permutation.
Qed.

Lemma queue_request_frame fc req fc' :
  queue_request cfg fc req = Ret fc' ->
  exists r, mem fc !! req = Some r /\
    mem fc' = <[req := set_sequence (w_sequence (queue fc)) r]> (mem fc) /\
    request_map fc' = request_map fc /\ num_free_ids fc' = num_free_ids fc /\
    free_ids fc' = free_ids fc /\ per_cpu_ids fc' = per_cpu_ids fc /\
    log fc' = log fc /\ connected fc' = connected fc /\
    allow_disconnected fc' = allow_disconnected fc.
Proof.
  unfold queue_request, deref. intros H.
  inv_bind H. inv_bind H.
  destruct (mem fc !! req) as [r |] eqn:Hr; [| done].
  cbn [of_option mbind result_bind] in H. injection H as <-.
  exists r. split; [done |]. cbn.
  assert (Hseq : w_sequence a = w_sequence (queue fc)).
  { destruct (w_read (queue fc) =? _); [| by injection E as <-].
    cbn in E. destruct (_ =? _); [done |]. by injection E as <-. }
  rewrite Hseq. repeat split; done.
Qed.

(** Submitting a fresh request on a channel that accepts it keeps the
    invariant, registers the request and appends it to the queue. *)
Lemma fuse_request_send_nowait_inv fc cpu cpu' req r c :
  conn_inv cfg fc ->
  connected fc || allow_disconnected fc = true ->
  per_cpu_ids fc !! cpu = Some c ->
  (pc_num_free_ids c = 0 -> 0 < num_free_ids fc) ->
  mem fc !! req = Some r -> req ∉ registered fc ->
  0 <= in_numargs r <= Z.of_nat (length (in_args r)) ->
  queue_shape cfg (queue fc) ->
  pending_count cfg (queue fc) + 1 < QUEUE_SIZE ->
  exists fc', fuse_request_send_nowait cfg fc cpu cpu' req = Ret fc' /\
    conn_inv cfg fc' /\
    pending_queue cfg (queue fc') = pending_queue cfg (queue fc) ++ [Some req] /\
    req ∈ registered fc'.
Proof.
  intros (Hs & Htab & Hnd) Hconn Hc Havail Hreq Hfresh Hargs Hshape Hroom.
  destruct (len_args_ok _ _ Hargs) as [n Hn].
  destruct (fuse_get_unique_ok fc cpu c Hs Hc Havail)
    as (fc1 & v & Hget & Hs1 & Hperm & Hmap1 & Hc1 & Ha1 & Hq1 & Hm1 & Hl1 & Hn1).
  set (uid := next_unique cfg v) in *.
  pose proof (slot_of_range uid) as Hslot.
  set (s := Z.to_nat (slot_of cfg uid)).
  assert (Hlenmap : Z.of_nat (length (request_map fc)) = MAX_IDS)
    by (by destruct Hs as (_ & _ & _ & ?)).
  destruct (lookup_lt_is_Some_2 (request_map fc) s) as [s0 Hs0];
    [unfold s; lia |].
  assert (Hempty : s0 = None).
  { destruct s0 as [q |]; [exfalso | done].
    destruct (Htab s q Hs0) as (rq & Hrq & Hsq).
    rewrite Hperm, fmap_app in Hnd. apply NoDup_app in Hnd as (_ & Hdisj & _).
    apply (Hdisj (slot_of cfg v)).
    - rewrite fmap_cons. apply list_elem_of_here.
    - apply list_elem_of_fmap. exists (ih_unique (in_h rq)). split.
      + rewrite <- slot_of_next_unique. fold uid. rewrite Hsq. unfold s. lia.
      + apply list_elem_of_fmap. exists q. split.
        * unfold unique_at. by rewrite Hrq.
        * unfold registered. apply list_elem_of_omap. exists (Some q).
          split; [by eapply list_elem_of_lookup_2 | done]. }
  subst s0. destruct (registered_split _ _ _ Hs0) as [Hreg Hreg'].
  fold (registered fc) in Hreg. cbn [app] in Hreg.
  unfold fuse_request_send_nowait, deref. rewrite Hreq.
  cbn [of_option mbind result_bind]. rewrite Hn.
  cbn [mbind result_bind]. rewrite Hget. cbn [mbind result_bind].
  set (r1 := set_in_unique uid _).
  unfold array_set. cbn [request_map store set_mem].
  rewrite Hmap1. rewrite decide_True by lia. cbn [mbind result_bind].
  set (fcx := set_request_map _ _).
  assert (Hcx : connected fcx || allow_disconnected fcx = true).
  { cbn. by rewrite Hc1, Ha1. }
  rewrite Hcx.
  destruct (queue_request_append fcx req r1)
    as (fc2 & Hrun & Hpq & _).
  { cbn. by rewrite Hq1. }
  { cbn. apply lookup_insert_eq. }
  { cbn. by rewrite Hq1. }
  rewrite Hrun. cbn [mbind result_bind].
  destruct (queue_request_frame _ _ _ Hrun)
    as (r1' & Hr1' & Hmem2 & Hmap2 & Hnum2 & Hfree2 & Hcpu2 & _).
  cbn in Hr1'. rewrite lookup_insert_eq in Hr1'. injection Hr1' as <-.
  cbn [mem fcx set_request_map store set_mem request_map num_free_ids
       free_ids per_cpu_ids queue] in Hmem2, Hmap2, Hnum2, Hfree2, Hcpu2, Hpq.
  fold s in Hmap2.
  eexists. split; [reflexivity |].
  set (fc' := fuse_conn_wakeup fc2).
  assert (Hpool : free_pool fc' = free_pool fc1).
  { unfold free_pool. cbn. by rewrite Hnum2, Hfree2, Hcpu2. }
  assert (Hregd : registered fc' = omap id (take s (request_map fc))
                    ++ req :: omap id (drop (S s) (request_map fc))).
  { unfold registered. cbn. rewrite Hmap2. apply (Hreg' (Some req)). }
  set (r3 := set_sequence _ r1) in Hmem2.
  assert (Hmemr : mem fc' !! req = Some r3).
  { cbn. rewrite Hmem2. apply lookup_insert_eq. }
  assert (Hmemq : forall q, q <> req -> mem fc' !! q = mem fc !! q).
  { intros q Hq. cbn. rewrite Hmem2, !lookup_insert_ne by done.
    by rewrite Hm1. }
  split; [| split].
  - split; [| split].
    + destruct Hs1 as (? & ? & ? & ?). repeat split; cbn;
        rewrite ?Hnum2, ?Hfree2, ?Hcpu2, ?Hmap2, ?length_insert; try done; lia.
    + intros j q Hj. cbn in Hj. rewrite Hmap2 in Hj.
      destruct (decide (j = s)) as [-> | Hne].
      * rewrite list_lookup_insert_eq in Hj by (unfold s; lia).
        injection Hj as <-. exists r3. split; [done |].
        cbn. unfold s. lia.
      * rewrite list_lookup_insert_ne in Hj by done.
        destruct (Htab j q Hj) as (rq & Hrq & Hsq).
        exists rq. split; [| done]. rewrite Hmemq; [done |].
        intros ->. apply Hfresh. unfold registered.
        apply list_elem_of_omap. exists (Some req).
        split; [by eapply list_elem_of_lookup_2 | done].
    + rewrite Hpool, Hregd.
      assert (Hu : forall l, Forall (fun q => q <> req) l ->
                unique_at (mem fc') <$> l = unique_at (mem fc) <$> l).
      { intros l Hl. apply Forall_fmap_ext_1.
        eapply Forall_impl; [exact Hl |]. intros q Hq.
        unfold unique_at. by rewrite Hmemq. }
      assert (Hnr : Forall (fun q => q <> req)
                      (omap id (take s (request_map fc))
                       ++ omap id (drop (S s) (request_map fc)))).
      { rewrite <- Hreg. apply Forall_forall. intros q Hq ->. done. }
      apply Forall_app in Hnr as [HnA HnB].
      rewrite (fmap_app (unique_at (mem fc'))).
      rewrite (fmap_cons (unique_at (mem fc'))), (Hu _ HnA), (Hu _ HnB).
      unfold unique_at at 2. rewrite Hmemr.
      change (ih_unique (in_h r3)) with uid.
      eapply NoDup_Permutation_proper; [| exact Hnd].
      rewrite Hperm, Hreg.
      repeat (rewrite fmap_app || rewrite fmap_cons).
      unfold uid. rewrite slot_of_next_unique. solve_Permutation.
  - cbn. rewrite Hpq. cbn. by rewrite Hq1.
  - rewrite Hregd. apply elem_of_app. right. apply list_elem_of_here.
Qed.

End Facts.

(** * The code on the small configuration *)

Lemma Small_cfg_ok : config_ok Small.cfg.
Proof. split; vm_compute; try done; split; congruence. Qed.

(** ** Allocator *)

Lemma five_acquired_run :
  alloc_run Small.cfg (fuse_conn_init Small.cfg 2, [])
    [Acquire 0; Acquire 1; Acquire 0; Acquire 1; Acquire 0]
    Small.five_acquired.
Proof.
  repeat (eapply run_cons;
          [apply step_acquire; vm_compute; reflexivity |]).
  apply run_nil.
Qed.

(** The identifiers of five acquires on two CPUs are distinct. *)
Lemma identifier_uniqueness_witness :
  NoDup Small.five_acquired.2 /\
  NoDup (slot_of Small.cfg <$> Small.five_acquired.2).
Proof.
  apply (identifier_uniqueness Small.cfg Small_cfg_ok 2
           [Acquire 0; Acquire 1; Acquire 0; Acquire 1; Acquire 0]
           Small.five_acquired.1).
  repeat (eapply run_cons;
          [apply step_acquire; vm_compute; reflexivity |]).
  apply run_nil.
Defined.

(** C6, as the specification words it, fails: with two identifiers left in
    the global pool a refill takes both. *)
Lemma refill_takes_all_that_remains :
  ~ refill_at_most_half_of_rest Small.cfg.
Proof.
  intros H.
  destruct (fuse_get_unique Small.cfg Small.five_acquired.1 1)
    as [[fc' uid] | | |] eqn:Hget; try (vm_compute in Hget; discriminate).
  pose proof (H 2%nat _ _ _ 1%nat _ fc' uid five_acquired_run eq_refl eq_refl Hget)
    as Hhalf.
  vm_compute in Hget. injection Hget as <- <-.
  vm_compute in Hhalf. by apply Hhalf.
Qed.

Ltac concrete_shape :=
  split; [vm_compute; reflexivity |];
  split; [vm_compute; split; congruence |];
  split; [| vm_compute; reflexivity];
  match goal with
  | |- Forall ?P (per_cpu_ids ?fc) =>
      let l := eval vm_compute in (per_cpu_ids fc) in
      change (Forall P l);
      repeat (constructor; [vm_compute; repeat split; congruence |]);
      constructor
  end.

(** A refill from a pool of eight takes two; a release into a full cache
    of four flushes two. *)
Lemma refill_and_flush_amounts_witness :
  (exists fc' u,
     fuse_get_unique Small.cfg (fuse_conn_init Small.cfg 2) 0 = Ret (fc', u) /\
     num_free_ids fc' = 6) /\
  (exists fc',
     fuse_put_unique Small.cfg Small.cache_full 1 12 = Ret fc' /\
     num_free_ids fc' = 4).
Proof.
  destruct (refill_and_flush_amounts Small.cfg Small_cfg_ok
              (fuse_conn_init Small.cfg 2) 0
              {| pc_num_free_ids := 0; pc_free_ids := [0; 0; 0; 0] |}
              Small.cache_full 1
              {| pc_num_free_ids := 4; pc_free_ids := [8; 9; 10; 11] |} 12)
    as [(fc1 & c1 & v & Hget & Hnum & _) (fc2 & c2 & Hput & Hnum2 & _)].
  - concrete_shape.
  - reflexivity.
  - reflexivity.
  - reflexivity.
  - concrete_shape.
  - reflexivity.
  - reflexivity.
  - vm_compute. congruence.
  - split.
    + exists fc1, (next_unique Small.cfg v). split; [exact Hget | exact Hnum].
    + exists fc2. split; [exact Hput | exact Hnum2].
Defined.

(** ** Slot table and write path *)

(** Slot 0 after its reuse: the identifier 8 is gone, 16 finds request 13. *)
Lemma request_find_reused_slot_witness :
  request_find Small.cfg Small.reused 8 = Ret None /\
  request_find Small.cfg Small.reused 16 = Ret (Some 13%nat).
Proof.
  apply (request_find_reused_slot Small.cfg Small.reused 8 16 13%nat
           (set_sequence 2 (set_in_unique 16
              (set_in_len 48 (Small.new_req 8194 8 true))))).
  - reflexivity.
  - reflexivity.
  - reflexivity.
  - reflexivity.
  - discriminate.
Defined.

(** A data fetch for request C, a PXD_READ. *)
Lemma fuse_notify_read_data_not_write_witness :
  fuse_notify_read_data Small.cfg Small.submitted 0
    (Small.buffer 16 16 Small.fetch_c)
  = Ret (- EINVAL, Small.buffer 0 0 [], []).
Proof.
  apply (fuse_notify_read_data_not_write Small.cfg Small.submitted 0
           (Small.buffer 16 16 Small.fetch_c) Small.fetch_c
           (Small.buffer 0 0 []) 12%nat
           (set_sequence 3 (set_in_unique 9
              (set_in_len 48 (Small.new_req 8194 8 false))))).
  - reflexivity.
  - reflexivity.
  - reflexivity.
  - discriminate.
  - discriminate.
Defined.

(** C9, as the specification words it, fails: a completion for the unknown
    identifier 0xdead whose status is 1 is refused as invalid. *)
Lemma unknown_completion_invalid_status :
  ~ unknown_completion_not_found Small.cfg.
Proof.
  intros H.
  destruct (H Small.submitted 0%nat (Small.buffer 16 16 Small.bad_status)
              Small.bad_status (Small.buffer 0 0 []))
    as (res & Hres & Hret & _).
  - reflexivity.
  - discriminate.
  - reflexivity.
  - vm_compute in Hres. injection Hres as <-. discriminate.
Qed.

(** A well-formed completion for the unknown identifier 0xdead. *)
Lemma fuse_dev_do_write_unknown_witness :
  fuse_dev_do_write Small.cfg Small.submitted 0
    (Small.buffer 16 16 Small.unknown_id)
  = Ret {| wr_fc := Small.submitted; wr_iter := Small.buffer 0 0 [];
           wr_sent := []; wr_ret := - ENOENT |}.
Proof.
  apply (fuse_dev_do_write_unknown Small.cfg Small.submitted 0
           (Small.buffer 16 16 Small.unknown_id) Small.unknown_id
           (Small.buffer 0 0 [])).
  - vm_compute. congruence.
  - reflexivity.
  - discriminate.
  - reflexivity.
Defined.

(** ** Submission while not connected *)

(** A submission from CPU 0, given back on CPU 1, on a channel that is not
    connected. *)
Lemma fuse_request_send_nowait_not_connected_witness :
  exists fc',
    fuse_request_send_nowait Small.cfg Small.disconnected 0 1 10%nat = Ret fc' /\
    queue fc' = queue Small.disconnected /\
    log fc' = [EvEnd 10%nat (- ENOTCONN) true; EvFree 10%nat].
Proof.
  destruct (fuse_request_send_nowait_not_connected Small.cfg Small_cfg_ok
              Small.disconnected 0 1 10%nat (Small.new_req 8193 8 true)
              {| pc_num_free_ids := 0; pc_free_ids := [0; 0; 0; 0] |})
    as (fc' & fc1 & uid & Hrun & _ & Hq & Hlog & _).
  - reflexivity.
  - reflexivity.
  - split; [concrete_shape |]. split.
    + intros i req Hi.
      do 8 (destruct i as [| i]; [vm_compute in Hi; discriminate Hi |]).
      vm_compute in Hi. discriminate Hi.
    + apply (bool_decide_unpack _). vm_compute. exact I.
  - reflexivity.
  - intros _. reflexivity.
  - vm_compute. lia.
  - reflexivity.
  - vm_compute. split; congruence.
  - exists fc'. split; [exact Hrun |]. split; [exact Hq | exact Hlog].
Defined.

(** ** Forced abort *)

Lemma submitted_table_ok : table_ok Small.cfg Small.submitted.
Proof.
  intros i req Hi.
  do 8 (destruct i as [| i];
        [vm_compute in Hi; try discriminate Hi; injection Hi as <-;
         eexists; split; reflexivity |]).
  vm_compute in Hi. discriminate Hi.
Qed.

(** Abort on CPU 1 with A, B and C in flight: the cache of CPU 1 holds one
    identifier and has room for three more. *)
Lemma abort_of_three :
  exists fc',
    fuse_abort_conn Small.cfg Small.submitted 1 = Ret fc' /\
    connected fc' = false /\
    request_map fc' = replicate 8 None /\
    forall req, req ∈ [10; 12; 11]%nat ->
      exists r, mem Small.submitted !! req = Some r /\
        ends_of req (drop 3 (log fc'))
        = [EvEnd req (- ECONNABORTED) (end_ r)].
Proof.
  destruct (fuse_abort_conn_with_room Small.cfg Small_cfg_ok Small.submitted 1
              {| pc_num_free_ids := 1; pc_free_ids := [3; 2; 0; 0] |})
    as (fc' & Hrun & Hconn & Hmap & _ & Hends & _).
  - reflexivity.
  - reflexivity.
  - split; [concrete_shape |]. split; [apply submitted_table_ok |].
    apply (bool_decide_unpack _). vm_compute. exact I.
  - reflexivity.
  - vm_compute. congruence.
  - exists fc'. split; [exact Hrun |]. split; [exact Hconn |].
    split; [exact Hmap | exact Hends].
Qed.

Lemma five_submitted_inv : conn_inv Small.cfg Small.five_submitted.
Proof.
  split; [concrete_shape |]. split.
  - intros i req Hi.
    do 8 (destruct i as [| i];
          [vm_compute in Hi; try discriminate Hi; injection Hi as <-;
           eexists; split; reflexivity |]).
    vm_compute in Hi. discriminate Hi.
  - apply (bool_decide_unpack _). vm_compute. exact I.
Qed.

(** Abort on CPU 1 with five requests in flight: the cache of CPU 1 is
    empty and takes four identifiers; the release of the fifth finds it
    full and spins on the lock the abort holds. *)
Lemma fuse_abort_conn_deadlock_witness :
  fuse_abort_conn Small.cfg Small.five_submitted 1 = Spin.
Proof.
  apply (fuse_abort_conn_deadlock Small.cfg Small_cfg_ok Small.five_submitted 1
           {| pc_num_free_ids := 0; pc_free_ids := [0; 0; 0; 0] |}).
  - reflexivity.
  - reflexivity.
  - apply five_submitted_inv.
  - reflexivity.
  - vm_compute. reflexivity.
Defined.

(** ** Replay *)

(** Replay after A and B were delivered and C is still queued. *)
Lemma fuse_restart_requests_order_witness :
  exists fc' resend,
    fuse_restart_requests Small.cfg Small.delivered2 true = Ret (fc', 0) /\
    resend ≡ₚ [10; 11]%nat /\
    pending_queue Small.cfg (queue fc') = Some <$> (resend ++ [12%nat]) /\
    StronglySorted (seq_le (mem Small.delivered2)) (resend ++ [12%nat]).
Proof.
  destruct (fuse_restart_requests_order Small.cfg Small_cfg_ok
              Small.delivered2 [12%nat])
    as (fc' & resend & Hrun & Hperm & _ & Hpq & Hss & _).
  - reflexivity.
  - reflexivity.
  - intros i req Hi.
    do 8 (destruct i as [| i];
          [vm_compute in Hi; try discriminate Hi; injection Hi as <-;
           eexists; reflexivity |]).
    vm_compute in Hi. discriminate Hi.
  - vm_compute. repeat split; congruence.
  - reflexivity.
  - repeat constructor. eexists. reflexivity.
  - repeat constructor.
  - vm_compute. reflexivity.
  - exists fc', resend. split; [exact Hrun |]. split; [exact Hperm |].
    split; [exact Hpq | exact Hss].
Defined.

(** ** Read path *)

(** The scenario with a buffer of exactly two requests: A and B are
    copied, C stays queued, and the next read call returns C. *)
Lemma read_exactly_two :
  exists fc1 fc2,
    fuse_dev_do_read Small.cfg 8 [] Small.submitted 0 false
      (Small.buffer 96 96 [])
    = Ret (fc1,
           {| count := 0; user_ok := 0; data := [];
              out := [(SrcHeader 10%nat, 40); (SrcArg0 10%nat, 8);
                      (SrcHeader 11%nat, 40); (SrcArg0 11%nat, 8)] |}, 96) /\
    pending_queue Small.cfg (queue fc1) = [Some 12%nat] /\
    fuse_dev_do_read Small.cfg 8 [] fc1 0 false (Small.buffer 48 48 [])
    = Ret (fc2,
           {| count := 0; user_ok := 0; data := [];
              out := [(SrcHeader 12%nat, 40); (SrcArg0 12%nat, 8)] |}, 48).
Proof.
  eexists _, _. split; [vm_compute; reflexivity |].
  split; vm_compute; reflexivity.
Qed.

(** C4 fails on the code: with A, B and C queued, 48 bytes each, a read
    call into a buffer of 120 bytes copies A and B and then never returns,
    because C does not fit into the 24 bytes that remain and the call keeps
    going back to [retry]. *)
Theorem read_with_room_to_spare_never_returns budget :
  fuse_dev_do_read Small.cfg budget [] Small.submitted 0 false
    (Small.buffer 120 120 []) = Spin.
Proof.
  eapply (fuse_dev_do_read_never_returns Small.cfg 3).
  - vm_compute. reflexivity.
  - vm_compute. reflexivity.
  - vm_compute. congruence.
  - exists 12%nat. eexists. split; [vm_compute; congruence |].
    split; [vm_compute; reflexivity |].
    split; [vm_compute; reflexivity |]. vm_compute. reflexivity.
  - vm_compute. congruence.
Qed.



(** After A and B were delivered and replayed, a read call with room for
    all three hands A, B and C to the consumer in that order. *)
Lemma replay_then_read :
  exists fc1 fc2 iter,
    fuse_restart_requests Small.cfg Small.delivered2 true = Ret (fc1, 0) /\
    fuse_dev_do_read Small.cfg 8 [] fc1 0 false (Small.buffer 144 144 [])
    = Ret (fc2, iter, 144) /\
    out iter = [(SrcHeader 10%nat, 40); (SrcArg0 10%nat, 8);
                (SrcHeader 11%nat, 40); (SrcArg0 11%nat, 8);
                (SrcHeader 12%nat, 40); (SrcArg0 12%nat, 8)].
Proof.
  eexists _, _, _. split; [vm_compute; reflexivity |].
  split; vm_compute; reflexivity.
Qed.


(** * Further properties of the channel *)

Section More.

Variable cfg : config.
Hypothesis Hcfg : config_ok cfg.

Local Abbreviation MAX_IDS := (FUSE_MAX_REQUEST_IDS cfg).
Local Abbreviation PER_CPU := (FUSE_MAX_PER_CPU_IDS cfg).
Local Abbreviation QUEUE_SIZE := (FUSE_REQUEST_QUEUE_SIZE cfg).

Ltac bind_inv H :=
  match type of H with
  | mbind _ ?m = Ret _ =>
      let E := fresh "E" in
      destruct m eqn:E; cbn [mbind result_bind] in H; try discriminate H
  end.

(** ** Identifier allocator *)

Lemma next_unique_range v : 0 < next_unique cfg v < 2 ^ 64.
Proof.
  assert (Hmax : 0 < MAX_IDS < 2 ^ 31) by apply Hcfg.
  unfold next_unique.
  pose proof (Z.mod_pos_bound (v + MAX_IDS) (2 ^ 64) ltac:(lia)) as Hb.
  fold (u64 (v + MAX_IDS)) in Hb.
  destruct (Z.eqb_spec (u64 (v + MAX_IDS)) 0) as [-> | Hne]; [| lia].
  unfold u64. rewrite Z.mod_small; lia.
Qed.

Lemma fuse_get_unique_ret fc cpu fc' uid :
  alloc_shape cfg fc -> fuse_get_unique cfg fc cpu = Ret (fc', uid) ->
  exists c v, per_cpu_ids fc !! cpu = Some c /\
    (pc_num_free_ids c = 0 -> 0 < num_free_ids fc) /\
    uid = next_unique cfg v /\ alloc_shape cfg fc' /\
    free_pool fc ≡ₚ v :: free_pool fc' /\
    request_map fc' = request_map fc /\ same_channel fc fc'.
Proof.
  intros Hs Hget.
  destruct (per_cpu_ids fc !! cpu) as [c |] eqn:Hc.
  - assert (Hroom : pc_num_free_ids c = 0 -> 0 < num_free_ids fc).
    { intros Hz. destruct (decide (num_free_ids fc = 0)) as [Hg | Hg].
      - unfold fuse_get_unique, per_cpu_ptr in Hget.
        rewrite Hc in Hget. cbn in Hget. by rewrite Hz, Hg in Hget.
      - destruct Hs as (_ & ? & _). lia. }
    destruct (fuse_get_unique_ok cfg Hcfg fc cpu c Hs Hc Hroom)
      as (fc1 & v & Heq & Hs1 & Hperm & Hmap & Hsame).
    rewrite Heq in Hget. injection Hget as <- <-.
    exists c, v. do 6 (split; [done |]). done.
  - unfold fuse_get_unique, per_cpu_ptr in Hget. by rewrite Hc in Hget.
Qed.

Lemma fuse_put_unique_ret fc cpu uid fc' :
  alloc_shape cfg fc -> fuse_put_unique cfg fc cpu uid = Ret fc' ->
  alloc_shape cfg fc' /\ free_pool fc' ≡ₚ uid :: free_pool fc /\
  request_map fc' = <[Z.to_nat (slot_of cfg uid) := None]> (request_map fc) /\
  same_channel fc fc'.
Proof.
  intros Hs Hput.
  assert (Hpc : 2 <= PER_CPU < 2 ^ 31) by apply Hcfg.
  assert (Hmax : 0 < MAX_IDS < 2 ^ 31) by apply Hcfg.
  destruct (per_cpu_ids fc !! cpu) as [c |] eqn:Hc.
  - destruct (decide (pc_num_free_ids c = PER_CPU /\
                      MAX_IDS < num_free_ids fc + PER_CPU / 2))
      as [[Hfull Hg] | Hn].
    + unfold fuse_put_unique, per_cpu_ptr in Hput.
      rewrite Hc in Hput. cbn in Hput.
      rewrite Hfull, Z.eqb_refl in Hput.
      assert (Hhalf : PER_CPU / 2 <= PER_CPU)
        by (apply Z.div_le_upper_bound; lia).
      destruct Hs as (_ & ? & _).
      rewrite u32_small in Hput by lia.
      destruct (Z.gtb_spec (num_free_ids fc + PER_CPU / 2) MAX_IDS);
        [done | lia].
    + destruct (fuse_put_unique_ok cfg Hcfg fc cpu c uid Hs Hc)
        as (fc1 & Heq & Hs1 & Hperm & Hmap & Hsame); [lia |].
      rewrite Heq in Hput. by injection Hput as <-.
  - unfold fuse_put_unique, per_cpu_ptr in Hput. by rewrite Hc in Hput.
Qed.

Lemma fuse_get_unique_slot_free fc cpu fc' uid :
  conn_inv cfg fc ->
  fuse_get_unique cfg fc cpu = Ret (fc', uid) ->
  0 < uid < 2 ^ 64 /\
  request_map fc' !! Z.to_nat (slot_of cfg uid) = Some None.
Proof.
  intros (Hs & Htab & Hnd) Hget.
  destruct (fuse_get_unique_ret _ _ _ _ Hs Hget)
    as (c & v & _ & _ & -> & _ & Hperm & Hmap & _).
  split; [apply next_unique_range |].
  rewrite Hmap, (slot_of_next_unique cfg Hcfg).
  pose proof (slot_of_range cfg Hcfg v) as Hr.
  destruct Hs as (_ & _ & _ & Hlen).
  destruct (lookup_lt_is_Some_2 (request_map fc) (Z.to_nat (slot_of cfg v)))
    as [[req |] Hslot]; [lia | | done].
  exfalso.
  destruct (Htab _ _ Hslot) as (r & Hr1 & Hr2).
  rewrite Hperm in Hnd. cbn in Hnd. apply NoDup_cons in Hnd as [Hnot _].
  apply Hnot. rewrite fmap_app. apply elem_of_app. right.
  apply list_elem_of_fmap. exists (ih_unique (in_h r)). split; [lia |].
  apply list_elem_of_fmap. exists req. split.
  - unfold unique_at. by rewrite Hr1.
  - unfold registered. apply list_elem_of_omap. exists (Some req).
    split; [by eapply list_elem_of_lookup_2 | done].
Qed.

(** X1: on a connection that satisfies the invariant, an identifier that
    [fuse_get_unique] returns is never 0, the value by which
    [fuse_dev_do_write] tells a notification from a completion; its slot in
    the slot table is NULL, so that registering the request there, as
    [fuse_request_send_nowait] does next, overwrites no request in flight;
    and no registered request carries it. *)
Theorem fuse_get_unique_fresh_slot fc cpu fc' uid :
  conn_inv cfg fc ->
  fuse_get_unique cfg fc cpu = Ret (fc', uid) ->
  0 < uid < 2 ^ 64 /\
  request_map fc' !! Z.to_nat (slot_of cfg uid) = Some None /\
  uid ∉ unique_at (mem fc) <$> registered fc.
Proof.
  intros Hinv Hget.
  destruct (fuse_get_unique_slot_free _ _ _ _ Hinv Hget) as (Hu & Hslot).
  split; [done |]. split; [done |].
  destruct Hinv as (Hs & Htab & _).
  destruct (fuse_get_unique_ret _ _ _ _ Hs Hget)
    as (_ & _ & _ & _ & _ & _ & _ & Hmap & _).
  rewrite Hmap in Hslot.
  intros Hin. apply list_elem_of_fmap in Hin as (req & Huid & Hreq).
  apply (registered_at fc) in Hreq as (i & Hi).
  destruct (Htab _ _ Hi) as (r & Hr & Hri).
  unfold unique_at in Huid. rewrite Hr in Huid. subst uid.
  rewrite Hri, Nat2Z.id in Hslot. congruence.
Qed.

(** The slots of the free pool and of the held identifiers along a run of
    the allocator's clients. *)
Lemma alloc_run_conserves s ops s' :
  alloc_run cfg s ops s' -> alloc_shape cfg s.1 ->
  alloc_shape cfg s'.1 /\
  slot_of cfg <$> (free_pool s'.1 ++ s'.2)
    ≡ₚ slot_of cfg <$> (free_pool s.1 ++ s.2) /\
  length (per_cpu_ids s'.1) = length (per_cpu_ids s.1).
Proof.
  induction 1 as [s | s op s1 ops s2 Hstep _ IH]; intros Hs; [done |].
  assert (Hone : alloc_shape cfg s1.1 /\
                 slot_of cfg <$> (free_pool s1.1 ++ s1.2)
                   ≡ₚ slot_of cfg <$> (free_pool s.1 ++ s.2) /\
                 length (per_cpu_ids s1.1) = length (per_cpu_ids s.1)).
  { destruct Hstep as [fc held cpu fc' uid Hget
                      | fc h1 h2 cpu uid fc' Hput]; cbn in *.
    - destruct (fuse_get_unique_ret _ _ _ _ Hs Hget)
        as (c & v & _ & _ & -> & Hs' & Hperm & _ & Hsame).
      split; [done |]. split; [| apply Hsame].
      rewrite Hperm, !fmap_app, !fmap_cons, (slot_of_next_unique cfg Hcfg).
      solve_Permutation.
    - destruct (fuse_put_unique_ret _ _ _ _ Hs Hput)
        as (Hs' & Hperm & _ & Hsame).
      split; [done |]. split; [| apply Hsame].
      rewrite Hperm, !fmap_app, !fmap_cons. solve_Permutation. }
  destruct Hone as (Hs1 & Hp1 & Hl1).
  destruct (IH Hs1) as (Hs2 & Hp2 & Hl2).
  split; [done |]. split; [by rewrite Hp2 | by rewrite Hl2].
Qed.

Lemma fuse_conn_init_slot_list ncpus :
  slot_of cfg <$> free_pool (fuse_conn_init cfg ncpus)
  = reverse (Z.of_nat <$> seq 0 (Z.to_nat MAX_IDS)).
Proof.
  assert (Hmax : 0 < MAX_IDS < 2 ^ 31) by apply Hcfg.
  rewrite fuse_conn_init_pool.
  change (map ?f ?l) with (f <$> l). rewrite <- list_fmap_compose.
  rewrite <- fmap_reverse.
  apply list_eq. intros i.
  rewrite !list_lookup_fmap.
  destruct (decide (i < Z.to_nat MAX_IDS)%nat) as [Hi | Hi].
  - rewrite reverse_lookup by (rewrite length_seq; lia).
    rewrite length_seq, !lookup_seq_lt by lia. cbn.
    f_equal. rewrite (slot_of_mod cfg Hcfg), Z.mod_small; lia.
  - rewrite !(lookup_ge_None_2 _ i); [done | |].
    + rewrite length_reverse, length_seq. lia.
    + rewrite length_seq. lia.
Qed.

(** X2: from the state [fuse_conn_init] leaves, after any calls of
    [fuse_get_unique] and [fuse_put_unique] that release held identifiers
    only, every slot 0 .. FUSE_MAX_REQUEST_IDS - 1 belongs to exactly one
    identifier, which is either free (in the global pool or a CPU cache) or
    held: no identifier is lost and none is made up. *)
Theorem identifier_conservation ncpus ops fc held :
  alloc_run cfg (fuse_conn_init cfg ncpus, []) ops (fc, held) ->
  slot_of cfg <$> (free_pool fc ++ held)
    ≡ₚ Z.of_nat <$> seq 0 (Z.to_nat MAX_IDS).
Proof.
  intros Hrun.
  destruct (alloc_run_conserves _ _ _ Hrun) as (_ & Hperm & _).
  { apply (fuse_conn_init_shape cfg Hcfg). }
  cbn in Hperm. rewrite Hperm, app_nil_r, fuse_conn_init_slot_list.
  apply reverse_Permutation.
Qed.

Lemma alloc_run_slots_distinct ncpus ops fc held :
  alloc_run cfg (fuse_conn_init cfg ncpus, []) ops (fc, held) ->
  NoDup (slot_of cfg <$> (free_pool fc ++ held)).
Proof.
  intros Hrun.
  destruct (alloc_run_conserves _ _ _ Hrun) as (_ & Hperm & _).
  { apply (fuse_conn_init_shape cfg Hcfg). }
  cbn in Hperm. rewrite Hperm, app_nil_r.
  apply (fuse_conn_init_slots cfg Hcfg).
Qed.

Lemma alloc_run_count ncpus ops fc held :
  alloc_run cfg (fuse_conn_init cfg ncpus, []) ops (fc, held) ->
  alloc_shape cfg fc /\ length (per_cpu_ids fc) = ncpus /\
  Z.of_nat (length (free_pool fc) + length held) = MAX_IDS.
Proof.
  intros Hrun.
  assert (Hmax : 0 < MAX_IDS < 2 ^ 31) by apply Hcfg.
  destruct (alloc_run_conserves _ _ _ Hrun) as (Hs & Hperm & Hlen).
  { apply (fuse_conn_init_shape cfg Hcfg). }
  cbn in *. split; [done |]. split.
  - by rewrite Hlen, length_replicate.
  - apply Permutation_length in Hperm.
    rewrite !length_fmap, !length_app in Hperm. rewrite Hperm.
    rewrite fuse_conn_init_pool.
    cbn. rewrite length_map, length_seq. lia.
Qed.

(** The identifiers in the caches of the CPUs other than [cpu]. *)
Lemma cpu_pools_bound (l : list fuse_per_cpu_ids) cpu c :
  Forall (cpu_shape cfg) l -> l !! cpu = Some c ->
  Z.of_nat (length (concat (cpu_pool <$> l)))
  <= pc_num_free_ids c + (Z.of_nat (length l) - 1) * PER_CPU.
Proof.
  assert (Hpc : 2 <= PER_CPU < 2 ^ 31) by apply Hcfg.
  assert (Hall : forall l : list fuse_per_cpu_ids, Forall (cpu_shape cfg) l ->
            Z.of_nat (length (concat (cpu_pool <$> l)))
            <= Z.of_nat (length l) * PER_CPU).
  { induction 1 as [| x l' [Hx Hxl] _ IH]; cbn; [lia |].
    rewrite length_app. unfold cpu_pool at 1. rewrite length_take. lia. }
  intros Hl. revert cpu. induction Hl as [| x l' [Hx Hxl] Hl' IH];
    intros cpu Hc; [done |].
  cbn [fmap list_fmap concat length]. rewrite length_app.
  destruct cpu as [| cpu]; cbn in Hc.
  - injection Hc as ->. specialize (Hall _ Hl').
    unfold cpu_pool at 1. rewrite length_take. lia.
  - specialize (IH _ Hc). unfold cpu_pool at 1. rewrite length_take. lia.
Qed.

Lemma free_pool_length fc cpu c :
  alloc_shape cfg fc -> per_cpu_ids fc !! cpu = Some c ->
  Z.of_nat (length (free_pool fc))
  <= num_free_ids fc + pc_num_free_ids c
     + (Z.of_nat (length (per_cpu_ids fc)) - 1) * PER_CPU.
Proof.
  intros (Hlen & Hnum & Hcpus & _) Hc.
  unfold free_pool. rewrite length_app, length_take.
  pose proof (cpu_pools_bound _ _ _ Hcpus Hc). lia.
Qed.

(** X3: [fuse_get_unique] cannot run out while the identifiers in flight
    leave more free ones than the caches of the other CPUs can hold: with
    [held] identifiers in flight on a machine of [ncpus] CPUs, the call
    returns whenever held + (ncpus - 1) * FUSE_MAX_PER_CPU_IDS is below
    FUSE_MAX_REQUEST_IDS. *)
Theorem fuse_get_unique_capacity ncpus ops fc held cpu :
  alloc_run cfg (fuse_conn_init cfg ncpus, []) ops (fc, held) ->
  (cpu < ncpus)%nat ->
  Z.of_nat (length held) + (Z.of_nat ncpus - 1) * PER_CPU < MAX_IDS ->
  exists fc' uid, fuse_get_unique cfg fc cpu = Ret (fc', uid) /\
    (uid ∉ held) /\ (slot_of cfg uid ∉ slot_of cfg <$> held).
Proof.
  intros Hrun Hcpu Hroom.
  destruct (alloc_run_count _ _ _ _ Hrun) as (Hs & Hn & Hcount).
  destruct (lookup_lt_is_Some_2 (per_cpu_ids fc) cpu) as [c Hc]; [lia |].
  pose proof (free_pool_length _ _ _ Hs Hc) as Hfree. rewrite Hn in Hfree.
  destruct (fuse_get_unique_ok cfg Hcfg fc cpu c Hs Hc)
    as (fc' & v & Hget & _ & Hperm & _); [lia |].
  exists fc', (next_unique cfg v). split; [done |].
  assert (Hnd : NoDup (slot_of cfg <$> (free_pool fc ++ held))).
  { by eapply alloc_run_slots_distinct. }
  rewrite Hperm in Hnd. cbn in Hnd. apply NoDup_cons in Hnd as [Hnot _].
  rewrite fmap_app in Hnot.
  assert (Hslot : slot_of cfg (next_unique cfg v) ∉ slot_of cfg <$> held).
  { rewrite (slot_of_next_unique cfg Hcfg). intros Hin. apply Hnot.
    apply elem_of_app. by right. }
  split; [| done].
  intros Hin. apply Hslot. by apply list_elem_of_fmap_2.
Qed.


(** X4: on a connection whose arrays have their shape, [fuse_get_unique]
    either returns or stops at its BUG_ON, and it stops exactly when the
    cache of the calling CPU and the global pool are both empty, whatever
    the caches of the other CPUs hold. *)
Theorem fuse_get_unique_exhausted fc cpu c :
  alloc_shape cfg fc -> per_cpu_ids fc !! cpu = Some c ->
  (pc_num_free_ids c = 0 /\ num_free_ids fc = 0 ->
   fuse_get_unique cfg fc cpu = BugOn) /\
  (~ (pc_num_free_ids c = 0 /\ num_free_ids fc = 0) ->
   exists fc' uid, fuse_get_unique cfg fc cpu = Ret (fc', uid) /\
     Z.of_nat (length (free_pool fc')) = Z.of_nat (length (free_pool fc)) - 1).
Proof.
  intros Hs Hc. split.
  - intros [Hz Hg]. unfold fuse_get_unique, per_cpu_ptr.
    rewrite Hc. cbn. by rewrite Hz, Hg.
  - intros Hn.
    destruct (fuse_get_unique_ok cfg Hcfg fc cpu c Hs Hc)
      as (fc' & v & Hget & _ & Hperm & _).
    { destruct Hs as (_ & ? & _). lia. }
    exists fc', (next_unique cfg v). split; [done |].
    apply Permutation_length in Hperm. cbn in Hperm. lia.
Qed.


Lemma fuse_get_unique_pop fc cpu c v :
  per_cpu_ids fc !! cpu = Some c ->
  0 < pc_num_free_ids c < 2 ^ 32 ->
  pc_free_ids c !! Z.to_nat (pc_num_free_ids c - 1) = Some v ->
  fuse_get_unique cfg fc cpu
  = Ret (set_cpu_ids cpu {| pc_num_free_ids := pc_num_free_ids c - 1;
                            pc_free_ids := pc_free_ids c |} fc,
         next_unique cfg v).
Proof.
  intros Hc Hn Hv. unfold fuse_get_unique, per_cpu_ptr. rewrite Hc. cbn.
  destruct (Z.eqb_spec (pc_num_free_ids c) 0) as [? | _]; [lia |]. cbn.
  rewrite (u32_small (pc_num_free_ids c - 1)) by lia.
  unfold array_get. rewrite decide_True by lia. rewrite Hv. cbn.
  reflexivity.
Qed.

Lemma fuse_put_unique_top fc cpu uid fc1 :
  alloc_shape cfg fc -> fuse_put_unique cfg fc cpu uid = Ret fc1 ->
  exists c1, per_cpu_ids fc1 !! cpu = Some c1 /\
    0 < pc_num_free_ids c1 <= PER_CPU /\
    pc_free_ids c1 !! Z.to_nat (pc_num_free_ids c1 - 1) = Some uid.
Proof.
  intros (Hlen & Hnum & Hcpus & Hmap) Hput.
  assert (Hpc : 2 <= PER_CPU < 2 ^ 31) by apply Hcfg.
  assert (Hhalf : 1 <= PER_CPU / 2 <= PER_CPU).
  { split; [apply Z.div_le_lower_bound; lia
           | apply Z.div_le_upper_bound; lia]. }
  unfold fuse_put_unique, per_cpu_ptr in Hput.
  destruct (per_cpu_ids fc !! cpu) as [c |] eqn:Hc; [| done].
  cbn in Hput.
  destruct (Forall_lookup_1 _ _ _ _ Hcpus Hc) as [Hcn Hcl].
  assert (Hlt : (cpu < length (per_cpu_ids fc))%nat)
    by (by eapply lookup_lt_Some).
  assert (Hgo : forall fc0 c0,
            length (per_cpu_ids fc0) = length (per_cpu_ids fc) ->
            0 <= pc_num_free_ids c0 < PER_CPU ->
            Z.of_nat (length (pc_free_ids c0)) = PER_CPU ->
            (ids ← array_set (pc_free_ids c0) (pc_num_free_ids c0) uid;
             map ← array_set (request_map fc0) (slot_of cfg uid) None;
             Ret (set_request_map map
                    (set_cpu_ids cpu
                       {| pc_num_free_ids := u32 (pc_num_free_ids c0 + 1);
                          pc_free_ids := ids |} fc0))) = Ret fc1 ->
            exists c1, per_cpu_ids fc1 !! cpu = Some c1 /\
              0 < pc_num_free_ids c1 <= PER_CPU /\
              pc_free_ids c1 !! Z.to_nat (pc_num_free_ids c1 - 1) = Some uid).
  { intros fc0 c0 Hl0 Hn0 Hlen0 Hrun.
    bind_inv Hrun. bind_inv Hrun. injection Hrun as <-.
    unfold array_set in E. rewrite decide_True in E by lia.
    injection E as <-. cbn.
    eexists. split.
    - apply list_lookup_insert_eq. lia.
    - cbn. rewrite u32_small by lia. split; [lia |].
      replace (pc_num_free_ids c0 + 1 - 1) with (pc_num_free_ids c0) by lia.
      apply list_lookup_insert_eq. lia. }
  destruct (Z.eqb_spec (pc_num_free_ids c) PER_CPU) as [Hfull | Hnot].
  - destruct (u32 (num_free_ids fc + PER_CPU / 2) >? MAX_IDS); [done |].
    bind_inv Hput. bind_inv E. injection E as <-. cbn in Hput.
    eapply (Hgo _ {| pc_num_free_ids := u32 (pc_num_free_ids c - PER_CPU / 2);
                     pc_free_ids := pc_free_ids c |}); [| | | exact Hput];
      cbn; [done | rewrite u32_small by lia; lia | done].
  - cbn in Hput. eapply (Hgo fc c); [done | lia | done | exact Hput].
Qed.

Lemma next_unique_fresh uid : next_unique cfg uid <> uid.
Proof.
  assert (Hmax : 0 < MAX_IDS < 2 ^ 31) by apply Hcfg.
  pose proof (next_unique_range uid) as Hr.
  destruct (decide (0 <= uid < 2 ^ 64)) as [Hu | Hu]; [| lia].
  unfold next_unique in *.
  destruct (Z.eqb_spec (u64 (uid + MAX_IDS)) 0) as [Hz | Hnz].
  - rewrite Hz in *. unfold u64 in *. rewrite Z.mod_small by lia.
    intros <-. rewrite Z.mod_small in Hz; lia.
  - unfold u64 in *.
    destruct (decide (uid + MAX_IDS < 2 ^ 64)).
    + rewrite Z.mod_small by lia. lia.
    + replace (uid + MAX_IDS) with (uid + MAX_IDS - 2 ^ 64 + 1 * 2 ^ 64) by lia.
      rewrite Z.mod_add by lia. rewrite Z.mod_small by lia. lia.
Qed.

(** X6: an identifier released with [fuse_put_unique] is the next one
    [fuse_get_unique] hands out on the same CPU, advanced by
    FUSE_MAX_REQUEST_IDS: the new identifier has the same slot and is never
    equal to the released one, so a late completion for the old identifier
    cannot be taken for the new request.  The free identifiers are as
    before the two calls. *)
Theorem release_then_acquire fc cpu uid fc1 :
  alloc_shape cfg fc -> fuse_put_unique cfg fc cpu uid = Ret fc1 ->
  exists fc2,
    fuse_get_unique cfg fc1 cpu = Ret (fc2, next_unique cfg uid) /\
    slot_of cfg (next_unique cfg uid) = slot_of cfg uid /\
    next_unique cfg uid <> uid /\
    free_pool fc2 ≡ₚ free_pool fc.
Proof.
  intros Hs Hput.
  assert (Hpc : 2 <= PER_CPU < 2 ^ 31) by apply Hcfg.
  destruct (fuse_put_unique_top _ _ _ _ Hs Hput) as (c1 & Hc1 & Hn1 & Htop).
  destruct (fuse_put_unique_ret _ _ _ _ Hs Hput) as (Hs1 & Hperm & _).
  rewrite (fuse_get_unique_pop fc1 cpu c1 uid Hc1 ltac:(lia) Htop).
  eexists. split; [reflexivity |].
  split; [apply (slot_of_next_unique cfg Hcfg) |].
  split; [apply next_unique_fresh |].
  apply (Permutation_cons_inv (a := uid)). rewrite <- Hperm.
  unfold free_pool. cbn.
  destruct (pool_split (per_cpu_ids fc1) cpu c1 Hc1) as (A & B & HA & HB).
  rewrite HA, HB. unfold cpu_pool. cbn.
  destruct (take_pop (pc_free_ids c1) (pc_num_free_ids c1)) as (v & Hv & Htake).
  { destruct Hs1 as (_ & _ & Hcpus & _).
    destruct (Forall_lookup_1 _ _ _ _ Hcpus Hc1) as [? ?]. lia. }
  rewrite Htop in Hv. injection Hv as <-.
  rewrite Htake. solve_Permutation.
Qed.

(** ** Submission *)

Lemma u32_add_l a b : u32 (u32 a + b) = u32 (a + b).
Proof. unfold u32. by rewrite Zplus_mod_idemp_l. Qed.

Lemma len_args_from_sum budget : forall i args nbytes,
  0 <= i -> i + Z.of_nat budget <= Z.of_nat (length args) ->
  len_args_from budget i (i + Z.of_nat budget) args (u32 nbytes)
  = Ret (u32 (nbytes + sum_sizes (take budget (drop (Z.to_nat i) args)))).
Proof.
  induction budget as [| n IH]; intros i args nbytes Hi Hlen.
  - cbn. rewrite Z.add_0_r, Z.ltb_irrefl, take_0. cbn. by rewrite Z.add_0_r.
  - cbn [len_args_from].
    destruct (Z.ltb_spec i (i + Z.of_nat (S n))) as [_ | ?]; [| lia].
    unfold array_get. rewrite decide_True by lia.
    destruct (lookup_lt_is_Some_2 args (Z.to_nat i)) as [size Hsize]; [lia |].
    rewrite Hsize. cbn [of_option mbind result_bind].
    rewrite u32_add_l.
    replace (i + Z.of_nat (S n)) with (i + 1 + Z.of_nat n) by lia.
    rewrite IH by lia. f_equal. f_equal.
    replace (Z.to_nat (i + 1)) with (S (Z.to_nat i)) by lia.
    rewrite (drop_S _ _ _ Hsize). unfold sum_sizes. cbn [take foldr]. lia.
Qed.

(** X7: [len_args] returns the sum of the first [numargs] argument sizes
    modulo 2^32. *)
Theorem len_args_sum numargs args :
  0 <= numargs <= Z.of_nat (length args) ->
  len_args numargs args
  = Ret (u32 (sum_sizes (take (Z.to_nat numargs) args))).
Proof.
  intros Hn. unfold len_args.
  pose proof (len_args_from_sum (Z.to_nat numargs) 0 args 0) as H.
  rewrite Z2Nat.id, Z.add_0_l in H by lia.
  change (u32 0) with 0 in H. rewrite H by lia.
  by rewrite Z.add_0_l, drop_0.
Qed.

Lemma queue_request_sequence fc req fc' :
  queue_request cfg fc req = Ret fc' ->
  w_sequence (queue fc') = u64 (w_sequence (queue fc) + 1).
Proof.
  unfold queue_request, deref. intros H.
  bind_inv H. bind_inv H.
  destruct (mem fc !! req) as [r |] eqn:Hr; [| done].
  cbn [of_option mbind result_bind] in H. injection H as <-. cbn.
  assert (Hseq : w_sequence a = w_sequence (queue fc)).
  { destruct (w_read (queue fc) =? _); [| by injection E as <-].
    cbn in E. destruct (_ =? _); [done |]. by injection E as <-. }
  by rewrite Hseq.
Qed.

(** What a submission on a channel that accepts it leaves behind. *)
Lemma fuse_request_send_nowait_post fc cpu cpu' req r c :
  conn_inv cfg fc ->
  connected fc || allow_disconnected fc = true ->
  per_cpu_ids fc !! cpu = Some c ->
  (pc_num_free_ids c = 0 -> 0 < num_free_ids fc) ->
  mem fc !! req = Some r -> req ∉ registered fc ->
  0 <= in_numargs r <= Z.of_nat (length (in_args r)) ->
  queue_shape cfg (queue fc) ->
  pending_count cfg (queue fc) + 1 < QUEUE_SIZE ->
  exists fc' uid,
    fuse_request_send_nowait cfg fc cpu cpu' req = Ret fc' /\
    conn_inv cfg fc' /\
    pending_queue cfg (queue fc') = pending_queue cfg (queue fc) ++ [Some req] /\
    0 < uid < 2 ^ 64 /\
    mem fc' = <[req := set_sequence (w_sequence (queue fc))
                         (set_in_unique uid
                            (set_in_len
                               (u32 (sizeof_fuse_in_header cfg
                                     + u32 (sum_sizes
                                              (take (Z.to_nat (in_numargs r))
                                                 (in_args r))))) r))]>
                (mem fc) /\
    request_map fc'
    = <[Z.to_nat (slot_of cfg uid) := Some req]> (request_map fc) /\
    request_map fc !! Z.to_nat (slot_of cfg uid) = Some None /\
    w_sequence (queue fc') = u64 (w_sequence (queue fc) + 1) /\
    log fc' = log fc ++ [EvWakeup].
Proof.
  intros Hinv Hconn Hc Havail Hreq Hfresh Hargs Hshape Hroom.
  destruct (fuse_request_send_nowait_inv cfg Hcfg fc cpu cpu' req r c
              Hinv Hconn Hc Havail Hreq Hfresh Hargs Hshape Hroom)
    as (fc' & Hrun & Hinv' & Hpq & _).
  pose proof Hrun as Hrun'.
  unfold fuse_request_send_nowait, deref in Hrun'. rewrite Hreq in Hrun'.
  cbn [of_option mbind result_bind] in Hrun'.
  assert (Hla : len_args (in_numargs r) (in_args r)
                = Ret (u32 (sum_sizes (take (Z.to_nat (in_numargs r))
                                         (in_args r))))).
  { unfold len_args.
    pose proof (len_args_from_sum (Z.to_nat (in_numargs r)) 0 (in_args r) 0) as H.
    rewrite Z2Nat.id, Z.add_0_l in H by lia.
    change (u32 0) with 0 in H. rewrite H by lia.
    by rewrite Z.add_0_l, drop_0. }
  rewrite Hla in Hrun'.
  cbn [mbind result_bind] in Hrun'.
  bind_inv Hrun'. destruct a as [fc1 uid]. bind_inv Hrun'.
  destruct Hinv as (Hs & Htab & Hnd).
  destruct (fuse_get_unique_slot_free fc cpu fc1 uid) as (Hu & Hempty);
    [exact (conj Hs (conj Htab Hnd)) | done |].
  destruct (fuse_get_unique_ret _ _ _ _ Hs E)
    as (_ & _ & _ & _ & _ & _ & _ & Hmap1
        & Hc1 & Ha1 & Hq1 & Hm1 & Hl1 & Hn1).
  cbn [connected allow_disconnected set_request_map store set_mem] in Hrun'.
  rewrite Hc1, Ha1, Hconn in Hrun'.
  bind_inv Hrun'. injection Hrun' as <-.
  destruct (queue_request_frame cfg _ _ _ E1)
    as (r1' & Hr1' & Hmem2 & Hmap2 & _ & _ & _ & Hlog2 & _).
  pose proof (queue_request_sequence _ _ _ E1) as Hseq2.
  cbn in Hr1', Hmem2, Hmap2, Hlog2, Hseq2.
  rewrite lookup_insert_eq in Hr1'. injection Hr1' as <-.
  unfold array_set in E0. cbn in E0.
  destruct (decide _) in E0; [| done]. injection E0 as <-.
  exists (fuse_conn_wakeup a0), uid.
  split; [done |]. split; [done |]. split; [done |]. split; [done |].
  cbn. rewrite Hmem2, Hmap2, Hlog2, Hseq2, Hq1, Hm1, Hl1, Hmap1.
  rewrite insert_insert_eq. rewrite Hmap1 in Hempty. done.
Qed.

Lemma u32_add_r a b : u32 (a + u32 b) = u32 (a + b).
Proof. unfold u32. by rewrite Zplus_mod_idemp_r. Qed.

(** X8: a request submitted with [fuse_request_send_nowait] on a channel
    that accepts it is the one [request_find] returns for the identifier
    the submission gave it, an identifier other than 0; lookups of
    identifiers of other slots answer as before the submission. *)
Theorem fuse_request_send_nowait_find fc cpu cpu' req r c :
  conn_inv cfg fc ->
  connected fc || allow_disconnected fc = true ->
  per_cpu_ids fc !! cpu = Some c ->
  (pc_num_free_ids c = 0 -> 0 < num_free_ids fc) ->
  mem fc !! req = Some r -> req ∉ registered fc ->
  0 <= in_numargs r <= Z.of_nat (length (in_args r)) ->
  queue_shape cfg (queue fc) ->
  pending_count cfg (queue fc) + 1 < QUEUE_SIZE ->
  exists fc' uid,
    fuse_request_send_nowait cfg fc cpu cpu' req = Ret fc' /\
    uid <> 0 /\ unique_at (mem fc') req = uid /\
    request_find cfg fc' uid = Ret (Some req) /\
    forall u, slot_of cfg u <> slot_of cfg uid ->
      request_find cfg fc' u = request_find cfg fc u.
Proof.
  intros Hinv Hconn Hc Havail Hreq Hfresh Hargs Hshape Hroom.
  destruct (fuse_request_send_nowait_post fc cpu cpu' req r c
              Hinv Hconn Hc Havail Hreq Hfresh Hargs Hshape Hroom)
    as (fc' & uid & Hrun & _ & _ & Hu & Hmem & Hmap & Hempty & _).
  assert (Hlen : Z.of_nat (length (request_map fc)) = MAX_IDS)
    by (by destruct Hinv as ((_ & _ & _ & ?) & _)).
  pose proof (slot_of_range cfg Hcfg uid) as Hs.
  assert (Hmax : 0 < MAX_IDS < 2 ^ 31) by apply Hcfg.
  exists fc', uid. split; [done |]. split; [lia |].
  assert (Hat : unique_at (mem fc') req = uid).
  { unfold unique_at. by rewrite Hmem, lookup_insert_eq. }
  split; [done |]. split.
  - destruct (mem fc' !! req) as [r' |] eqn:Hreq';
      [| by rewrite Hmem, lookup_insert_eq in Hreq'].
    rewrite (request_find_slot cfg fc' uid req r'); [| | exact Hreq'].
    + unfold unique_at in Hat. rewrite Hreq' in Hat.
      by rewrite Hat, Z.eqb_refl.
    + rewrite Hmap, u32_small by lia. apply list_lookup_insert_eq. lia.
  - intros u Hne. pose proof (slot_of_range cfg Hcfg u) as Hsu.
    unfold request_find. rewrite Hmap.
    unfold array_get. rewrite !decide_True by apply u32_nonneg.
    rewrite u32_small by lia.
    rewrite list_lookup_insert_ne by lia.
    destruct (request_map fc !! Z.to_nat (slot_of cfg u)) as [[q |] |] eqn:Hq;
      [| done | done].
    cbn. unfold deref. rewrite Hmem.
    rewrite lookup_insert_ne; [done |].
    intros <-. apply Hfresh. unfold registered.
    apply list_elem_of_omap. exists (Some req).
    split; [by eapply list_elem_of_lookup_2 | done].
Qed.

(** X9: a submission on a channel that accepts it sets [in.h.len] to the
    size of the header plus the sizes of the [numargs] arguments (modulo
    2^32), stamps the request with the sequence number the queue held and
    advances that number by one, puts the request at the end of the
    pending queue and wakes the reader once; opcode, arguments, reply
    header and block request are as the submitter left them. *)
Theorem fuse_request_send_nowait_stamps fc cpu cpu' req r c :
  conn_inv cfg fc ->
  connected fc || allow_disconnected fc = true ->
  per_cpu_ids fc !! cpu = Some c ->
  (pc_num_free_ids c = 0 -> 0 < num_free_ids fc) ->
  mem fc !! req = Some r -> req ∉ registered fc ->
  0 <= in_numargs r <= Z.of_nat (length (in_args r)) ->
  queue_shape cfg (queue fc) ->
  pending_count cfg (queue fc) + 1 < QUEUE_SIZE ->
  exists fc' r',
    fuse_request_send_nowait cfg fc cpu cpu' req = Ret fc' /\
    mem fc' !! req = Some r' /\
    ih_len (in_h r')
    = u32 (sizeof_fuse_in_header cfg
           + sum_sizes (take (Z.to_nat (in_numargs r)) (in_args r))) /\
    sequence r' = w_sequence (queue fc) /\
    w_sequence (queue fc') = u64 (w_sequence (queue fc) + 1) /\
    pending_queue cfg (queue fc') = pending_queue cfg (queue fc) ++ [Some req] /\
    log fc' = log fc ++ [EvWakeup] /\
    ih_opcode (in_h r') = ih_opcode (in_h r) /\ in_args r' = in_args r /\
    out_h r' = out_h r /\ rq r' = rq r /\ end_ r' = end_ r.
Proof.
  intros Hinv Hconn Hc Havail Hreq Hfresh Hargs Hshape Hroom.
  destruct (fuse_request_send_nowait_post fc cpu cpu' req r c
              Hinv Hconn Hc Havail Hreq Hfresh Hargs Hshape Hroom)
    as (fc' & uid & Hrun & _ & Hpq & _ & Hmem & _ & _ & Hseq & Hlog).
  eexists fc', _. split; [done |].
  split; [rewrite Hmem; apply lookup_insert_eq |].
  cbn. rewrite u32_add_r. by repeat split.
Qed.

(** ** Completions *)

Lemma free_pool_store req r fc : free_pool (store req r fc) = free_pool fc.
Proof. reflexivity. Qed.

Lemma conn_inv_store fc req r r' :
  conn_inv cfg fc -> mem fc !! req = Some r ->
  ih_unique (in_h r') = ih_unique (in_h r) ->
  conn_inv cfg (store req r' fc).
Proof.
  intros (Hs & Htab & Hnd) Hreq Hu.
  assert (Hat : forall q, unique_at (mem (store req r' fc)) q
                          = unique_at (mem fc) q).
  { intros q. unfold unique_at. cbn.
    destruct (decide (q = req)) as [-> | Hne].
    - by rewrite lookup_insert_eq, Hreq.
    - by rewrite lookup_insert_ne. }
  split; [exact Hs |]. split.
  - intros i q Hi. cbn in Hi. destruct (Htab i q Hi) as (rq & Hrq & Hsq).
    cbn. destruct (decide (q = req)) as [-> | Hne].
    + rewrite lookup_insert_eq. exists r'. split; [done |].
      rewrite Hu. congruence.
    + rewrite lookup_insert_ne by done. eauto.
  - rewrite free_pool_store.
    replace (unique_at (mem (store req r' fc)) <$> registered (store req r' fc))
      with (unique_at (mem fc) <$> registered fc); [done |].
    apply list_fmap_ext. intros _ q _. by rewrite Hat.
Qed.

Lemma registered_lookup fc (i : nat) req :
  request_map fc !! i = Some (Some req) -> req ∈ registered fc.
Proof.
  intros Hi. unfold registered. apply list_elem_of_omap.
  exists (Some req). split; [by eapply list_elem_of_lookup_2 | done].
Qed.

(** The checks of [fuse_dev_do_write] on the header of a completion. *)
Ltac write_header Hcopy Hdec oh iter :=
  unfold fuse_dev_do_write;
  destruct (Z.ltb_spec (count iter) (sizeof_fuse_out_header cfg)); [lia |];
  rewrite Hcopy, Z.eqb_refl; cbn [negb]; rewrite <- ?Hdec;
  destruct (Z.eqb_spec (oh_len oh) (count iter)); [| lia];
  cbn [negb];
  destruct (Z.eqb_spec (oh_unique oh) 0); [lia |];
  destruct (Z.leb_spec (oh_error oh) (-1000)); [lia |];
  destruct (Z.gtb_spec (oh_error oh) 0); [lia |];
  cbn [orb].

(** X10: a well-formed completion for a registered request retires it
    exactly once.  The write call returns the number of bytes written;
    [request_end] ran once on the request with the status the consumer
    sent; the request is out of the slot table, whose invariant holds
    again; and the same completion written a second time fails with
    -ENOENT and changes nothing.  (Stated for a completion that carries no
    payload to copy.) *)
Theorem fuse_dev_do_write_completes fc cpu iter bytes iter' (i : nat) req r :
  conn_inv cfg fc ->
  (cpu < length (per_cpu_ids fc))%nat ->
  request_map fc !! i = Some (Some req) -> mem fc !! req = Some r ->
  sizeof_fuse_out_header cfg <= count iter ->
  copy_from_iter (sizeof_fuse_out_header cfg) iter
    = (bytes, sizeof_fuse_out_header cfg, iter') ->
  oh_unique (decode_out_header cfg bytes) = ih_unique (in_h r) ->
  ih_unique (in_h r) <> 0 ->
  oh_len (decode_out_header cfg bytes) = count iter ->
  -1000 < oh_error (decode_out_header cfg bytes) <= 0 ->
  (ih_opcode (in_h r) <> PXD_READ cfg \/ count iter' <= 0
   \/ nr_phys_segments (rq r) = 0) ->
  exists res,
    fuse_dev_do_write cfg fc cpu iter = Ret res /\
    wr_ret res = count iter /\
    log (wr_fc res)
    = log fc ++ EvEnd req (oh_error (decode_out_header cfg bytes)) (end_ r)
               :: (if PX_BLKMQ cfg then [] else [EvFree req]) /\
    conn_inv cfg (wr_fc res) /\
    (req ∉ registered (wr_fc res)) /\
    ih_unique (in_h r) ∈ free_pool (wr_fc res) /\
    fuse_dev_do_write cfg (wr_fc res) cpu iter
    = Ret {| wr_fc := wr_fc res; wr_iter := iter'; wr_sent := [];
             wr_ret := - ENOENT |}.
Proof.
  intros Hinv Hcpu Hi Hreq Hlen Hcopy Hu Hnz Hoh Herr Hnopay.
  remember (decode_out_header cfg bytes) as oh eqn:Hdec.
  assert (Hmax : 0 < MAX_IDS < 2 ^ 31) by apply Hcfg.
  pose proof Hinv as (Hs & Htab & Hnd).
  destruct (Htab i req Hi) as (r0 & Hr0 & Hslot).
  rewrite Hreq in Hr0. injection Hr0 as <-.
  pose proof (slot_of_range cfg Hcfg (ih_unique (in_h r))) as Hrange.
  assert (Hfind : request_find cfg fc (oh_unique oh) = Ret (Some req)).
  { rewrite (request_find_slot cfg fc (oh_unique oh) req r); [| | done].
    - by rewrite Hu, Z.eqb_refl.
    - rewrite Hu, u32_small, Hslot, Nat2Z.id by lia. done. }
  set (r1 := set_out_h oh r).
  set (fcs := store req r1 (store req r1 fc)).
  assert (Hinvs : conn_inv cfg fcs).
  { eapply (conn_inv_store _ _ r1); [| cbn; apply lookup_insert_eq | done].
    by eapply conn_inv_store. }
  assert (His : request_map fcs !! i = Some (Some req)) by done.
  assert (Hreqs : mem fcs !! req = Some r1).
  { cbn. apply lookup_insert_eq. }
  destruct (request_end_inv cfg Hcfg fcs cpu i req Hinvs His Hcpu)
    as (fc' & Hend & Hinv' & Hreg').
  destruct (lookup_lt_is_Some_2 (per_cpu_ids fcs) cpu) as [c Hc]; [done |].
  destruct (request_end_ok cfg Hcfg fcs cpu req r1 c) as
    (fc'' & Hend' & _ & Hpool & Hmap' & Hlog' & _); [apply Hinvs | done | done | |].
  { pose proof (conn_inv_room cfg Hcfg fcs Hinvs) as Hroom.
    pose proof (registered_lookup fcs i req His) as Hin.
    destruct (registered fcs); [by apply elem_of_nil in Hin |].
    cbn in Hroom. lia. }
  rewrite Hend in Hend'. injection Hend' as <-.
  assert (Hnot : req ∉ registered fc').
  { rewrite Hreg'. intros Hin.
    by apply (registered_around cfg fcs i req req (proj1 (proj2 Hinvs)) His). }
  assert (Hfind' : request_find cfg fc' (oh_unique oh) = Ret None).
  { unfold request_find, array_get.
    rewrite decide_True by apply u32_nonneg.
    rewrite Hu, u32_small by lia. rewrite Hmap'. cbn [r1 set_out_h in_h].
    rewrite list_lookup_insert_eq; [done |].
    destruct Hs as (_ & _ & _ & Hl). cbn. lia. }
  exists {| wr_fc := fc'; wr_iter := iter'; wr_sent := []; wr_ret := count iter |}.
  cbn [wr_fc wr_ret].
  split; [| split; [done |]; split; [exact Hlog' |]; split; [done |];
            split; [done |]; split].
  - write_header Hcopy Hdec oh iter. rewrite Hfind. cbn [mbind result_bind].
    unfold deref. rewrite Hreq. cbn [of_option mbind result_bind].
    fold r1.
    assert (Hno : (ih_opcode (in_h r1) =? PXD_READ cfg) && (count iter' >? 0)
                  && negb (nr_phys_segments (rq r1) =? 0) = false).
    { cbn [r1 set_out_h in_h rq].
      destruct Hnopay as [Hop | [Hc0 | Hseg]].
      - by destruct (Z.eqb_spec (ih_opcode (in_h r)) (PXD_READ cfg)).
      - destruct (Z.gtb_spec (count iter') 0); [lia |].
        by rewrite andb_false_r.
      - rewrite Hseg. cbn. by rewrite andb_false_r. }
    rewrite Hno. cbn [negb]. fold fcs. rewrite Hend.
    reflexivity.
  - rewrite Hpool. cbn [r1 set_out_h in_h]. apply elem_of_cons. by left.
  - write_header Hcopy Hdec oh iter. by rewrite Hfind'.
Qed.

Lemma copy_from_iter_full n iter :
  0 <= n -> n <= count iter -> n <= user_ok iter ->
  copy_from_iter n iter
  = (take (Z.to_nat n) (data iter), n,
     {| count := count iter - n; user_ok := user_ok iter - n;
        data := drop (Z.to_nat n) (data iter); out := out iter |}).
Proof.
  intros H0 Hc Hu. unfold copy_from_iter.
  by replace (Z.max 0 (Z.min n (Z.min (count iter) (user_ok iter)))) with n
    by lia.
Qed.

Lemma copy_from_iter_short n iter :
  0 <= Z.min (count iter) (user_ok iter) < n ->
  (copy_from_iter n iter).1.2 <> n.
Proof. intros Hlt. unfold copy_from_iter. cbn. lia. Qed.

Lemma sum_sizes_cons x l : sum_sizes (x :: l) = x + sum_sizes l.
Proof. reflexivity. Qed.

Lemma sum_sizes_app l k : sum_sizes (l ++ k) = sum_sizes l + sum_sizes k.
Proof.
  induction l as [| x l IH]; [done |].
  rewrite <- app_comm_cons, !sum_sizes_cons, IH. lia.
Qed.

Lemma sum_lengths_nonneg {A} (segs : list (list A)) :
  0 <= sum_sizes (Z.of_nat ∘ length <$> segs).
Proof.
  induction segs as [| s l IH]; [done |].
  rewrite fmap_cons, sum_sizes_cons. cbn. lia.
Qed.

Lemma write_segments_spec segs iter :
  Z.of_nat (length (data iter)) = count iter -> 0 <= user_ok iter ->
  (sum_sizes (Z.of_nat ∘ length <$> segs) <= Z.min (count iter) (user_ok iter) ->
   exists segs' iter',
     write_segments segs iter = (segs', iter', true) /\
     concat segs'
     = take (Z.to_nat (sum_sizes (Z.of_nat ∘ length <$> segs))) (data iter) /\
     length <$> segs' = length <$> segs /\
     count iter' = count iter - sum_sizes (Z.of_nat ∘ length <$> segs) /\
     data iter'
     = drop (Z.to_nat (sum_sizes (Z.of_nat ∘ length <$> segs))) (data iter)) /\
  (Z.min (count iter) (user_ok iter) < sum_sizes (Z.of_nat ∘ length <$> segs) ->
   (write_segments segs iter).2 = false).
Proof.
  revert iter. induction segs as [| seg segs IH]; intros iter Hdata Huser.
  - split; [| cbn; lia]. intros _. exists [], iter. cbn.
    rewrite take_0, drop_0, Z.sub_0_r. done.
  - pose proof (sum_lengths_nonneg segs) as Hnn.
    rewrite fmap_cons, sum_sizes_cons. cbn [compose].
    remember (Z.of_nat (length seg)) as n eqn:Hn.
    set (m := sum_sizes _) in *.
    split.
    + intros Hfit. cbn [write_segments]. unfold copy_page_from_iter.
      rewrite <- !Hn.
      rewrite (copy_from_iter_full n iter) by lia.
      rewrite Z.eqb_refl. cbn [negb].
      set (iter1 := {| count := count iter - n |}).
      destruct (IH iter1) as [Hok _].
      { cbn. rewrite length_drop. lia. }
      { cbn. lia. }
      destruct Hok as (segs' & iter' & Hrun & Hcat & Hlens & Hcount & Hd);
        [cbn; lia |].
      rewrite Hrun. eexists _, iter'. split; [reflexivity |].
      assert (Hfull : length (take (Z.to_nat n) (data iter)) = length seg).
      { rewrite length_take. lia. }
      rewrite Hfull, drop_all, app_nil_r.
      split; [| split; [| split]].
      * cbn [concat]. rewrite Hcat. cbn [data iter1].
        rewrite take_take_drop. f_equal. lia.
      * cbn. by rewrite Hfull, Hlens.
      * rewrite Hcount. cbn. lia.
      * rewrite Hd. cbn [data iter1]. rewrite drop_drop. f_equal. lia.
    + intros Hshort. cbn [write_segments]. unfold copy_page_from_iter.
      rewrite <- !Hn.
      destruct (decide (n <= Z.min (count iter) (user_ok iter))) as [Hle | Hgt].
      * rewrite (copy_from_iter_full n iter) by lia.
        rewrite Z.eqb_refl. cbn [negb].
        set (iter1 := {| count := count iter - n |}).
        destruct (IH iter1) as [_ Hbad].
        { cbn. rewrite length_drop. lia. }
        { cbn. lia. }
        specialize (Hbad ltac:(cbn; lia)).
        by destruct (write_segments segs iter1) as [[? ?] ?].
      * pose proof (copy_from_iter_short n iter ltac:(lia)) as Hne.
        destruct (copy_from_iter n iter) as [[bs k] it]. cbn in Hne.
        by destruct (Z.eqb_spec k n).
Qed.

(** X11: the loop of [fuse_dev_do_write] that copies the payload of a
    PXD_READ completion fills the segments of the block request in order
    with the bytes the consumer wrote, every segment completely, and
    consumes exactly that many bytes, when the payload that is left and
    readable is at least as long as the segments together; when it is
    shorter, the loop gives up (the call then fails with -EFAULT). *)
Theorem write_segments_fill segs iter :
  Z.of_nat (length (data iter)) = count iter -> 0 <= user_ok iter ->
  (sum_sizes (Z.of_nat ∘ length <$> segs) <= Z.min (count iter) (user_ok iter) ->
   exists segs' iter',
     write_segments segs iter = (segs', iter', true) /\
     concat segs'
     = take (Z.to_nat (sum_sizes (Z.of_nat ∘ length <$> segs))) (data iter) /\
     length <$> segs' = length <$> segs /\
     count iter' = count iter - sum_sizes (Z.of_nat ∘ length <$> segs) /\
     data iter'
     = drop (Z.to_nat (sum_sizes (Z.of_nat ∘ length <$> segs))) (data iter)) /\
  (Z.min (count iter) (user_ok iter) < sum_sizes (Z.of_nat ∘ length <$> segs) ->
   exists segs' iter', write_segments segs iter = (segs', iter', false)).
Proof.
  intros Hdata Huser.
  destruct (write_segments_spec segs iter Hdata Huser) as [Hok Hshort].
  split; [exact Hok |]. intros Hlt. specialize (Hshort Hlt).
  destruct (write_segments segs iter) as [[segs' iter'] ok].
  cbn in Hshort. subst ok. by eexists _, _.
Qed.

Lemma request_find_some fc u req :
  request_find cfg fc u = Ret (Some req) ->
  request_map fc !! Z.to_nat (u32 (slot_of cfg u)) = Some (Some req) /\
  exists r, mem fc !! req = Some r /\ ih_unique (in_h r) = u.
Proof.
  unfold request_find, array_get, deref. intros H.
  rewrite decide_True in H by apply (u32_nonneg).
  destruct (request_map fc !! Z.to_nat (u32 (slot_of cfg u))) as [[q |] |];
    cbn in H; [| done | done].
  destruct (mem fc !! q) as [r |] eqn:Hr; cbn in H; [| done].
  destruct (Z.eqb_spec (ih_unique (in_h r)) u); cbn in H; [| done].
  injection H as ->. eauto.
Qed.

(** X12: when the payload of a PXD_READ completion cannot be copied in
    full, the write call fails with -EFAULT after the reply header of the
    request was overwritten, and the request is not retired: it stays in
    the slot table under its identifier, [request_end] has not run, and a
    later completion can still finish it. *)
Theorem fuse_dev_do_write_payload_fault fc cpu iter bytes iter' req r :
  sizeof_fuse_out_header cfg <= count iter ->
  copy_from_iter (sizeof_fuse_out_header cfg) iter
    = (bytes, sizeof_fuse_out_header cfg, iter') ->
  oh_unique (decode_out_header cfg bytes) <> 0 ->
  oh_len (decode_out_header cfg bytes) = count iter ->
  -1000 < oh_error (decode_out_header cfg bytes) <= 0 ->
  request_find cfg fc (oh_unique (decode_out_header cfg bytes))
    = Ret (Some req) ->
  mem fc !! req = Some r ->
  ih_opcode (in_h r) = PXD_READ cfg -> nr_phys_segments (rq r) <> 0 ->
  Z.of_nat (length (data iter')) = count iter' ->
  0 < count iter' -> 0 <= user_ok iter' ->
  Z.min (count iter') (user_ok iter')
    < sum_sizes (Z.of_nat ∘ length <$> segments (rq r)) ->
  exists res,
    fuse_dev_do_write cfg fc cpu iter = Ret res /\
    wr_ret res = - EFAULT /\
    log (wr_fc res) = log fc /\ request_map (wr_fc res) = request_map fc /\
    request_find cfg (wr_fc res) (oh_unique (decode_out_header cfg bytes))
      = Ret (Some req) /\
    exists r', mem (wr_fc res) !! req = Some r' /\
      out_h r' = decode_out_header cfg bytes.
Proof.
  intros Hlen Hcopy Hnz Hoh Herr Hfind Hreq Hop Hseg Hdata Hcount Huser Hshort.
  remember (decode_out_header cfg bytes) as oh eqn:Hdec.
  destruct (request_find_some _ _ _ Hfind) as (Hslot & r0 & Hr0 & Hu).
  rewrite Hreq in Hr0. injection Hr0 as <-.
  destruct (write_segments_spec (segments (rq r)) iter' Hdata Huser)
    as [_ Hbad].
  specialize (Hbad Hshort).
  destruct (write_segments (segments (rq r)) iter') as [[segs' it] ok] eqn:Hws.
  cbn in Hbad. subst ok.
  eexists. split.
  - write_header Hcopy Hdec oh iter. rewrite Hfind. cbn [mbind result_bind].
    unfold deref. rewrite Hreq. cbn [of_option mbind result_bind].
    cbn [set_out_h in_h rq]. rewrite Hop, Z.eqb_refl.
    destruct (Z.gtb_spec (count iter') 0); [| lia].
    destruct (Z.eqb_spec (nr_phys_segments (rq r)) 0); [done |].
    cbn [andb negb]. rewrite Hws. cbn [negb]. reflexivity.
  - cbn. split; [done |]. split; [done |]. split; [done |]. split.
    + erewrite request_find_slot; [| exact Hslot | apply lookup_insert_eq].
      cbn. by rewrite Hu, Z.eqb_refl.
    + eexists. split; [apply lookup_insert_eq | done].
Qed.

(** X13: a write call that fails has retired nothing.  Whenever
    [fuse_dev_do_write] returns a negative value, [request_end] has not
    run, the slot table, the free identifiers and the ring queue are as
    they were, and the connection flag is unchanged.  (This is about calls
    that return: a data fetch whose iovec count is negative and whose
    message is longer than the iovec array of [fuse_notify_read_data]
    writes past that array and returns nothing.) *)
Theorem fuse_dev_do_write_error_frame fc cpu iter res :
  0 <= sizeof_fuse_out_header cfg ->
  fuse_dev_do_write cfg fc cpu iter = Ret res -> wr_ret res < 0 ->
  log (wr_fc res) = log fc /\ request_map (wr_fc res) = request_map fc /\
  free_pool (wr_fc res) = free_pool fc /\ queue (wr_fc res) = queue fc /\
  connected (wr_fc res) = connected fc.
Proof.
  intros Hsz H Hneg. unfold fuse_dev_do_write in H.
  destruct (Z.ltb_spec (count iter) (sizeof_fuse_out_header cfg));
    [by injection H as <- |].
  destruct (copy_from_iter (sizeof_fuse_out_header cfg) iter)
    as [[bytes n] iter1].
  destruct (negb (n =? sizeof_fuse_out_header cfg)); [by injection H as <- |].
  destruct (negb (oh_len (decode_out_header cfg bytes) =? count iter));
    [by injection H as <- |].
  destruct (oh_unique (decode_out_header cfg bytes) =? 0).
  { bind_inv H. destruct a as [[err it] sent]. by injection H as <-. }
  destruct ((oh_error (decode_out_header cfg bytes) <=? -1000)
            || (oh_error (decode_out_header cfg bytes) >? 0));
    [by injection H as <- |].
  bind_inv H. destruct a as [req |]; [| by injection H as <-].
  bind_inv H.
  destruct ((_ =? PXD_READ cfg) && _ && _) in H.
  - match type of H with
    | context [write_segments ?a ?b] =>
        destruct (write_segments a b) as [[segs it] ok]
    end.
    destruct ok; cbn [negb] in H; [| by injection H as <-].
    bind_inv H. injection H as <-. cbn in Hneg. lia.
  - cbn [negb] in H. bind_inv H. injection H as <-. cbn in Hneg. lia.
Qed.

(** ** Read path: delivery in queue order *)

Lemma copy_to_iter_full src n iter :
  0 <= n -> n <= count iter -> n <= user_ok iter ->
  copy_to_iter src n iter
  = (n, {| count := count iter - n; user_ok := user_ok iter - n;
           data := data iter;
           out := if 0 <? n then out iter ++ [(src, n)] else out iter |}).
Proof.
  intros H0 Hc Hu. unfold copy_to_iter.
  by replace (Z.max 0 (Z.min n (Z.min (count iter) (user_ok iter)))) with n
    by lia.
Qed.

Lemma fuse_copy_req_read_ok fc d iter :
  deliverable cfg (mem fc) d ->
  wire_size cfg d <= count iter -> wire_size cfg d <= user_ok iter ->
  fuse_copy_req_read cfg fc d.1 iter
  = Ret (wire_size cfg d,
         {| count := count iter - wire_size cfg d;
            user_ok := user_ok iter - wire_size cfg d;
            data := data iter;
            out := out iter ++ wire_chunks cfg d |}).
Proof.
  intros (r & Hr & Ha & Hnn & _) Hc Hu.
  assert (Hh : 0 < sizeof_fuse_in_header cfg) by apply Hcfg.
  unfold wire_size in *.
  unfold fuse_copy_req_read, deref. rewrite Hr.
  cbn [of_option mbind result_bind].
  rewrite copy_to_iter_full by lia. rewrite Z.eqb_refl. cbn [negb].
  unfold array_get. rewrite decide_True by done.
  change (Z.to_nat 0) with 0%nat.
  rewrite Ha. cbn [of_option mbind result_bind].
  rewrite copy_to_iter_full by (cbn; lia). rewrite Z.eqb_refl. cbn [negb].
  f_equal. f_equal. cbn [count user_ok data out]. unfold wire_chunks.
  destruct (Z.ltb_spec 0 (sizeof_fuse_in_header cfg)); [| lia].
  f_equal; [lia | lia |].
  destruct (0 <? d.2); [by rewrite <- app_assoc | done].
Qed.

Lemma ring_step a d :
  0 <= a < QUEUE_SIZE -> 0 < d < QUEUE_SIZE -> (a + d) mod QUEUE_SIZE <> a.
Proof.
  intros Ha Hd. destruct (decide (a + d < QUEUE_SIZE)).
  - rewrite Z.mod_small; lia.
  - replace (a + d) with (a + d - QUEUE_SIZE + 1 * QUEUE_SIZE) by lia.
    rewrite Z.mod_add by lia. rewrite Z.mod_small; lia.
Qed.

Lemma ring_apart a d e :
  0 <= a < QUEUE_SIZE -> 0 <= d < QUEUE_SIZE -> 0 <= e < QUEUE_SIZE ->
  d <> e -> (a + d) mod QUEUE_SIZE <> (a + e) mod QUEUE_SIZE.
Proof.
  intros Ha Hd He Hne Heq.
  destruct (decide (a + d < QUEUE_SIZE)); destruct (decide (a + e < QUEUE_SIZE)).
  - rewrite !Z.mod_small in Heq; lia.
  - rewrite (Z.mod_small (a + d)) in Heq by lia.
    replace (a + e) with (a + e - QUEUE_SIZE + 1 * QUEUE_SIZE) in Heq by lia.
    rewrite Z.mod_add in Heq by lia. rewrite Z.mod_small in Heq; lia.
  - rewrite (Z.mod_small (a + e)) in Heq by lia.
    replace (a + d) with (a + d - QUEUE_SIZE + 1 * QUEUE_SIZE) in Heq by lia.
    rewrite Z.mod_add in Heq by lia. rewrite Z.mod_small in Heq; lia.
  - replace (a + d) with (a + d - QUEUE_SIZE + 1 * QUEUE_SIZE) in Heq by lia.
    replace (a + e) with (a + e - QUEUE_SIZE + 1 * QUEUE_SIZE) in Heq by lia.
    rewrite !Z.mod_add in Heq by lia. rewrite !Z.mod_small in Heq; lia.
Qed.

Lemma wire_size_pos d : 0 <= d.2 -> 0 < wire_size cfg d.
Proof.
  assert (Hh : 0 < sizeof_fuse_in_header cfg) by apply Hcfg.
  unfold wire_size. lia.
Qed.

Lemma deliverable_store m (p : ptr) r r' d :
  m !! p = Some r -> in_args r' = in_args r ->
  ih_len (in_h r') = ih_len (in_h r) ->
  deliverable cfg m d -> deliverable cfg (<[p := r']> m) d.
Proof.
  intros Hp Hargs Hlen (rd & Hd & Ha & Hnn & Hl).
  destruct d as [dp da]. cbn [fst snd] in *.
  destruct (decide (dp = p)) as [-> | Hne].
  - exists r'. cbn [fst snd]. rewrite lookup_insert_eq.
    rewrite Hp in Hd. injection Hd as <-. by rewrite Hargs, Hlen.
  - exists rd. cbn [fst snd]. by rewrite lookup_insert_ne.
Qed.



Lemma same_but_opcode_refl r : same_but_opcode r r.
Proof. by repeat split. Qed.

Lemma same_but_opcode_trans r r1 r2 :
  same_but_opcode r r1 -> same_but_opcode r1 r2 -> same_but_opcode r r2.
Proof.
  intros (? & ? & ? & ? & ? & ? & ? & ? & ?) (? & ? & ? & ? & ? & ? & ? & ? & ?).
  repeat split; congruence.
Qed.

Lemma zero_write_keeps r :
  same_but_opcode r (if is_zero_write_candidate cfg r
                     then fuse_convert_zero_writes cfg r else r).
Proof.
  destruct (is_zero_write_candidate cfg r); [| apply same_but_opcode_refl].
  unfold fuse_convert_zero_writes.
  destruct (forallb _ _); [| apply same_but_opcode_refl].
  by repeat split.
Qed.

Lemma mem_kept_refl m : mem_kept m m.
Proof.
  intros p. destruct (m !! p); [apply same_but_opcode_refl | done].
Qed.

Lemma mem_kept_trans m m1 m2 :
  mem_kept m m1 -> mem_kept m1 m2 -> mem_kept m m2.
Proof.
  intros H1 H2 p. specialize (H1 p). specialize (H2 p).
  destruct (m !! p), (m1 !! p), (m2 !! p); try done.
  by eapply same_but_opcode_trans.
Qed.

Lemma mem_kept_store m (p : ptr) r r' :
  m !! p = Some r -> same_but_opcode r r' -> mem_kept m (<[p := r']> m).
Proof.
  intros Hp Hsame q. destruct (decide (q = p)) as [-> | Hne].
  - by rewrite lookup_insert_eq, Hp.
  - rewrite lookup_insert_ne by done.
    destruct (m !! q); [apply same_but_opcode_refl | done].
Qed.

Lemma mem_kept_deliverable m m1 d :
  mem_kept m m1 -> deliverable cfg m d -> deliverable cfg m1 d.
Proof.
  intros Hk (r & Hr & Ha & Hnn & Hl). specialize (Hk d.1).
  rewrite Hr in Hk. destruct (m1 !! d.1) as [r1 |] eqn:Hr1; [| done].
  destruct Hk as (Hargs & _ & Hlen & _).
  exists r1. by rewrite Hargs, Hlen.
Qed.

Lemma delivered_refl fc read : delivered cfg fc fc read 0.
Proof.
  repeat split; try done; try (intros; lia). apply mem_kept_refl.
Qed.

Lemma ring_pos_add a b :
  (a mod QUEUE_SIZE + b) mod QUEUE_SIZE = (a + b) mod QUEUE_SIZE.
Proof. by rewrite Zplus_mod_idemp_l. Qed.

Lemma delivered_trans fc fc1 fc2 read (n1 n2 : nat) :
  delivered cfg fc fc1 read n1 ->
  delivered cfg fc1 fc2 ((read + Z.of_nat n1) mod QUEUE_SIZE) n2 ->
  delivered cfg fc fc2 read (n1 + n2).
Proof.
  intros (Ha1 & Ha2 & Ha3 & Ha4 & Ha5 & Ha6 & Ha7 & Ha8 & Ha9 & Ha10 & Ha11
          & Ha12 & Ha13 & Ha14)
         (Hb1 & Hb2 & Hb3 & Hb4 & Hb5 & Hb6 & Hb7 & Hb8 & Hb9 & Hb10 & Hb11
          & Hb12 & Hb13 & Hb14).
  assert (Hpos : forall k : nat,
            ((read + Z.of_nat n1) mod QUEUE_SIZE + Z.of_nat k) mod QUEUE_SIZE
            = (read + Z.of_nat (n1 + k)) mod QUEUE_SIZE).
  { intros k. rewrite ring_pos_add. f_equal. lia. }
  split; [congruence |]. split; [congruence |]. split; [congruence |].
  split; [congruence |]. split; [| split].
  - intros k Hk.
    destruct (decide (Exists (fun j : nat =>
                Z.to_nat ((read + Z.of_nat k) mod QUEUE_SIZE)
                = Z.to_nat ((read + Z.of_nat (n1 + j)) mod QUEUE_SIZE))
                (seq 0 n2)))
      as [Hyes | Hno].
    + apply Exists_exists in Hyes as (j & Hj & Heq).
      apply elem_of_seq in Hj.
      rewrite Heq, <- Hpos. apply Hb5. lia.
    + rewrite Hb6.
      * apply Ha5. destruct (decide (k < n1)%nat); [done |].
        exfalso. apply Hno. apply Exists_exists.
        exists (k - n1)%nat. split; [apply elem_of_seq; lia |].
        do 3 f_equal. lia.
      * intros j Hj Heq. apply Hno. apply Exists_exists.
        exists j. split; [apply elem_of_seq; lia |].
        by rewrite Heq, Hpos.
  - intros x Hx. rewrite Hb6, Ha6; [done | |].
    + intros k Hk. apply Hx. lia.
    + intros k Hk. rewrite Hpos. apply Hx. lia.
  - repeat split; try congruence. by eapply mem_kept_trans.
Qed.

Lemma sum_sizes_wire_nonneg ds m :
  Forall (deliverable cfg m) ds -> 0 <= sum_sizes (wire_size cfg <$> ds).
Proof.
  induction 1 as [| d ds (r & _ & _ & Hnn & _) _ IH]; [done |].
  rewrite fmap_cons, sum_sizes_cons.
  pose proof (wire_size_pos d Hnn). lia.
Qed.

Ltac conn_fields :=
  cbn [store set_mem set_queue set_requests set_r_read set_r_write set_w_read
       queue requests w_write w_read w_sequence r_read r_write
       log request_map num_free_ids free_ids per_cpu_ids connected
       allow_disconnected mem].

Lemma delivered_one fc (read : Z) (req : ptr) r r1 :
  Z.of_nat (length (requests (queue fc))) = QUEUE_SIZE ->
  0 <= read < QUEUE_SIZE ->
  mem fc !! req = Some r -> same_but_opcode r r1 ->
  delivered cfg fc
    (store req r1
       (set_queue (set_requests (<[Z.to_nat read := None]> (requests (queue fc)))
                     (queue fc)) fc))
    read 1.
Proof.
  intros Hlen Hread Hreq Hsame.
  assert (Hpos : (read + 0) mod QUEUE_SIZE = read).
  { rewrite Z.add_0_r. apply Z.mod_small. lia. }
  unfold delivered. conn_fields.
  do 3 (split; [done |]). split; [by rewrite length_insert |].
  split; [| split].
  - intros k Hk. replace k with 0%nat by lia.
    change (Z.of_nat 0) with 0. rewrite Hpos.
    apply list_lookup_insert_eq. lia.
  - intros x Hx. rewrite list_lookup_insert_ne; [done |].
    specialize (Hx 0%nat ltac:(lia)).
    change (Z.of_nat 0) with 0 in Hx. rewrite Hpos in Hx. done.
  - do 7 (split; [done |]). by apply (mem_kept_store _ _ r).
Qed.

Lemma read_loop_prefix ds : forall n fc cpu write l,
  Z.of_nat (length (requests (queue fc))) = QUEUE_SIZE ->
  0 <= l_read l < QUEUE_SIZE ->
  Z.of_nat (length ds) <= QUEUE_SIZE ->
  ring_holds cfg (queue fc) (l_read l) ds ->
  (forall k : nat, (k < length ds)%nat ->
     (l_read l + Z.of_nat k) mod QUEUE_SIZE <> write) ->
  Forall (deliverable cfg (mem fc)) ds ->
  sum_sizes (wire_size cfg <$> ds) <= l_remain l ->
  sum_sizes (wire_size cfg <$> ds) <= count (l_iter l) ->
  sum_sizes (wire_size cfg <$> ds) <= user_ok (l_iter l) ->
  exists fc1,
    read_loop cfg (length ds + n) fc cpu write l
    = read_loop cfg n fc1 cpu write
        {| l_read := (l_read l + Z.of_nat (length ds)) mod QUEUE_SIZE;
           l_iter :=
             {| count := count (l_iter l) - sum_sizes (wire_size cfg <$> ds);
                user_ok := user_ok (l_iter l) - sum_sizes (wire_size cfg <$> ds);
                data := data (l_iter l);
                out := out (l_iter l) ++ concat (wire_chunks cfg <$> ds) |};
           l_copied := l_copied l + sum_sizes (wire_size cfg <$> ds);
           l_remain := l_remain l - sum_sizes (wire_size cfg <$> ds) |} /\
    delivered cfg fc fc1 (l_read l) (length ds) /\
    r_read (queue fc1) = r_read (queue fc) /\
    r_write (queue fc1) = r_write (queue fc).
Proof.
  assert (Hq : 0 < QUEUE_SIZE < 2 ^ 31) by apply Hcfg.
  induction ds as [| d ds IH];
    intros n fc cpu write l Hlen Hread Hmany Hring Hnot Hdel Hrem Hcnt Husr.
  - exists fc. split; [| split; [apply delivered_refl | done]].
    cbn [length Nat.add fmap list_fmap concat]. f_equal.
    destruct l as [rd [c u dt o] cp rm]. cbn in *.
    unfold sum_sizes. cbn.
    rewrite !Z.add_0_r, !Z.sub_0_r, app_nil_r, Z.mod_small by lia. done.
  - rewrite fmap_cons, sum_sizes_cons in Hrem, Hcnt, Husr.
    apply Forall_cons in Hdel as [Hd Hdel].
    pose proof Hd as (r & Hr & Ha & Hnn & Hl).
    pose proof (wire_size_pos d Hnn) as Hw.
    pose proof (sum_sizes_wire_nonneg ds _ Hdel) as Hrest.
    fold (wire_size cfg d) in Hl.
    cbn [length Nat.add read_loop].
    assert (H0 : (l_read l + 0) mod QUEUE_SIZE = l_read l).
    { rewrite Z.add_0_r. apply Z.mod_small. lia. }
    destruct (Z.eqb_spec (l_read l) write) as [Heq | _].
    { exfalso. apply (Hnot 0%nat); [cbn; lia |].
      change (Z.of_nat 0) with 0. by rewrite H0. }
    pose proof (Hring 0%nat d eq_refl) as Hslot.
    change (Z.of_nat 0) with 0 in Hslot. rewrite H0 in Hslot.
    unfold array_get at 1. rewrite decide_True by lia. rewrite Hslot.
    cbn [of_option mbind result_bind]. unfold deref at 1. rewrite Hr.
    cbn [of_option mbind result_bind].
    destruct (Z.gtb_spec (ih_len (in_h r)) (l_remain l)); [lia |].
    unfold array_set. rewrite decide_True by lia.
    cbn [mbind result_bind].
    pose proof (zero_write_keeps r) as Hkeep.
    set (r1 := if is_zero_write_candidate cfg r then _ else r) in *.
    set (fcA := store d.1 r1 _).
    assert (HdA : forall d', deliverable cfg (mem fc) d' ->
                             deliverable cfg (mem fcA) d').
    { intros d' Hd'. unfold fcA. conn_fields.
      destruct Hkeep as (? & _ & ? & _).
      by eapply deliverable_store. }
    rewrite (fuse_copy_req_read_ok fcA d (l_iter l)) by (auto; lia).
    cbn [mbind result_bind].
    destruct (Z.ltb_spec (wire_size cfg d) 0); [lia |].
    rewrite (ring_index_mod cfg Hcfg).
    set (lA := {| l_read := (l_read l + 1) mod QUEUE_SIZE |}).
    destruct (IH n fcA cpu write lA) as (fc1 & Hrun & Hdone & Hrr & Hrw).
    + unfold fcA. conn_fields. rewrite length_insert. done.
    + cbn. apply Z.mod_pos_bound. lia.
    + cbn [length] in Hmany. lia.
    + intros k d' Hk. cbn [lA l_read]. rewrite ring_pos_add.
      unfold fcA. conn_fields.
      rewrite list_lookup_insert_ne.
      * replace (l_read l + 1 + Z.of_nat k) with (l_read l + Z.of_nat (S k))
          by lia.
        by apply Hring.
      * apply lookup_lt_Some in Hk. cbn [length] in Hmany.
        replace (l_read l + 1 + Z.of_nat k)
          with (l_read l + (1 + Z.of_nat k)) by lia.
        pose proof (ring_step (l_read l) (1 + Z.of_nat k) ltac:(lia) ltac:(lia)).
        pose proof (Z.mod_pos_bound (l_read l + (1 + Z.of_nat k)) QUEUE_SIZE
                      ltac:(lia)).
        lia.
    + intros k Hk. cbn [lA l_read]. rewrite ring_pos_add.
      replace (l_read l + 1 + Z.of_nat k) with (l_read l + Z.of_nat (S k))
        by lia.
      apply Hnot. cbn [length]. lia.
    + eapply Forall_impl; [exact Hdel | exact HdA].
    + cbn. lia.
    + cbn. lia.
    + cbn. lia.
    + exists fc1. split; [| split; [| split]].
      * rewrite Hrun. f_equal. cbn [lA l_read l_iter l_copied l_remain
                                    count user_ok data out].
        rewrite ring_pos_add, !fmap_cons, sum_sizes_cons.
        cbn [concat length]. rewrite <- app_assoc.
        f_equal; [f_equal; lia | f_equal; lia | lia | lia].
      * change (S (length ds)) with (1 + length ds)%nat.
        eapply delivered_trans; [| exact Hdone].
        unfold fcA. by eapply delivered_one.
      * rewrite Hrr. done.
      * rewrite Hrw. done.
Qed.

Lemma read_loop_at_write n fc cpu write l :
  l_read l = write -> read_loop cfg n fc cpu write l = Ret (fc, l).
Proof.
  intros Heq. destruct n; cbn [read_loop];
    by destruct (Z.eqb_spec (l_read l) write).
Qed.

Lemma read_loop_blocked n fc cpu write l d :
  l_read l <> write -> 0 <= l_read l ->
  requests (queue fc) !! Z.to_nat (l_read l) = Some (Some d.1) ->
  deliverable cfg (mem fc) d -> l_remain l < wire_size cfg d ->
  read_loop cfg (S n) fc cpu write l = Ret (fc, l).
Proof.
  intros Hne Hpos Hslot (r & Hr & _ & _ & Hlen) Hbig.
  cbn [read_loop]. destruct (Z.eqb_spec (l_read l) write); [done |].
  unfold array_get. rewrite decide_True by done. rewrite Hslot.
  cbn [of_option mbind result_bind]. unfold deref. rewrite Hr.
  cbn [of_option mbind result_bind]. fold (wire_size cfg d) in Hlen.
  by destruct (Z.gtb_spec (ih_len (in_h r)) (l_remain l)); [| lia].
Qed.

Lemma delivered_set_r_read fc fc1 read n v :
  delivered cfg fc fc1 read n ->
  delivered cfg fc (set_queue (set_r_read v (queue fc1)) fc1) read n.
Proof. intros H. exact H. Qed.

Lemma delivered_set_r_read_l fc fc1 read n v :
  delivered cfg (set_queue (set_r_read v (queue fc)) fc) fc1 read n ->
  delivered cfg fc fc1 read n.
Proof. intros H. exact H. Qed.

Lemma delivered_from_r_write fc fc1 read n v :
  delivered cfg (set_queue (set_r_write v (queue fc)) fc) fc1 read n ->
  delivered cfg fc fc1 read n.
Proof. intros H. exact H. Qed.

(** A pass through [retry] whose cached write cursor lies at or beyond
    the requests that fit. *)
Lemma read_retry_final b fc cpu iter copied ds1 ds2 (j : nat) :
  Z.of_nat (length (requests (queue fc))) = QUEUE_SIZE ->
  0 <= r_read (queue fc) < QUEUE_SIZE ->
  Z.of_nat (length (ds1 ++ ds2)) < QUEUE_SIZE ->
  ring_holds cfg (queue fc) (r_read (queue fc)) (ds1 ++ ds2) ->
  w_write (queue fc)
  = (r_read (queue fc) + Z.of_nat (length (ds1 ++ ds2))) mod QUEUE_SIZE ->
  r_write (queue fc) = (r_read (queue fc) + Z.of_nat j) mod QUEUE_SIZE ->
  (length ds1 <= j <= length (ds1 ++ ds2))%nat ->
  Forall (deliverable cfg (mem fc)) (ds1 ++ ds2) ->
  sum_sizes (wire_size cfg <$> ds1) <= user_ok iter ->
  (ds2 = [] /\ sum_sizes (wire_size cfg <$> ds1) <= count iter) \/
  sum_sizes (wire_size cfg <$> ds1) = count iter ->
  (length ds1 < b)%nat ->
  exists fc',
    read_retry cfg b fc cpu iter copied (count iter)
    = Ret (fc',
           {| count := count iter - sum_sizes (wire_size cfg <$> ds1);
              user_ok := user_ok iter - sum_sizes (wire_size cfg <$> ds1);
              data := data iter;
              out := out iter ++ concat (wire_chunks cfg <$> ds1) |},
           copied + sum_sizes (wire_size cfg <$> ds1)) /\
    delivered cfg fc fc' (r_read (queue fc)) (length ds1) /\
    r_read (queue fc')
    = (r_read (queue fc) + Z.of_nat (length ds1)) mod QUEUE_SIZE.
Proof.
  intros Hlen Hread Hmany Hring Hww Hrw Hj Hdel Husr Hfit Hb.
  assert (Hq : 0 < QUEUE_SIZE < 2 ^ 31) by apply Hcfg.
  rewrite length_app in *.
  apply Forall_app in Hdel as [Hdel1 Hdel2].
  destruct b as [| b]; [lia |].
  cbn [read_retry].
  destruct (read_loop_prefix ds1 (S b - length ds1) fc cpu
              (r_write (queue fc))
              {| l_read := r_read (queue fc); l_iter := iter;
                 l_copied := copied; l_remain := count iter |})
    as (fc1 & Hrun & Hdone & Hrr & Hrw1); cbn [l_read l_iter l_remain];
    try done; try lia.
  { intros k d Hk. apply Hring. by apply lookup_app_l_Some. }
  { intros k Hk. rewrite Hrw.
    apply ring_apart; lia. }
  replace (length ds1 + (S b - length ds1))%nat with (S b) in Hrun by lia.
  rewrite Hrun. clear Hrun. cbn [l_read] in Hdone.
  cbn [l_read l_iter l_copied l_remain].
  set (l1 := {| l_read := (r_read (queue fc) + Z.of_nat (length ds1))
                            mod QUEUE_SIZE |}).
  assert (Hstop : read_loop cfg (S b - length ds1) fc1 cpu (r_write (queue fc)) l1
                  = Ret (fc1, l1)).
  { destruct (decide (j = length ds1)) as [-> | Hjne].
    - apply read_loop_at_write. by rewrite Hrw.
    - destruct ds2 as [| d ds2]; [cbn in Hj; lia |].
      destruct Hfit as [[? _] | Hexact]; [done |].
      replace (S b - length ds1)%nat with (S (b - length ds1)) by lia.
      apply (read_loop_blocked _ _ _ _ _ d).
      + cbn [l1 l_read]. rewrite Hrw. apply ring_apart; lia.
      + cbn [l1 l_read]. apply Z.mod_pos_bound. lia.
      + cbn [l1 l_read].
        destruct Hdone as (_ & _ & _ & _ & _ & Hother & _).
        rewrite Hother.
        * apply (Hring (length ds1) d).
          by rewrite lookup_app_r, Nat.sub_diag by lia.
        * intros k Hk Heq. apply Z2Nat.inj in Heq;
            [| apply Z.mod_pos_bound; lia | apply Z.mod_pos_bound; lia].
          cbn [length] in Hmany.
          by apply (ring_apart (r_read (queue fc)) (Z.of_nat (length ds1))
                      (Z.of_nat k)); try lia.
      + apply Forall_cons in Hdel2 as [Hd _].
        destruct Hdone as (_ & _ & _ & _ & _ & _ & _ & _ & _ & _ & _ & _ & _ & Hk).
        by eapply mem_kept_deliverable.
      + cbn [l1 l_remain]. apply Forall_cons in Hdel2 as [(r & _ & _ & Hnn & _) _].
        pose proof (wire_size_pos d Hnn). lia. }
  rewrite Hstop. cbn [mbind result_bind l1 l_read l_iter l_copied l_remain].
  set (fcB := set_queue _ fc1).
  assert (Hret : forall x : result (fuse_conn * iov_iter * Z),
            x = Ret (fcB,
                     {| count := count iter - sum_sizes (wire_size cfg <$> ds1);
                        user_ok := user_ok iter - sum_sizes (wire_size cfg <$> ds1);
                        data := data iter;
                        out := out iter ++ concat (wire_chunks cfg <$> ds1) |},
                     copied + sum_sizes (wire_size cfg <$> ds1)) ->
            exists fc', x = Ret (fc',
                     {| count := count iter - sum_sizes (wire_size cfg <$> ds1);
                        user_ok := user_ok iter - sum_sizes (wire_size cfg <$> ds1);
                        data := data iter;
                        out := out iter ++ concat (wire_chunks cfg <$> ds1) |},
                     copied + sum_sizes (wire_size cfg <$> ds1)) /\
              delivered cfg fc fc' (r_read (queue fc)) (length ds1) /\
              r_read (queue fc')
              = (r_read (queue fc) + Z.of_nat (length ds1)) mod QUEUE_SIZE).
  { intros x ->. exists fcB. split; [done |]. split; [| done].
    by apply delivered_set_r_read. }
  apply Hret.
  destruct (Z.eqb_spec (count iter - sum_sizes (wire_size cfg <$> ds1)) 0)
    as [Hz | Hnz]; cbn [negb]; [done |].
  destruct Hfit as [[-> Hle] | Hexact]; [| lia].
  rewrite app_nil_r in *. cbn [length] in Hj.
  assert (j = length ds1) as -> by lia.
  assert (HrB : r_read (queue fcB)
                = (r_read (queue fc) + Z.of_nat (length ds1)) mod QUEUE_SIZE)
    by done.
  assert (HrwB : r_write (queue fcB)
                 = (r_read (queue fc) + Z.of_nat (length ds1)) mod QUEUE_SIZE)
    by (unfold fcB; conn_fields; by rewrite Hrw1, Hrw).
  assert (HwB : w_write (queue fcB)
                = (r_read (queue fc) + Z.of_nat (length ds1)) mod QUEUE_SIZE).
  { unfold fcB. conn_fields. destruct Hdone as (Hw & _).
    by rewrite Hw, Hww, Nat.add_0_r. }
  unfold request_pending. rewrite HrB, HrwB, HwB, Z.eqb_refl.
  done.
Qed.

Lemma pending_queue_ring q (ds : list (ptr * Z)) :
  queue_shape cfg q -> pending_queue cfg q = Some <$> ds.*1 ->
  ring_holds cfg q (r_read q) ds /\
  Z.of_nat (length ds) < QUEUE_SIZE /\
  w_write q = (r_read q + Z.of_nat (length ds)) mod QUEUE_SIZE.
Proof.
  intros (Hr & Hw & Hlen) Hpq.
  assert (Hq : 0 < QUEUE_SIZE < 2 ^ 31) by apply Hcfg.
  pose proof (pending_count_range cfg Hcfg q) as Hpc.
  assert (Hn : Z.of_nat (length ds) = pending_count cfg q).
  { rewrite <- (pending_queue_length cfg q) by lia.
    by rewrite Hpq, !length_fmap. }
  split; [| split; [lia |]].
  - intros k d Hk.
    apply (ring_at_lookup cfg).
    pose proof (pending_queue_lookup cfg q k) as Hlook.
    rewrite Hpq, !list_lookup_fmap, Hk in Hlook. cbn in Hlook.
    destruct (decide _) in Hlook; [| done]. by injection Hlook as <-.
  - rewrite Hn. unfold pending_count.
    rewrite Zplus_mod_idemp_r.
    replace (r_read q + (w_write q - r_read q)) with (w_write q) by lia.
    by rewrite Z.mod_small.
Qed.

Lemma ring_pending_queue q (read : Z) (ds : list (ptr * Z)) :
  0 <= read < QUEUE_SIZE ->
  r_read q = read ->
  Z.of_nat (length ds) < QUEUE_SIZE ->
  w_write q = (read + Z.of_nat (length ds)) mod QUEUE_SIZE ->
  ring_holds cfg q read ds ->
  pending_queue cfg q = Some <$> ds.*1.
Proof.
  intros Hread Hr Hmany Hw Hring.
  assert (Hq : 0 < QUEUE_SIZE < 2 ^ 31) by apply Hcfg.
  assert (Hn : pending_count cfg q = Z.of_nat (length ds)).
  { unfold pending_count. rewrite Hw, Hr, Zminus_mod_idemp_l.
    replace (read + Z.of_nat (length ds) - read) with (Z.of_nat (length ds))
      by lia.
    apply Z.mod_small. lia. }
  apply list_eq. intros k.
  rewrite (pending_queue_lookup cfg), Hn, !list_lookup_fmap.
  destruct (decide (Z.of_nat k < Z.of_nat (length ds))) as [Hk | Hk].
  - destruct (lookup_lt_is_Some_2 ds k) as [d Hd]; [lia |].
    rewrite Hd. cbn. f_equal. unfold ring_at. rewrite Hr.
    by rewrite (Hring k d Hd).
  - rewrite lookup_ge_None_2 by lia. done.
Qed.

Lemma delivered_lengths fc fc1 read n :
  delivered cfg fc fc1 read n ->
  length (requests (queue fc1)) = length (requests (queue fc)).
Proof. by intros (_ & _ & _ & ? & _). Qed.

(** From [retry] on: the requests that fit are handed over in queue
    order, in one pass or, when the cached write cursor is behind, in
    two. *)
Lemma read_retry_deliver b fc cpu iter copied ds1 ds2 (j : nat) :
  Z.of_nat (length (requests (queue fc))) = QUEUE_SIZE ->
  0 <= r_read (queue fc) < QUEUE_SIZE ->
  Z.of_nat (length (ds1 ++ ds2)) < QUEUE_SIZE ->
  ring_holds cfg (queue fc) (r_read (queue fc)) (ds1 ++ ds2) ->
  w_write (queue fc)
  = (r_read (queue fc) + Z.of_nat (length (ds1 ++ ds2))) mod QUEUE_SIZE ->
  r_write (queue fc) = (r_read (queue fc) + Z.of_nat j) mod QUEUE_SIZE ->
  (j <= length (ds1 ++ ds2))%nat ->
  Forall (deliverable cfg (mem fc)) (ds1 ++ ds2) ->
  sum_sizes (wire_size cfg <$> ds1) <= user_ok iter ->
  (ds2 = [] /\ sum_sizes (wire_size cfg <$> ds1) <= count iter) \/
  sum_sizes (wire_size cfg <$> ds1) = count iter ->
  (length ds1 + 1 < b)%nat ->
  exists fc',
    read_retry cfg b fc cpu iter copied (count iter)
    = Ret (fc',
           {| count := count iter - sum_sizes (wire_size cfg <$> ds1);
              user_ok := user_ok iter - sum_sizes (wire_size cfg <$> ds1);
              data := data iter;
              out := out iter ++ concat (wire_chunks cfg <$> ds1) |},
           copied + sum_sizes (wire_size cfg <$> ds1)) /\
    delivered cfg fc fc' (r_read (queue fc)) (length ds1) /\
    r_read (queue fc')
    = (r_read (queue fc) + Z.of_nat (length ds1)) mod QUEUE_SIZE.
Proof.
  intros Hlen Hread Hmany Hring Hww Hrw Hj Hdel Husr Hfit Hb.
  assert (Hq : 0 < QUEUE_SIZE < 2 ^ 31) by apply Hcfg.
  destruct (decide (length ds1 <= j)%nat) as [Hle | Hgt].
  { eapply (read_retry_final b fc cpu iter copied ds1 ds2 j); eauto; lia. }
  assert (Ht : length (take j ds1) = j) by (rewrite length_take; lia).
  assert (Hu : (0 < length (drop j ds1))%nat) by (rewrite length_drop; lia).
  assert (Hsplit : ds1 = take j ds1 ++ drop j ds1) by (by rewrite take_drop).
  revert Ht Hu Hsplit.
  generalize (take j ds1) as t. generalize (drop j ds1) as u.
  intros u t Ht Hu ->. clear Hgt.
  rewrite !length_app in *.
  rewrite <- app_assoc in Hring, Hdel.
  apply Forall_app in Hdel as [Hdt Hdu].
  rewrite fmap_app, sum_sizes_app in Husr, Hfit.
  pose proof (sum_sizes_wire_nonneg t _ Hdt) as Hst.
  assert (Hsu : 0 < sum_sizes (wire_size cfg <$> u)).
  { destruct u as [| d u]; [cbn in Hu; lia |].
    apply Forall_app in Hdu as [Hdu _].
    apply Forall_cons in Hdu as [(r & _ & _ & Hnn & _) Hdu].
    rewrite fmap_cons, sum_sizes_cons.
    pose proof (wire_size_pos d Hnn).
    pose proof (sum_sizes_wire_nonneg u _ Hdu). lia. }
  destruct b as [| b]; [lia |].
  cbn [read_retry].
  destruct (read_loop_prefix t (S b - length t) fc cpu (r_write (queue fc))
              {| l_read := r_read (queue fc); l_iter := iter;
                 l_copied := copied; l_remain := count iter |})
    as (fc1 & Hrun & Hdone & Hrr & Hrw1); cbn [l_read l_iter l_remain];
    try done; try lia.
  { intros k d Hk. apply Hring. by apply lookup_app_l_Some. }
  { intros k Hk. rewrite Hrw. apply ring_apart; lia. }
  replace (length t + (S b - length t))%nat with (S b) in Hrun by lia.
  rewrite Hrun. clear Hrun. cbn [l_read] in Hdone.
  cbn [l_read l_iter l_copied l_remain].
  rewrite read_loop_at_write by (cbn [l_read]; by rewrite Hrw, Ht).
  cbn [mbind result_bind l_read l_iter l_copied l_remain].
  set (fcB := set_queue _ fc1).
  destruct (Z.eqb_spec (count iter - sum_sizes (wire_size cfg <$> t)) 0)
    as [Hz | _]; [lia |]. cbn [negb].
  assert (HrB : r_read (queue fcB)
                = (r_read (queue fc) + Z.of_nat j) mod QUEUE_SIZE)
    by (unfold fcB; conn_fields; by rewrite Ht).
  assert (HrwB : r_write (queue fcB)
                 = (r_read (queue fc) + Z.of_nat j) mod QUEUE_SIZE)
    by (unfold fcB; conn_fields; by rewrite Hrw1, Hrw).
  assert (HwB : w_write (queue fcB) = w_write (queue fc)).
  { unfold fcB. conn_fields. by destruct Hdone as (Hw & _). }
  unfold request_pending. rewrite HrB, HrwB, HwB, Z.eqb_refl. cbn [negb].
  destruct (Z.eqb_spec ((r_read (queue fc) + Z.of_nat j) mod QUEUE_SIZE)
              (w_write (queue fc))) as [Heq | _].
  { exfalso. rewrite Hww in Heq. revert Heq. apply ring_apart; lia. }
  set (fcC := set_queue _ fcB).
  set (iter1 := {| count := count iter - sum_sizes (wire_size cfg <$> t) |}).
  destruct (read_retry_final b fcC cpu iter1
              (copied + sum_sizes (wire_size cfg <$> t)) u ds2
              (length (u ++ ds2)))
    as (fc' & Hrun & Hdone' & Hr').
  - unfold fcC, fcB. conn_fields.
    rewrite (delivered_lengths _ _ _ _ Hdone). done.
  - change (r_read (queue fcC)) with (r_read (queue fcB)). rewrite HrB.
    apply Z.mod_pos_bound. lia.
  - rewrite length_app. lia.
  - intros k d Hk.
    change (r_read (queue fcC)) with (r_read (queue fcB)). rewrite HrB.
    change (requests (queue fcC)) with (requests (queue fc1)).
    rewrite ring_pos_add.
    destruct Hdone as (_ & _ & _ & _ & _ & Hother & _).
    rewrite Hother.
    + replace (r_read (queue fc) + Z.of_nat j + Z.of_nat k)
        with (r_read (queue fc) + Z.of_nat (length t + k)) by lia.
      apply Hring. by rewrite lookup_app_r, Nat.add_comm, Nat.add_sub by lia.
    + intros k' Hk' Heq. apply lookup_lt_Some in Hk. rewrite length_app in Hk.
      apply Z2Nat.inj in Heq;
        [| apply Z.mod_pos_bound; lia | apply Z.mod_pos_bound; lia].
      replace (r_read (queue fc) + Z.of_nat j + Z.of_nat k)
        with (r_read (queue fc) + Z.of_nat (length t + k)) in Heq by lia.
      revert Heq. apply ring_apart; lia.
  - change (w_write (queue fcC)) with (w_write (queue fcB)).
    change (r_read (queue fcC)) with (r_read (queue fcB)).
    rewrite HwB, HrB, Hww, ring_pos_add, length_app. f_equal. lia.
  - change (r_write (queue fcC)) with (w_write (queue fc)).
    change (r_read (queue fcC)) with (r_read (queue fcB)).
    rewrite HrB, Hww, ring_pos_add, length_app. f_equal. lia.
  - rewrite length_app. lia.
  - destruct Hdone as (_ & _ & _ & _ & _ & _ & _ & _ & _ & _ & _ & _ & _ & Hk).
    unfold fcC, fcB. conn_fields.
    eapply Forall_impl; [exact Hdu |]. intros d Hd.
    by eapply mem_kept_deliverable.
  - cbn. lia.
  - destruct Hfit as [[-> Hle] | Hex];
      [left; split; [done | cbn; lia] | right; cbn; lia].
  - lia.
  - exists fc'. split; [| split].
    + change (count iter1)
        with (count iter - sum_sizes (wire_size cfg <$> t)) in Hrun at 1.
      rewrite Hrun. unfold iter1. cbn [count user_ok data out].
      rewrite !fmap_app, !sum_sizes_app, concat_app, <- app_assoc.
      rewrite !Z.sub_add_distr, !Z.add_assoc. done.
    + eapply delivered_trans; [exact Hdone |].
      rewrite Ht, <- HrB. exact Hdone'.
    + rewrite Hr'.
      change (r_read (queue fcC)) with (r_read (queue fcB)). rewrite HrB.
      rewrite ring_pos_add. f_equal. lia.
Qed.

(** X14: the read call hands requests over in the order they were queued,
    a whole number of them.  With the requests [ds1 ++ ds2] pending, each
    allocated and as long as its header says, a call whose buffer either
    has room for all of them ([ds2] empty) or ends exactly after [ds1]
    returns the total size of [ds1]; the consumer has received, for each
    request of [ds1] in queue order, its header and then its argument; the
    requests of [ds2] are still pending, in their order; the delivered
    requests stay in the slot table to await their completion, and nothing
    was finalized.  This holds wherever the reader's cached copy of the
    write cursor stands. *)
Theorem fuse_dev_do_read_fifo budget env fc cpu nonblock iter ds1 ds2 (j : nat) :
  queue_shape cfg (queue fc) ->
  pending_queue cfg (queue fc) = Some <$> (ds1 ++ ds2).*1 ->
  ds1 ++ ds2 <> [] ->
  r_write (queue fc) = (r_read (queue fc) + Z.of_nat j) mod QUEUE_SIZE ->
  (j <= length (ds1 ++ ds2))%nat ->
  Forall (deliverable cfg (mem fc)) (ds1 ++ ds2) ->
  sum_sizes (wire_size cfg <$> ds1) <= user_ok iter ->
  (ds2 = [] /\ sum_sizes (wire_size cfg <$> ds1) <= count iter) \/
  sum_sizes (wire_size cfg <$> ds1) = count iter ->
  (length ds1 + 1 < budget)%nat ->
  exists fc' iter',
    fuse_dev_do_read cfg budget env fc cpu nonblock iter
    = Ret (fc', iter', sum_sizes (wire_size cfg <$> ds1)) /\
    out iter' = out iter ++ concat (wire_chunks cfg <$> ds1) /\
    count iter' = count iter - sum_sizes (wire_size cfg <$> ds1) /\
    pending_queue cfg (queue fc') = Some <$> ds2.*1 /\
    log fc' = log fc /\ request_map fc' = request_map fc /\
    free_pool fc' = free_pool fc.
Proof.
  intros Hshape Hpq Hne Hrw Hj Hdel Husr Hfit Hb.
  assert (Hq : 0 < QUEUE_SIZE < 2 ^ 31) by apply Hcfg.
  destruct (pending_queue_ring _ _ Hshape Hpq) as (Hring & Hmany & Hww).
  destruct Hshape as (Hread & Hwrite & Hlen).
  assert (Hpos : (0 < length (ds1 ++ ds2))%nat).
  { destruct (ds1 ++ ds2); [done | cbn; lia]. }
  assert (Hstart : (r_read (queue fc) + Z.of_nat 0) mod QUEUE_SIZE
                   = r_read (queue fc)).
  { rewrite Z.add_0_r. by apply Z.mod_small. }
  (* the state after the first [request_pending] *)
  assert (Hpend : exists fc0 (j0 : nat),
            request_pending fc = (fc0, true) /\
            (fc0 = fc \/
             fc0 = set_queue (set_r_write (w_write (queue fc)) (queue fc)) fc) /\
            r_write (queue fc0)
            = (r_read (queue fc) + Z.of_nat j0) mod QUEUE_SIZE /\
            (j0 <= length (ds1 ++ ds2))%nat).
  { unfold request_pending.
    destruct (Z.eqb_spec (r_read (queue fc)) (r_write (queue fc))) as [He | Hn];
      cbn [negb].
    - destruct (Z.eqb_spec (r_read (queue fc)) (w_write (queue fc)))
        as [Hw | _].
      + exfalso. rewrite Hww, <- Hstart in Hw at 1. revert Hw.
        apply ring_apart; lia.
      + eexists _, (length (ds1 ++ ds2)). split; [reflexivity |].
        split; [by right |]. split; [exact Hww | done].
    - exists fc, j. split; [done |]. split; [by left |]. done. }
  destruct Hpend as (fc0 & j0 & Hp & Hfc0 & Hrw0 & Hj0).
  assert (Hsame : queue fc0 = queue fc \/
                  queue fc0 = set_r_write (w_write (queue fc)) (queue fc))
    by (destruct Hfc0 as [-> | ->]; auto).
  assert (Hreq0 : requests (queue fc0) = requests (queue fc))
    by (by destruct Hsame as [-> | ->]).
  assert (Hr0 : r_read (queue fc0) = r_read (queue fc))
    by (by destruct Hsame as [-> | ->]).
  assert (Hw0 : w_write (queue fc0) = w_write (queue fc))
    by (by destruct Hsame as [-> | ->]).
  assert (Hm0 : mem fc0 = mem fc) by (by destruct Hfc0 as [-> | ->]).
  destruct (read_retry_deliver budget fc0 cpu iter 0 ds1 ds2 j0)
    as (fc' & Hrun & Hdone & Hr').
  - by rewrite Hreq0.
  - by rewrite Hr0.
  - done.
  - intros k d Hk. rewrite Hreq0, Hr0. by apply Hring.
  - by rewrite Hw0, Hr0.
  - by rewrite Hr0.
  - done.
  - by rewrite Hm0.
  - done.
  - done.
  - done.
  - assert (Hdone0 : delivered cfg fc fc' (r_read (queue fc)) (length ds1)).
    { rewrite <- Hr0. by destruct Hfc0 as [-> | ->]. }
    clear Hdone.
    eexists fc', _. split.
    + unfold fuse_dev_do_read. rewrite Hp. cbn [negb].
      rewrite Hrun. by rewrite Z.add_0_l.
    + cbn [out count].
      destruct Hdone0 as (Hd1 & _ & _ & Hd4 & _ & Hd6 & Hd7 & Hd8 & Hd9
                          & Hd10 & Hd11 & _).
      split; [done |]. split; [done |].
      split; [| split; [done |]; split; [done |]].
      * apply (ring_pending_queue _
                 ((r_read (queue fc) + Z.of_nat (length ds1)) mod QUEUE_SIZE)).
        -- apply Z.mod_pos_bound. lia.
        -- by rewrite Hr', Hr0.
        -- rewrite length_app in Hmany. lia.
        -- rewrite Hd1, Hww, ring_pos_add, length_app. f_equal. lia.
        -- intros k d Hk. rewrite ring_pos_add.
           pose proof (lookup_lt_Some _ _ _ Hk) as Hklt.
           rewrite length_app in Hmany.
           rewrite Hd6.
           ++ replace (r_read (queue fc) + Z.of_nat (length ds1) + Z.of_nat k)
                with (r_read (queue fc) + Z.of_nat (length ds1 + k)) by lia.
              apply Hring.
              by rewrite lookup_app_r, Nat.add_comm, Nat.add_sub by lia.
           ++ intros k' Hk' Heq.
              apply Z2Nat.inj in Heq;
                [| apply Z.mod_pos_bound; lia | apply Z.mod_pos_bound; lia].
              replace (r_read (queue fc) + Z.of_nat (length ds1) + Z.of_nat k)
                with (r_read (queue fc) + Z.of_nat (length ds1 + k)) in Heq
                by lia.
              revert Heq. apply ring_apart; lia.
      * unfold free_pool. by rewrite Hd9, Hd10, Hd11.
Qed.

(** ** Lifecycle *)

(** [end_queued_requests], called with [fc->lock] held on CPU [cpu], on a
    connection that satisfies the invariant and whose slot table is
    scanned in full. *)
Lemma end_queued_requests_all fc cpu ids :
  QUEUE_SIZE = MAX_IDS ->
  conn_inv cfg fc -> per_cpu_ids fc !! cpu = Some ids ->
  (PER_CPU < pc_num_free_ids ids + Z.of_nat (length (registered fc)) ->
   end_queued_requests cfg fc cpu = Spin) /\
  (pc_num_free_ids ids + Z.of_nat (length (registered fc)) <= PER_CPU ->
   exists fc', end_queued_requests cfg fc cpu = Ret fc' /\
     conn_inv cfg fc' /\
     request_map fc' = replicate (length (request_map fc)) None /\
     NoDup (registered fc) /\
     log fc' = log fc ++ concat (finalization cfg (mem fc) (- ECONNABORTED)
                                   <$> registered fc) /\
     free_pool fc' ≡ₚ (unique_at (mem fc) <$> registered fc) ++ free_pool fc /\
     connected fc' = connected fc /\
     allow_disconnected fc' = allow_disconnected fc /\
     queue fc' = queue fc /\
     length (per_cpu_ids fc') = length (per_cpu_ids fc)).
Proof.
  intros Hsize Hinv Hids.
  pose proof (conn_inv_room cfg Hcfg fc Hinv) as Hcount.
  destruct Hinv as (Hs & Htab & Hnd0).
  assert (Hn : Z.to_nat QUEUE_SIZE = length (request_map fc)).
  { destruct Hs as (_ & _ & _ & ?). lia. }
  unfold end_queued_requests. rewrite Hn.
  destruct (end_queued_requests_from_ok cfg Hcfg cpu
              (length (request_map fc)) 0 fc ids)
    as [Hspin Hok].
  { done. }
  { done. }
  { intros j p _ Hp. by apply Htab. }
  { cbn. lia. }
  { cbn. rewrite drop_0, take_ge by done. exact Hcount. }
  change (Z.of_nat 0) with 0 in Hspin, Hok.
  rewrite drop_0, take_ge in Hspin, Hok by done.
  fold (registered fc) in Hspin, Hok.
  split; [exact Hspin |]. intros Hroom.
  destruct (Hok Hroom)
    as (fc' & Hrun & Hs' & Hmap' & Hnd & Hlog' & Hperm' & Hmem' & Hc' & Ha'
        & Hq' & Hl').
  assert (Hmap : request_map fc' = replicate (length (request_map fc)) None).
  { rewrite Hmap'. cbn. by rewrite drop_ge, app_nil_r by lia. }
  exists fc'. split; [done |]. split.
  { split; [done |]. split.
    - intros i req Hi. rewrite Hmap in Hi.
      apply lookup_replicate in Hi as [? _]. congruence.
    - unfold registered at 1. rewrite Hmap, omap_replicate_None.
      cbn [fmap list_fmap]. rewrite app_nil_r, Hperm'.
      eapply NoDup_Permutation_proper; [| exact Hnd0].
      rewrite !fmap_app. apply Permutation_app_comm. }
  by repeat split.
Qed.

(** X15: [fuse_abort_conn] holds [fc->lock] while it finalizes the
    requests, so it is stated for a call on a CPU whose cache has room
    for the identifiers of all registered requests: then no release
    flushes, which would take the lock again.  The call finalizes the
    requests in flight but does not take them off the ring: the cursors
    and the ring slots are as before and still hold the addresses of the
    requests that were queued (which, without __PX_BLKMQ__, have been
    freed, as the log shows).  The waiters are woken once, after the last
    request was finalized; the invariant of the connection holds again;
    and a second [fuse_abort_conn] does nothing. *)
Theorem fuse_abort_conn_frame fc cpu ids :
  QUEUE_SIZE = MAX_IDS ->
  connected fc = true ->
  conn_inv cfg fc -> per_cpu_ids fc !! cpu = Some ids ->
  pc_num_free_ids ids + Z.of_nat (length (registered fc)) <= PER_CPU ->
  exists fc', fuse_abort_conn cfg fc cpu = Ret fc' /\
    queue fc' = queue fc /\
    log fc' = log fc ++ concat (finalization cfg (mem fc) (- ECONNABORTED)
                                  <$> registered fc) ++ [EvWakeAll] /\
    conn_inv cfg fc' /\ registered fc' = [] /\
    fuse_abort_conn cfg fc' cpu = Ret fc'.
Proof.
  intros Hsize Hconn Hinv Hids Hroom.
  destruct (end_queued_requests_all (set_connected false fc) cpu ids
              Hsize Hinv Hids) as [_ Hok].
  destruct (Hok Hroom)
    as (fc1 & Hrun & Hinv1 & Hmap1 & _ & Hlog1 & _ & Hc1 & _ & Hq1 & _).
  exists (emit EvWakeAll fc1).
  split; [by unfold fuse_abort_conn; rewrite Hconn, Hrun |].
  split; [exact Hq1 |]. split; [| split; [exact Hinv1 |]].
  - cbn [log emit]. rewrite Hlog1. by rewrite <- app_assoc.
  - split.
    + unfold registered. cbn [request_map emit]. rewrite Hmap1.
      apply omap_replicate_None.
    + unfold fuse_abort_conn. cbn [connected emit]. by rewrite Hc1.
Qed.

(** X16: closing the device ([fuse_dev_release]) takes [fc->lock], marks
    the channel disconnected and finalizes the requests in the slot table
    with the lock held.  When the cache of the calling CPU has room for
    the identifiers of all of them, every request is finalized with
    -ECONNABORTED, each exactly once, whether the channel was connected or
    not; the slot table is empty afterwards, the ring is not touched, no
    waiter is woken, and one reference to the connection is dropped, which
    releases the connection when it was the last.  When the cache has not
    that much room, the call never returns: the release that finds the
    cache full waits for the lock the call holds. *)
Theorem fuse_dev_release_aborts f c cpu ids :
  QUEUE_SIZE = MAX_IDS ->
  private_data f = Some c ->
  conn_inv cfg (co_conn c) -> per_cpu_ids (co_conn c) !! cpu = Some ids ->
  (PER_CPU < pc_num_free_ids ids
             + Z.of_nat (length (registered (co_conn c))) ->
   fuse_dev_release cfg f cpu = Spin) /\
  (pc_num_free_ids ids + Z.of_nat (length (registered (co_conn c)))
   <= PER_CPU ->
  exists fc',
    fuse_dev_release cfg f cpu
    = Ret ({| private_data :=
                Some {| co_conn := fc'; co_count := int32 (co_count c - 1);
                        co_released := if int32 (co_count c - 1) =? 0
                                       then true else co_released c |};
              f_flags := f_flags f |}, 0) /\
    connected fc' = false /\ registered fc' = [] /\
    NoDup (registered (co_conn c)) /\
    log fc' = log (co_conn c)
              ++ concat (finalization cfg (mem (co_conn c)) (- ECONNABORTED)
                           <$> registered (co_conn c)) /\
    (forall req r, req ∈ registered (co_conn c) ->
       mem (co_conn c) !! req = Some r ->
       ends_of req (drop (length (log (co_conn c))) (log fc'))
       = [EvEnd req (- ECONNABORTED) (end_ r)]) /\
    free_pool fc' ≡ₚ (unique_at (mem (co_conn c)) <$> registered (co_conn c))
                      ++ free_pool (co_conn c) /\
    queue fc' = queue (co_conn c)).
Proof.
  intros Hsize Hf Hinv Hids.
  destruct (end_queued_requests_all (set_connected false (co_conn c)) cpu ids
              Hsize Hinv Hids) as [Hspin Hok].
  split.
  { intros Hover. unfold fuse_dev_release, fuse_get_conn.
    by rewrite Hf, (Hspin Hover). }
  intros Hroom.
  destruct (Hok Hroom)
    as (fc1 & Hrun & Hinv1 & Hmap1 & Hnd & Hlog1 & Hpool & Hc1 & _ & Hq1 & _).
  exists fc1. split.
  { unfold fuse_dev_release, fuse_get_conn. rewrite Hf, Hrun. done. }
  split; [exact Hc1 |]. split.
  { unfold registered. rewrite Hmap1. apply omap_replicate_None. }
  split; [exact Hnd |]. split; [exact Hlog1 |].
  split; [| split; [exact Hpool | exact Hq1]].
  intros req r Hreq Hr. rewrite Hlog1.
  change (log (set_connected false (co_conn c))) with (log (co_conn c)).
  rewrite drop_app_length.
  by rewrite (ends_of_finalizations cfg _ _ _ req r).
Qed.

Lemma pollin_set :
  Z.land (Z.lor (Z.lor POLLOUT POLLWRNORM) (Z.lor POLLIN POLLRDNORM)) POLLIN = 1.
Proof. reflexivity. Qed.

Lemma pollin_clear : Z.land (Z.lor POLLOUT POLLWRNORM) POLLIN = 0.
Proof. reflexivity. Qed.

(** X17: what [fuse_dev_poll] reports agrees with what a read call does
    next.  Without a connection, or on a channel that is not connected, it
    reports POLLERR.  On a connected channel it always reports the device
    writable; it reports it readable exactly when a request is pending,
    and then a read call through [fuse_dev_read_iter] that returns,
    returns a byte count and no error; when it does not, a non-blocking read call
    returns -EAGAIN and changes nothing. *)
Theorem fuse_dev_poll_read f f1 mask :
  fuse_dev_poll f = (f1, mask) ->
  (forall c, private_data f = Some c -> connected (co_conn c) = false ->
     mask = POLLERR /\ f1 = f) /\
  (private_data f = None -> mask = POLLERR /\ f1 = f) /\
  (forall c, private_data f = Some c -> connected (co_conn c) = true ->
     Z.land mask POLLOUT = POLLOUT /\
     (Z.land mask POLLIN = POLLIN <-> (request_pending (co_conn c)).2 = true) /\
     (Z.land mask POLLIN = POLLIN ->
      forall budget env cpu to f2 to2 ret,
        fuse_dev_read_iter cfg budget env f1 cpu to = Ret (f2, to2, ret) ->
        0 <= ret) /\
     (Z.land mask POLLIN <> POLLIN ->
      forall budget env cpu to,
        Z.land (f_flags f) O_NONBLOCK <> 0 ->
        fuse_dev_read_iter cfg budget env f1 cpu to = Ret (f1, to, - EAGAIN))).
Proof.
  unfold fuse_dev_poll, fuse_get_conn. intros Hpoll.
  split; [| split].
  - intros c Hc Hconn. rewrite Hc, Hconn in Hpoll. cbn in Hpoll.
    by injection Hpoll as <- <-.
  - intros Hc. rewrite Hc in Hpoll. by injection Hpoll as <- <-.
  - intros c Hc Hconn. rewrite Hc, Hconn in Hpoll. cbn [negb] in Hpoll.
    destruct (request_pending (co_conn c)) as [fc0 pending] eqn:Hp.
    injection Hpoll as <- <-.
    pose proof (request_pending_spec _ _ _ Hp)
      as (Hlog & Hmem & Hr & Hreqs & Htrue & Hfalse).
    assert (Hconn0 : connected fc0 = true).
    { unfold request_pending in Hp.
      destruct (negb _) in Hp; [by injection Hp as <- _ |].
      destruct (_ =? _) in Hp; by injection Hp as <- _. }
    destruct pending; cbn [snd].
    + split; [reflexivity |]. split; [done |]. split; [| done].
      intros _ budget env cpu to f2 to2 ret Hread.
      unfold fuse_dev_read_iter, fuse_get_conn, with_conn in Hread.
      cbn [private_data co_conn f_flags] in Hread.
      bind_inv Hread. destruct a as [[fc2 to3] ret3].
      injection Hread as _ _ <-.
      unfold fuse_dev_do_read in E.
      assert (Hp0 : request_pending fc0 = (fc0, true)).
      { unfold request_pending.
        destruct (Z.eqb_spec (r_read (queue fc0)) (r_write (queue fc0)));
          [by specialize (Htrue eq_refl) | done]. }
      rewrite Hp0 in E. cbn [negb] in E.
      apply (read_retry_spec cfg Hcfg) in E as (Hle & _). lia.
    + split; [reflexivity |]. split; [done |]. split; [done |].
      intros _ budget env cpu to Hnb.
      destruct (Hfalse eq_refl) as [-> Heq].
      unfold fuse_dev_read_iter, fuse_get_conn, with_conn.
      cbn [private_data co_conn f_flags].
      unfold fuse_dev_do_read. rewrite Hp. cbn [negb].
      destruct (Z.eqb_spec (Z.land (f_flags f) O_NONBLOCK) 0); [done |].
      cbn [negb andb]. rewrite Hconn. cbn [mbind result_bind].
      destruct f as [pd fl], c as [cc cn cr]. cbn in Hc. subst pd. done.
Qed.

(** X18: [fuse_conn_init] succeeds exactly when its four allocations do;
    when one fails it returns -ENOMEM, and every array allocated until
    then has been freed, each once: the failure path leaks nothing and
    frees nothing twice. *)
Theorem fuse_conn_init_rc_balanced avail ncpus :
  ((fuse_conn_init_rc cfg avail ncpus).1.1 = 0 <-> forall a, avail a = true) /\
  ((fuse_conn_init_rc cfg avail ncpus).1.1 = 0 ->
   (fuse_conn_init_rc cfg avail ncpus).1.2 = Some (fuse_conn_init cfg ncpus) /\
   forall a, Freed a ∉ (fuse_conn_init_rc cfg avail ncpus).2) /\
  ((fuse_conn_init_rc cfg avail ncpus).1.1 <> 0 ->
   (fuse_conn_init_rc cfg avail ncpus).1.1 = - ENOMEM /\
   (fuse_conn_init_rc cfg avail ncpus).1.2 = None /\
   NoDup (fuse_conn_init_rc cfg avail ncpus).2 /\
   forall a, Allocated a ∈ (fuse_conn_init_rc cfg avail ncpus).2
             <-> Freed a ∈ (fuse_conn_init_rc cfg avail ncpus).2).
Proof.
  assert (Hall : (forall a, avail a = true)
                 <-> avail RequestMap = true /\ avail FreeIds = true /\
                     avail PerCpuIds = true /\ avail RingRequests = true).
  { split; [intros H; repeat split; apply H | by intros (? & ? & ? & ?) []]. }
  rewrite Hall. clear Hall.
  unfold fuse_conn_init_rc, fuse_req_queue_init_rc, ENOMEM.
  destruct (avail RequestMap), (avail FreeIds), (avail PerCpuIds),
    (avail RingRequests);
    cbn [negb fst snd Z.eqb Z.opp fuse_conn_free_allocs
         has_request_map has_free_ids has_per_cpu_ids has_requests app];
    (split; [split; [intros Hrc | intros (? & ? & ? & ?)];
             first [done | discriminate]
            | split; intros Hrc; try done]).
  all: try (split; [reflexivity |]; intros a Hin;
            apply (bool_decide_pack _) in Hin; destruct a;
            vm_compute in Hin; destruct Hin).
  all: split; [reflexivity |]; split; [reflexivity |];
    split; [apply (bool_decide_unpack _); vm_compute; exact I |];
    intros a; destruct a; split; intros Hin;
    first [ apply (bool_decide_unpack _); vm_compute; exact I
          | apply (bool_decide_pack _) in Hin; vm_compute in Hin;
            destruct Hin ].
Qed.

(** ** Zero writes *)

Lemma le_word_nonneg (l : list Z) :
  Forall (fun b => 0 <= b) l -> 0 <= foldr (fun b acc => b + 256 * acc) 0 l.
Proof. induction 1 as [| b l Hb _ IH]; cbn; lia. Qed.

Lemma le_word_zero (l : list Z) :
  Forall (fun b => 0 <= b) l ->
  (foldr (fun b acc => b + 256 * acc) 0 l =? 0) = forallb (Z.eqb 0) l.
Proof.
  induction 1 as [| b l Hb Hl IH]; [done |].
  pose proof (le_word_nonneg l Hl) as Hacc. cbn [foldr forallb].
  rewrite <- IH.
  destruct (Z.eqb_spec 0 b) as [<- | Hne]; cbn [andb].
  - destruct (Z.eqb_spec (foldr (fun b acc => b + 256 * acc) 0 l) 0) as [-> | ?].
    + done.
    + apply Z.eqb_neq. lia.
  - apply Z.eqb_neq. lia.
Qed.

Lemma words_scan (n : nat) : forall p : list Z,
  Forall (fun b => 0 <= b) p ->
  forallb (fun i => word_at p i =? 0) (seq 0 n)
  = forallb (Z.eqb 0) (take (8 * n) p).
Proof.
  induction n as [| n IH]; intros p Hp; [done |].
  cbn [seq forallb]. rewrite <- fmap_S_seq.
  assert (Hshift : forallb (fun i => word_at p i =? 0) (S <$> seq 0 n)
                   = forallb (fun i => word_at (drop 8 p) i =? 0) (seq 0 n)).
  { generalize (seq 0 n). intros l. induction l as [| i l IHl]; [done |].
    cbn [fmap list_fmap forallb]. rewrite <- IHl. f_equal.
    unfold word_at. rewrite drop_drop.
    by replace (8 * S i)%nat with (8 + 8 * i)%nat by lia. }
  rewrite Hshift, IH by (by apply Forall_drop).
  unfold word_at. rewrite Nat.mul_0_r, drop_0.
  rewrite le_word_zero by (by apply Forall_take).
  replace (8 * S n)%nat with (8 + 8 * n)%nat by lia.
  by rewrite <- take_take_drop, forallb_app.
Qed.

Lemma bytes_scan (c : nat) : forall (s : nat) (p : list Z),
  (s + c <= length p)%nat ->
  forallb (fun i => byte_at p i =? 0) (seq s c)
  = forallb (Z.eqb 0) (take c (drop s p)).
Proof.
  induction c as [| c IH]; intros s p Hlen; [done |].
  cbn [seq forallb]. rewrite IH by lia.
  destruct (lookup_lt_is_Some_2 p s) as [b Hb]; [lia |].
  rewrite (drop_S _ _ _ Hb). cbn [take forallb].
  unfold byte_at. rewrite Hb. cbn [default].
  by rewrite Z.eqb_sym.
Qed.

Lemma segment_is_zero_all (p : list Z) :
  Forall (fun b => 0 <= b) p ->
  segment_is_zero p = forallb (Z.eqb 0) p.
Proof.
  intros Hp. unfold segment_is_zero.
  rewrite words_scan by done.
  pose proof (Nat.div_mod_eq (length p) 8) as Hdiv.
  rewrite bytes_scan by lia.
  replace (length p - length p mod 8)%nat with (8 * (length p / 8))%nat by lia.
  rewrite (take_ge (drop _ _)) by (rewrite length_drop; lia).
  by rewrite <- forallb_app, take_drop.
Qed.

(** X19: the scan of [fuse_convert_zero_writes], by words of 64 bits and
    then over the bytes that are left of each segment, turns a request
    into a PXD_DISCARD exactly when every byte of every segment is zero:
    no byte escapes the two loops, whatever the lengths of the segments,
    and nothing but the opcode is changed.  (Bytes are read as unsigned
    values.) *)
Theorem fuse_convert_zero_writes_scan_all (r : fuse_req) :
  Forall (Forall (fun b => 0 <= b)) (segments (rq r)) ->
  fuse_convert_zero_writes_scan cfg r = fuse_convert_zero_writes cfg r /\
  (fuse_convert_zero_writes_scan cfg r
   = if bool_decide (Forall (Forall (fun b => b = 0)) (segments (rq r)))
     then set_in_opcode (PXD_DISCARD cfg) r else r).
Proof.
  intros Hb.
  assert (Hscan : scan_segments (segments (rq r))
                  = forallb (forallb (Z.eqb 0)) (segments (rq r))).
  { induction Hb as [| p segs Hp _ IH]; [done |].
    cbn [scan_segments forallb]. rewrite segment_is_zero_all by done.
    by destruct (forallb (Z.eqb 0) p). }
  unfold fuse_convert_zero_writes_scan, fuse_convert_zero_writes.
  rewrite Hscan. split; [done |].
  assert (Hdec : forallb (forallb (Z.eqb 0)) (segments (rq r))
                 = bool_decide (Forall (Forall (fun b => b = 0))
                                  (segments (rq r)))).
  { clear. induction (segments (rq r)) as [| p segs IH]; [done |].
    cbn [forallb]. rewrite IH.
    assert (Hp : forallb (Z.eqb 0) p = bool_decide (Forall (fun b => b = 0) p)).
    { clear. induction p as [| b p IHp]; [done |].
      cbn [forallb]. rewrite IHp.
      destruct (Z.eqb_spec 0 b) as [<- | Hne]; cbn [andb].
      - apply bool_decide_ext. split; [by constructor |].
        by inversion 1.
      - symmetry. apply bool_decide_eq_false. inversion 1. congruence. }
    rewrite Hp.
    destruct (bool_decide_reflect (Forall (fun b => b = 0) p)) as [Hz | Hnz];
      cbn [andb].
    - apply bool_decide_ext. split; [by constructor |]. by inversion 1.
    - symmetry. apply bool_decide_eq_false. by inversion 1. }
  by rewrite Hdec.
Qed.

(** ** Reading from an idle channel *)

Lemma request_pending_idle fc :
  r_read (queue fc) = r_write (queue fc) ->
  r_read (queue fc) = w_write (queue fc) ->
  request_pending fc = (fc, false).
Proof.
  intros Hr Hw. unfold request_pending.
  rewrite <- Hr, <- Hw, Z.eqb_refl. done.
Qed.

Lemma request_pending_again fc fc1 :
  request_pending fc = (fc1, true) ->
  request_pending fc1 = (fc1, true) /\ connected fc1 = connected fc.
Proof.
  unfold request_pending.
  destruct (Z.eqb_spec (r_read (queue fc)) (r_write (queue fc))) as [He | Hn];
    cbn [negb].
  - destruct (Z.eqb_spec (r_read (queue fc)) (w_write (queue fc)))
      as [Hw | Hw]; [done |].
    intros [= <-]. cbn.
    destruct (Z.eqb_spec (r_read (queue fc)) (w_write (queue fc))); done.
  - intros [= <-].
    by destruct (Z.eqb_spec (r_read (queue fc)) (r_write (queue fc))).
Qed.

(** X20: a read call on a channel with nothing pending.  On a channel that
    is not connected it returns -ENODEV, blocking or not.  On a connected
    channel a non-blocking call returns -EAGAIN; a blocking call sleeps,
    returns -ERESTARTSYS when a signal is pending, and, when it is woken
    with a request queued, goes on exactly as a call made at that moment.
    In every case that returns an error the connection and the buffer are
    untouched. *)
Theorem fuse_dev_do_read_idle budget env fc cpu nonblock iter :
  r_read (queue fc) = r_write (queue fc) ->
  r_read (queue fc) = w_write (queue fc) ->
  (connected fc = false ->
   fuse_dev_do_read cfg budget env fc cpu nonblock iter
   = Ret (fc, iter, - ENODEV)) /\
  (connected fc = true -> nonblock = true ->
   fuse_dev_do_read cfg budget env fc cpu nonblock iter
   = Ret (fc, iter, - EAGAIN)) /\
  (connected fc = true -> nonblock = false ->
   forall sched env', env = (true, sched) :: env' ->
     fuse_dev_do_read cfg budget env fc cpu nonblock iter
     = Ret (fc, iter, - ERESTARTSYS)) /\
  (connected fc = true -> nonblock = false -> env = [] ->
   fuse_dev_do_read cfg budget env fc cpu nonblock iter = Spin) /\
  (connected fc = true -> nonblock = false ->
   forall sched env', env = (false, sched) :: env' ->
     connected (sched fc) = true ->
     (request_pending (sched fc)).2 = true ->
     fuse_dev_do_read cfg budget env fc cpu nonblock iter
     = fuse_dev_do_read cfg budget env' (sched fc) cpu nonblock iter).
Proof.
  intros Hr Hw. pose proof (request_pending_idle fc Hr Hw) as Hidle.
  unfold fuse_dev_do_read at 1 2 3 4 5. rewrite Hidle. cbn [negb].
  split; [| split; [| split; [| split]]].
  - intros Hc. rewrite Hc, andb_false_r.
    destruct env as [| [s f] env']; cbn [request_wait]; rewrite Hc;
      cbn [mbind result_bind]; by rewrite Hc.
  - intros Hc ->. by rewrite Hc.
  - intros Hc -> sched env' ->. cbn [andb request_wait].
    rewrite Hc, Hidle. cbn [mbind result_bind]. by rewrite Hc, Hidle.
  - intros Hc -> ->. cbn [andb request_wait]. by rewrite Hc, Hidle.
  - intros Hc -> sched env' -> Hc' Hp'. cbn [andb request_wait].
    rewrite Hc, Hidle.
    destruct (request_pending (sched fc)) as [fc1 b] eqn:Hp1.
    cbn in Hp'. subst b.
    destruct (request_pending_again _ _ Hp1) as [Hagain Hconn1].
    destruct env' as [| e env'']; cbn [request_wait];
      rewrite Hc', Hp1; cbn [mbind result_bind];
      rewrite Hconn1, Hc'; cbn [negb]; rewrite Hagain; cbn [negb];
      unfold fuse_dev_do_read; by rewrite Hp1.
Qed.

(** ** Data fetch *)

(** A negative iovec count makes [copy_in_read_data_iovec] copy all that
    is left of the message: more than IOV_BUF_SIZE iovecs' worth of bytes
    overruns the array on the stack of [fuse_notify_read_data]. *)
Lemma copy_in_read_data_iovec_overrun iter read_data data_iter :
  0 < sizeof_iovec cfg < 2 ^ 32 ->
  - 2 ^ 31 <= rd_iovcnt read_data < 0 ->
  IOV_BUF_SIZE * sizeof_iovec cfg < Z.min (count iter) (user_ok iter) ->
  copy_in_read_data_iovec cfg iter read_data data_iter = Fault.
Proof.
  intros Hsz Hcnt Hlong. unfold copy_in_read_data_iovec, IOV_BUF_SIZE in *.
  destruct (Z.eqb_spec (rd_iovcnt read_data) 0); [lia |].
  replace (Z.min (rd_iovcnt read_data) 64) with (rd_iovcnt read_data) by lia.
  assert (Hlen : u64 (rd_iovcnt read_data * sizeof_iovec cfg)
                 = 2 ^ 64 + rd_iovcnt read_data * sizeof_iovec cfg).
  { unfold u64. symmetry. apply (Z.mod_unique _ _ (-1)); nia. }
  rewrite Hlen. unfold copy_from_iter.
  destruct (Z.gtb_spec
              (Z.max 0 (Z.min (2 ^ 64 + rd_iovcnt read_data * sizeof_iovec cfg)
                          (Z.min (count iter) (user_ok iter))))
              (64 * sizeof_iovec cfg)) as [_ | Hle]; [done | nia].
Qed.

(** X21: [copy_in_read_data_iovec] takes the iovecs of a data fetch in
    batches.  For a count [iovcnt] that is not negative, a call that
    succeeds has read min(iovcnt, IOV_BUF_SIZE) iovecs, at least one and
    never more than the 64 that the array on the
    stack of [fuse_notify_read_data] holds, has consumed exactly their
    bytes from the message, and has lowered the count of iovecs still to
    come by that number; the destination iterator then covers the total
    length of the batch.  With no iovec left to take, or a message too
    short for the batch, it fails with -EFAULT and the count stays. *)
Theorem copy_in_read_data_iovec_batch iter read_data data_iter :
  0 < sizeof_iovec cfg < 2 ^ 32 ->
  0 <= rd_iovcnt read_data < 2 ^ 31 ->
  let n := Z.min (rd_iovcnt read_data) IOV_BUF_SIZE in
  let res := copy_in_read_data_iovec cfg iter read_data data_iter in
  (rd_iovcnt read_data = 0 ->
   res = Ret (- EFAULT, iter, read_data, data_iter)) /\
  (0 < rd_iovcnt read_data ->
   n * sizeof_iovec cfg <= Z.min (count iter) (user_ok iter) ->
   1 <= n <= IOV_BUF_SIZE /\
   res = Ret (0,
              {| count := count iter - n * sizeof_iovec cfg;
                 user_ok := user_ok iter - n * sizeof_iovec cfg;
                 data := drop (Z.to_nat (n * sizeof_iovec cfg)) (data iter);
                 out := out iter |},
              set_rd_iovcnt (rd_iovcnt read_data - n) read_data,
              iov_iter_init cfg
                (decode_iovecs cfg (take (Z.to_nat (n * sizeof_iovec cfg))
                                      (data iter)))
                (out data_iter))) /\
  (0 < rd_iovcnt read_data ->
   0 <= Z.min (count iter) (user_ok iter) < n * sizeof_iovec cfg ->
   exists iter', res = Ret (- EFAULT, iter', read_data, data_iter)).
Proof.
  intros Hsz Hcnt n res. unfold IOV_BUF_SIZE in *.
  subst res. unfold copy_in_read_data_iovec, IOV_BUF_SIZE. fold n.
  assert (Hlen : u64 (n * sizeof_iovec cfg) = n * sizeof_iovec cfg).
  { unfold u64. apply Z.mod_small. nia. }
  split; [| split].
  - intros ->. done.
  - intros Hpos Hfit.
    destruct (Z.eqb_spec (rd_iovcnt read_data) 0); [lia |].
    split; [lia |]. rewrite Hlen.
    rewrite copy_from_iter_full by nia.
    destruct (Z.gtb_spec (n * sizeof_iovec cfg) (64 * sizeof_iovec cfg));
      [nia |].
    by rewrite Z.eqb_refl.
  - intros Hpos Hshort.
    destruct (Z.eqb_spec (rd_iovcnt read_data) 0); [lia |].
    rewrite Hlen.
    pose proof (copy_from_iter_short (n * sizeof_iovec cfg) iter Hshort) as Hne.
    assert (Hle : (copy_from_iter (n * sizeof_iovec cfg) iter).1.2
                  <= n * sizeof_iovec cfg).
    { unfold copy_from_iter. cbn. nia. }
    destruct (copy_from_iter (n * sizeof_iovec cfg) iter) as [[bs k] it].
    cbn in Hne, Hle.
    destruct (Z.gtb_spec k (64 * sizeof_iovec cfg)); [nia |].
    destruct (Z.eqb_spec k (n * sizeof_iovec cfg)); [done |].
    by exists it.
Qed.

Lemma page_chunks_nonpos req k segs skip :
  skip <= 0 -> page_chunks req k segs skip = page_chunks req k segs 0.
Proof.
  intros Hs. destruct segs as [| seg segs]; [done |]. cbn [page_chunks].
  by destruct (Z.ltb_spec 0 skip); [lia |].
Qed.

(** X22: the loop of [fuse_notify_read_data] over the segments of a write
    request leaves out the first [read_data.offset] bytes of its payload
    and copies the rest to the consumer, segment after segment, each from
    the right page offset.  Stated for a destination with room for all of
    it: the call returns 0, takes no further iovec from the message, and
    the bytes copied are the payload less the bytes left out. *)
Theorem read_data_segments_copy req segs : forall k l,
  0 <= f_skipped l <= rd_offset (f_read_data l) ->
  let skip := rd_offset (f_read_data l) - f_skipped l in
  let total := sum_sizes (Z.of_nat ∘ length <$> segs) in
  Z.max 0 (total - skip) <= count (f_data_iter l) ->
  Z.max 0 (total - skip) <= user_ok (f_data_iter l) ->
  exists l',
    read_data_segments cfg req k segs l = Ret (0, l') /\
    f_iter l' = f_iter l /\ f_read_data l' = f_read_data l /\
    out (f_data_iter l') = out (f_data_iter l) ++ page_chunks req k segs skip /\
    count (f_data_iter l') = count (f_data_iter l) - Z.max 0 (total - skip) /\
    sum_sizes (page_chunks req k segs skip).*2 = Z.max 0 (total - skip).
Proof.
  induction segs as [| seg segs IH]; intros k l Hsk skip total Hc Hu.
  - exists l. cbn. subst total skip. cbn in *.
    rewrite app_nil_r. repeat split; try done; lia.
  - assert (Hskip : skip = rd_offset (f_read_data l) - f_skipped l) by done.
    clearbody skip.
    subst total. rewrite fmap_cons, sum_sizes_cons in Hc, Hu |- *.
    cbn [compose] in *.
    pose proof (sum_lengths_nonneg segs) as Hrest.
    remember (Z.of_nat (length seg)) as len eqn:Hlen.
    remember (sum_sizes (Z.of_nat ∘ length <$> segs)) as rest eqn:Hrst.
    cbn [read_data_segments page_chunks]. rewrite <- Hlen, <- Hskip.
    destruct (Z.ltb_spec (f_skipped l) (rd_offset (f_read_data l)))
      as [Hlt | Hge].
    + destruct (Z.ltb_spec 0 skip) as [_ | ?]; [| lia].
      destruct (Z.geb_spec skip len) as [Hall | Hpart].
      * (* the whole segment is left out *)
        destruct (Z.ltb_spec len len); [lia |].
        destruct (IH (S k)
                    {| f_iter := f_iter l; f_read_data := f_read_data l;
                       f_data_iter := f_data_iter l;
                       f_skipped := f_skipped l + len |})
          as (l' & Hrun & Hi & Hrd & Hout & Hcnt & Hsum);
          cbn [f_skipped f_read_data f_data_iter f_iter];
          rewrite <- ?Hrst; [lia | lia | lia |].
        cbn [f_skipped f_read_data f_data_iter f_iter] in *.
        rewrite <- ?Hrst in *.
        replace (rd_offset (f_read_data l) - (f_skipped l + len))
          with (skip - len) in * by lia.
        exists l'. rewrite Hrun, Hout, Hcnt, Hsum.
        repeat split; try done; lia.
      * (* the bytes left out end inside this segment *)
        destruct (Z.ltb_spec skip len); [| lia].
        rewrite copy_to_iter_full by lia.
        rewrite Z.eqb_refl. cbn [negb].
        destruct (Z.ltb_spec 0 (len - skip)); [| lia].
        destruct (IH (S k)
                    {| f_iter := f_iter l; f_read_data := f_read_data l;
                       f_data_iter :=
                         {| count := count (f_data_iter l) - (len - skip);
                            user_ok := user_ok (f_data_iter l) - (len - skip);
                            data := data (f_data_iter l);
                            out := out (f_data_iter l)
                                   ++ [(SrcPage req k skip, len - skip)] |};
                       f_skipped := rd_offset (f_read_data l) |})
          as (l' & Hrun & Hi & Hrd & Hout & Hcnt & Hsum);
          cbn [f_skipped f_read_data f_data_iter f_iter count user_ok];
          rewrite <- ?Hrst; [lia | lia | lia |].
        cbn [f_skipped f_read_data f_data_iter f_iter count user_ok out] in *.
        rewrite <- ?Hrst in *. rewrite Z.sub_diag in *.
        exists l'. rewrite Hrun, Hout, Hcnt.
        cbn [fmap list_fmap snd]. rewrite sum_sizes_cons.
        change (list_fmap _ _ snd ?x) with (x.*2). rewrite Hsum.
        rewrite <- app_assoc. repeat split; try done; lia.
    + (* nothing left out any more *)
      assert (Hs0 : skip = 0) by lia. rewrite Hs0.
      destruct (Z.ltb_spec 0 0); [lia |].
      destruct (Z.ltb_spec 0 len) as [Hpos | Hzero].
      * rewrite copy_to_iter_full by lia.
        rewrite Z.sub_0_r, Z.eqb_refl. cbn [negb].
        destruct (Z.ltb_spec 0 len); [| lia].
        destruct (IH (S k)
                    {| f_iter := f_iter l; f_read_data := f_read_data l;
                       f_data_iter :=
                         {| count := count (f_data_iter l) - len;
                            user_ok := user_ok (f_data_iter l) - len;
                            data := data (f_data_iter l);
                            out := out (f_data_iter l)
                                   ++ [(SrcPage req k 0, len)] |};
                       f_skipped := f_skipped l |})
          as (l' & Hrun & Hi & Hrd & Hout & Hcnt & Hsum);
          cbn [f_skipped f_read_data f_data_iter f_iter count user_ok];
          rewrite <- ?Hrst; [lia | lia | lia |].
        cbn [f_skipped f_read_data f_data_iter f_iter count user_ok out]
          in Hrun, Hi, Hrd, Hout, Hcnt, Hsum.
        rewrite <- ?Hrst, <- ?Hskip in Hout, Hcnt, Hsum.
        rewrite Hs0 in Hout, Hcnt, Hsum.
        exists l'. rewrite Hrun, Hout, Hcnt.
        cbn [fmap list_fmap snd]. rewrite sum_sizes_cons.
        change (list_fmap _ _ snd ?x) with (x.*2). rewrite Hsum.
        rewrite <- app_assoc. repeat split; try done; lia.
      * assert (Hl0 : len = 0) by lia.
        destruct (Z.ltb_spec 0 len); [lia |].
        destruct (IH (S k)
                    {| f_iter := f_iter l; f_read_data := f_read_data l;
                       f_data_iter := f_data_iter l;
                       f_skipped := f_skipped l |})
          as (l' & Hrun & Hi & Hrd & Hout & Hcnt & Hsum);
          cbn [f_skipped f_read_data f_data_iter f_iter count user_ok];
          rewrite <- ?Hrst; [lia | lia | lia |].
        cbn [f_skipped f_read_data f_data_iter f_iter count user_ok out]
          in Hrun, Hi, Hrd, Hout, Hcnt, Hsum.
        rewrite <- ?Hrst, <- ?Hskip in Hout, Hcnt, Hsum.
        rewrite Hs0 in Hout, Hcnt, Hsum.
        exists l'. rewrite Hrun, Hout, Hcnt, Hsum.
        repeat split; try done; lia.
Qed.

(** ** The ring: capacity and order *)

Lemma mod_diff x y n :
  0 <= x < n -> 0 <= y < n ->
  (x - y) mod n = if y <=? x then x - y else x - y + n.
Proof.
  intros Hx Hy. destruct (Z.leb_spec y x).
  - apply Z.mod_small. lia.
  - symmetry. apply (Z.mod_unique _ _ (-1)); lia.
Qed.

Lemma mod_succ x n :
  0 <= x < n -> (x + 1) mod n = if x + 1 =? n then 0 else x + 1.
Proof.
  intros Hx. destruct (Z.eqb_spec (x + 1) n) as [<- | Hne].
  - apply Z_mod_same_full.
  - apply Z.mod_small. lia.
Qed.

Lemma queue_request_cursors fc req fc' :
  queue_request cfg fc req = Ret fc' ->
  r_read (queue fc') = r_read (queue fc) /\
  w_write (queue fc') = ring_index cfg (w_write (queue fc) + 1) /\
  (w_read (queue fc') = r_read (queue fc) \/
   (w_read (queue fc') = w_read (queue fc) /\
    w_read (queue fc) <> ring_index cfg (w_write (queue fc) + 1))).
Proof.
  unfold queue_request, deref. intros H.
  bind_inv H. bind_inv H.
  destruct (mem fc !! req) as [r |] eqn:Hr; [| done].
  cbn [of_option mbind result_bind] in H. injection H as <-. cbn.
  destruct (Z.eqb_spec (w_read (queue fc))
              (ring_index cfg (w_write (queue fc) + 1))) as [Heq | Hne].
  - cbn in E. destruct (_ =? _) in E; [done |]. injection E as <-. cbn. auto.
  - injection E as <-. auto.
Qed.

(** X23: the ring holds at most FUSE_REQUEST_QUEUE_SIZE - 1 requests.
    When that many are pending, [queue_request] stops at its BUG_ON, and
    it overwrites no request that is still pending; with fewer pending it
    returns with the request appended behind them.  The writer's cached
    read cursor stays consistent. *)
Theorem queue_request_capacity fc req r :
  queue_shape cfg (queue fc) -> writer_view_ok cfg (queue fc) ->
  mem fc !! req = Some r ->
  (pending_count cfg (queue fc) = QUEUE_SIZE - 1 ->
   queue_request cfg fc req = BugOn) /\
  (pending_count cfg (queue fc) < QUEUE_SIZE - 1 ->
   exists fc', queue_request cfg fc req = Ret fc' /\
     pending_queue cfg (queue fc')
     = pending_queue cfg (queue fc) ++ [Some req] /\
     pending_count cfg (queue fc') = pending_count cfg (queue fc) + 1 /\
     queue_shape cfg (queue fc') /\ writer_view_ok cfg (queue fc')).
Proof.
  intros (Hr & Hw & Hlen) (Hwr & Hview) Hreq.
  assert (Hq : 0 < QUEUE_SIZE < 2 ^ 31) by apply Hcfg.
  unfold pending_count in *.
  rewrite (mod_diff (r_read (queue fc)) (w_read (queue fc))) in Hview by lia.
  rewrite (mod_diff (w_write (queue fc)) (r_read (queue fc))) in Hview |- * by lia.
  pose proof (ring_index_mod cfg Hcfg (w_write (queue fc) + 1)) as Hnext.
  rewrite mod_succ in Hnext by lia.
  split.
  - intros Hfull. unfold queue_request. rewrite Hnext.
    destruct (Z.leb_spec (w_read (queue fc)) (r_read (queue fc)));
      destruct (Z.leb_spec (r_read (queue fc)) (w_write (queue fc)));
      destruct (Z.eqb_spec (w_write (queue fc) + 1) QUEUE_SIZE); try lia.
    + replace (w_read (queue fc)) with 0 by lia.
      cbn. replace (r_read (queue fc)) with 0 by lia. done.
    + replace (w_read (queue fc)) with (w_write (queue fc) + 1) by lia.
      rewrite Z.eqb_refl. cbn.
      replace (r_read (queue fc)) with (w_write (queue fc) + 1) by lia.
      by rewrite Z.eqb_refl.
  - intros Hroom.
    destruct (queue_request_append cfg Hcfg fc req r)
      as (fc' & Hrun & Hpq & _); [done | done | |].
    { unfold pending_count.
      rewrite (mod_diff (w_write (queue fc)) (r_read (queue fc))) by lia.
      lia. }
    destruct (queue_request_cursors _ _ _ Hrun) as (Hr' & Hw' & Hwr').
    rewrite Hnext in Hw', Hwr'.
    assert (Hlen' : length (requests (queue fc')) = length (requests (queue fc))).
    { unfold queue_request, deref in Hrun. bind_inv Hrun. bind_inv Hrun.
      rewrite Hreq in Hrun. cbn in Hrun. injection Hrun as <-. cbn.
      unfold array_set in E0. destruct (decide _) in E0; [| done].
      injection E0 as <-. rewrite length_insert.
      destruct (w_read (queue fc) =? _) in E; [| by injection E as <-].
      cbn in E. destruct (_ =? _) in E; [done |]. by injection E as <-. }
    assert (Hw'' : 0 <= w_write (queue fc') < QUEUE_SIZE).
    { rewrite Hw'. destruct (Z.eqb_spec (w_write (queue fc) + 1) QUEUE_SIZE); lia. }
    exists fc'. split; [done |]. split; [done |].
    split; [| split].
    + rewrite Hr'.
      rewrite (mod_diff (w_write (queue fc')) (r_read (queue fc))) by lia.
      rewrite Hw'.
      destruct (Z.eqb_spec (w_write (queue fc) + 1) QUEUE_SIZE);
        destruct (Z.leb_spec (r_read (queue fc)) (w_write (queue fc)));
        repeat match goal with
               | |- context [?a <=? ?b] => destruct (Z.leb_spec a b)
               end; lia.
    + repeat split; rewrite ?Hr'; lia.
    + unfold writer_view_ok. rewrite Hr'.
      assert (Hwr2 : 0 <= w_read (queue fc') < QUEUE_SIZE)
        by (destruct Hwr' as [-> | [-> _]]; lia).
      split; [done |].
      rewrite (mod_diff (r_read (queue fc)) (w_read (queue fc'))) by lia.
      rewrite (mod_diff (w_write (queue fc')) (r_read (queue fc))) by lia.
      rewrite Hw'.
      destruct Hwr' as [-> | [-> Hne]];
        destruct (Z.eqb_spec (w_write (queue fc) + 1) QUEUE_SIZE);
        repeat match goal with
               | |- context [?a <=? ?b] => destruct (Z.leb_spec a b)
               | H : context [?a <=? ?b] |- _ => destruct (Z.leb_spec a b)
               end; lia.
Qed.

(** ** Replay *)

Lemma fuse_restart_requests_run fc queued :
  QUEUE_SIZE = MAX_IDS ->
  Z.of_nat (length (request_map fc)) = MAX_IDS ->
  (forall (i : nat) req, request_map fc !! i = Some (Some req) ->
     is_Some (mem fc !! req)) ->
  queue_shape cfg (queue fc) ->
  pending_queue cfg (queue fc) = Some <$> queued ->
  Forall (fun req => is_Some (mem fc !! req)) queued ->
  let below := filter (fun req => sequence_at (mem fc) req
                                  < replay_boundary cfg fc) (registered fc) in
  let resend := merge_sort (reqs_le (mem fc)) below in
  Z.of_nat (length below + length queued) + 1 < QUEUE_SIZE ->
  exists q',
    fuse_restart_requests cfg fc true
    = Ret (fuse_conn_wakeup (set_queue q' fc), 0) /\
    pending_queue cfg q' = Some <$> (resend ++ queued) /\
    queue_shape cfg q' /\ w_read q' = r_read q' /\
    w_sequence q' = w_sequence (queue fc) /\
    (below = [] ->
     q' = set_r_read (r_read (queue fc))
            (set_w_read (r_read (queue fc))
               (set_requests (requests (queue fc)) (queue fc)))).
Proof.
  intros Hsize Hmaplen Htab Hshape Hpend Hmem below resend Hroom.
  assert (Hq : 0 < QUEUE_SIZE) by apply Hcfg.
  pose proof (pending_count_range cfg Hcfg (queue fc)) as Hcount.
  pose proof (pending_queue_length cfg (queue fc) (proj1 Hcount)) as Hplen.
  rewrite Hpend, length_fmap in Hplen.
  assert (Hperm : resend ≡ₚ below) by apply merge_sort_Permutation.
  assert (Hrlen : length resend = length below)
    by (by apply Permutation_length).
  unfold fuse_restart_requests.
  rewrite (boundary_computed cfg Hcfg fc queued) by done.
  cbn [mbind result_bind negb].
  assert (Hn : Z.to_nat QUEUE_SIZE = length (request_map fc)) by lia.
  rewrite Hn.
  pose proof (collect_resend_ok fc (replay_boundary cfg fc)
                (length (request_map fc)) 0 []) as Hcol.
  change (Z.of_nat 0) with 0 in Hcol. rewrite Hcol by (done || lia).
  clear Hcol. cbn [mbind result_bind app].
  rewrite drop_0, take_ge by done. fold (registered fc). fold below resend.
  destruct Hshape as (Hr & Hw & Hlen).
  destruct (put_back_ok cfg Hcfg resend (length resend) (r_read (queue fc))
              (requests (queue fc)))
    as (reqs' & Hput & Hlen' & Hat); [lia | lia | done | done |].
  rewrite Hput. cbn [mbind result_bind].
  eexists. split; [reflexivity |]. split; [| split; [| split; [| split]]].
  - rewrite pending_queue_put_back; try done; try lia.
    by rewrite Hpend, fmap_app.
  - repeat split; cbn; try lia; apply Z.mod_pos_bound; lia.
  - done.
  - done.
  - intros Hnil. unfold resend in Hput. rewrite Hnil in Hput.
    cbn in Hput. injection Hput as Hread <-.
    unfold resend. rewrite Hnil. cbn [merge_sort length].
    cbn. rewrite <- Hread. done.
Qed.

(** X24: replaying twice is replaying once.  After [fuse_restart_requests]
    has put back the registered requests older than the head of the queue,
    a second call finds none: it returns 0 and leaves the connection as it
    is, but for waking the reader once more. *)
Theorem fuse_restart_requests_idempotent fc queued :
  QUEUE_SIZE = MAX_IDS ->
  Z.of_nat (length (request_map fc)) = MAX_IDS ->
  (forall (i : nat) req, request_map fc !! i = Some (Some req) ->
     is_Some (mem fc !! req)) ->
  queue_shape cfg (queue fc) ->
  pending_queue cfg (queue fc) = Some <$> queued ->
  Forall (fun req => is_Some (mem fc !! req)) queued ->
  Z.of_nat (length (filter (fun req => sequence_at (mem fc) req
                                       < replay_boundary cfg fc)
                      (registered fc))
            + length queued) + 1 < QUEUE_SIZE ->
  exists fc1,
    fuse_restart_requests cfg fc true = Ret (fc1, 0) /\
    fuse_restart_requests cfg fc1 true = Ret (fuse_conn_wakeup fc1, 0).
Proof.
  intros Hsize Hmaplen Htab Hshape Hpend Hmem Hroom.
  destruct (fuse_restart_requests_run fc queued)
    as (q' & Hrun & Hpq & Hshape' & Hwr & Hws & _); try done.
  set (below := filter _ (registered fc)) in *.
  set (resend := merge_sort (reqs_le (mem fc)) below) in *.
  assert (Hperm : resend ≡ₚ below) by apply merge_sort_Permutation.
  set (fc1 := fuse_conn_wakeup (set_queue q' fc)).
  exists fc1. split; [done |].
  assert (Hbelow1 : filter (fun req => sequence_at (mem fc1) req
                                       < replay_boundary cfg fc1)
                      (registered fc1) = []).
  { change (registered fc1) with (registered fc).
    change (mem fc1) with (mem fc).
    unfold replay_boundary. change (queue fc1) with q'.
    change (mem fc1) with (mem fc). rewrite Hpq.
    destruct resend as [| a rest] eqn:Hres.
    - cbn [app]. rewrite Hws, <- Hpend. change (below = []).
      by apply Permutation_nil.
    - cbn [app fmap list_fmap].
      assert (Ha : a ∈ below) by (rewrite <- Hperm; left).
      apply list_elem_of_filter in Ha as [Ha _].
      assert (Hin : forall x, x ∈ registered fc ->
                sequence_at (mem fc) x < replay_boundary cfg fc ->
                x ∈ a :: rest).
      { intros x Hx Hlt. rewrite Hperm. by apply list_elem_of_filter. }
      pose proof (sorted_by_compare (mem fc) below) as Hs.
      fold resend in Hs. rewrite Hres in Hs.
      apply StronglySorted_cons in Hs as [Hall _].
      rewrite Forall_forall in Hall.
      clearbody below. clear Hperm Hres.
      destruct (filter _ (registered fc)) as [| x l] eqn:Hf; [done | exfalso].
      assert (Hx : x ∈ x :: l) by left.
      rewrite <- Hf in Hx. apply list_elem_of_filter in Hx as [Hlt Hx].
      cbn in Hlt.
      assert (Hxb : x ∈ a :: rest) by (apply Hin; [done | lia]).
      apply elem_of_cons in Hxb as [-> | Hxb]; [lia |].
      specialize (Hall x Hxb). unfold seq_le in Hall. lia. }
  destruct (fuse_restart_requests_run fc1 (resend ++ queued))
    as (q2 & Hrun2 & _ & _ & _ & _ & Hq2); try done.
  - apply Forall_app. split; [| done].
    apply Forall_forall. intros x Hx. rewrite Hperm in Hx.
    apply list_elem_of_filter in Hx as [_ Hx].
    apply list_elem_of_omap in Hx as (s & Hs & Hid).
    destruct s as [s |]; [| done]. cbn in Hid. injection Hid as ->.
    apply list_elem_of_lookup in Hs as [i Hi]. by eapply Htab.
  - rewrite Hbelow1. cbn [length Nat.add].
    rewrite length_app.
    assert (length resend = length below) by (by apply Permutation_length).
    lia.
  - rewrite Hrun2, (Hq2 Hbelow1). change (queue fc1) with q'.
    f_equal. f_equal. clear -Hwr. unfold fc1.
    destruct q' as [ww wr ws rr rw rq]. cbn in Hwr. subst wr.
    by destruct fc as [co ad nf fi pc rm qu me lo].
Qed.

(** ** Order of the queue *)

Lemma StronglySorted_in_ext {A} (R R' : relation A) l :
  (forall a b, a ∈ l -> b ∈ l -> R a b -> R' a b) ->
  StronglySorted R l -> StronglySorted R' l.
Proof.
  induction l as [| x l IH]; intros Hext Hs; [constructor |].
  apply StronglySorted_cons in Hs as [Hall Hs]. constructor.
  - apply IH; [| done]. intros a b Ha Hb. apply Hext; by right.
  - rewrite Forall_forall in Hall |- *. intros y Hy.
    apply Hext; [left | by right | by apply Hall].
Qed.

(** X25: submissions keep the queue in the order of the sequence numbers.
    If the pending requests carry strictly increasing sequence numbers, all
    below the next number to be issued, they still do after
    [fuse_request_send_nowait] has appended a request that was not
    queued. *)
Theorem fuse_request_send_nowait_ordered fc cpu cpu' req r c queued :
  conn_inv cfg fc ->
  connected fc || allow_disconnected fc = true ->
  per_cpu_ids fc !! cpu = Some c ->
  (pc_num_free_ids c = 0 -> 0 < num_free_ids fc) ->
  mem fc !! req = Some r -> req ∉ registered fc ->
  0 <= in_numargs r <= Z.of_nat (length (in_args r)) ->
  queue_shape cfg (queue fc) ->
  pending_count cfg (queue fc) + 1 < QUEUE_SIZE ->
  ring_ordered cfg fc queued -> req ∉ queued ->
  0 <= w_sequence (queue fc) < 2 ^ 64 - 1 ->
  exists fc',
    fuse_request_send_nowait cfg fc cpu cpu' req = Ret fc' /\
    ring_ordered cfg fc' (queued ++ [req]).
Proof.
  intros Hinv Hconn Hc Havail Hreq Hfresh Hargs Hshape Hroom
    (Hpend & Hsorted & Hbelow) Hnew Hseq.
  destruct (fuse_request_send_nowait_post fc cpu cpu' req r c)
    as (fc' & uid & Hrun & _ & Hpq & _ & Hmem & _ & _ & Hws & _); try done.
  exists fc'. split; [done |].
  assert (Hws' : w_sequence (queue fc') = w_sequence (queue fc) + 1).
  { rewrite Hws. unfold u64. apply Z.mod_small. lia. }
  assert (Hother : forall p, p ∈ queued ->
            sequence_at (mem fc') p = sequence_at (mem fc) p).
  { intros p Hp. unfold sequence_at. rewrite Hmem.
    rewrite lookup_insert_ne; [done |]. by intros ->. }
  assert (Hown : sequence_at (mem fc') req = w_sequence (queue fc)).
  { unfold sequence_at. by rewrite Hmem, lookup_insert_eq. }
  rewrite Forall_forall in Hbelow.
  split; [| split].
  - by rewrite Hpq, Hpend, fmap_app.
  - apply StronglySorted_app_2.
    + intros a b Ha Hb. apply list_elem_of_singleton in Hb as ->.
      unfold seq_lt. rewrite Hown, Hother by done. by apply Hbelow.
    + eapply StronglySorted_in_ext; [| exact Hsorted].
      intros a b Ha Hb. unfold seq_lt. by rewrite !Hother.
    + repeat constructor.
  - apply Forall_app. split.
    + apply Forall_forall. intros p Hp. rewrite Hother, Hws' by done.
      specialize (Hbelow p Hp). lia.
    + apply Forall_singleton. lia.
Qed.

End More.

(** ** The further properties on the small configuration *)

Lemma submitted_inv : conn_inv Small.cfg Small.submitted.
Proof.
  split; [concrete_shape |]. split; [apply submitted_table_ok |].
  apply (bool_decide_unpack _). vm_compute. exact I.
Qed.

Lemma three_acquired_run :
  alloc_run Small.cfg (fuse_conn_init Small.cfg 2, [])
    [Acquire 0; Acquire 1; Acquire 0] Small.three_acquired.
Proof.
  repeat (eapply run_cons;
          [apply step_acquire; vm_compute; reflexivity |]).
  apply run_nil.
Qed.

(** With A, B and C in flight (identifiers 8, 10 and 9), the next
    identifier CPU 0 is given is none of theirs. *)
Lemma fuse_get_unique_fresh_slot_witness :
  exists fc' uid,
    fuse_get_unique Small.cfg Small.submitted 0 = Ret (fc', uid) /\
    0 < uid < 2 ^ 64 /\
    request_map fc' !! Z.to_nat (slot_of Small.cfg uid) = Some None /\
    uid ∉ unique_at (mem Small.submitted) <$> registered Small.submitted.
Proof.
  assert (Hrun : exists fc' uid,
            fuse_get_unique Small.cfg Small.submitted 0 = Ret (fc', uid))
    by (vm_compute; do 2 eexists; reflexivity).
  destruct Hrun as (fc' & uid & Hrun).
  exists fc', uid. split; [exact Hrun |].
  exact (fuse_get_unique_fresh_slot Small.cfg Small_cfg_ok
           Small.submitted 0 fc' uid submitted_inv Hrun).
Defined.

(** After five acquires on two CPUs the eight slots are the three free
    ones and the five held ones. *)
Lemma identifier_conservation_witness :
  slot_of Small.cfg <$> free_pool Small.five_acquired.1 ++ Small.five_acquired.2
  ≡ₚ [0; 1; 2; 3; 4; 5; 6; 7].
Proof.
  exact (identifier_conservation Small.cfg Small_cfg_ok 2
           [Acquire 0; Acquire 1; Acquire 0; Acquire 1; Acquire 0]
           Small.five_acquired.1 Small.five_acquired.2 five_acquired_run).
Defined.

(** With three identifiers held on a machine of two CPUs, a fourth acquire
    succeeds: 3 + 4 < 8. *)
Lemma fuse_get_unique_capacity_witness :
  exists fc' uid,
    fuse_get_unique Small.cfg Small.three_acquired.1 0 = Ret (fc', uid) /\
    (uid ∉ [9; 10; 8]) /\
    slot_of Small.cfg uid ∉ slot_of Small.cfg <$> [9; 10; 8].
Proof.
  apply (fuse_get_unique_capacity Small.cfg Small_cfg_ok 2
           [Acquire 0; Acquire 1; Acquire 0]
           Small.three_acquired.1 Small.three_acquired.2 0
           three_acquired_run).
  - lia.
  - vm_compute. reflexivity.
Defined.

(** After eight acquires on CPU 0 a ninth stops at the BUG_ON. *)
Lemma fuse_get_unique_exhausted_witness :
  fuse_get_unique Small.cfg Small.exhausted 0 = BugOn.
Proof.
  apply (fuse_get_unique_exhausted Small.cfg Small_cfg_ok Small.exhausted 0
           {| pc_num_free_ids := 0; pc_free_ids := [7; 6; 0; 0] |}).
  - concrete_shape.
  - reflexivity.
  - split; reflexivity.
Defined.


(** The identifier 12 released and acquired again on CPU 1 comes back as
    20, in the same slot 4. *)
Lemma release_then_acquire_witness :
  exists fc1 fc2,
    fuse_put_unique Small.cfg Small.five_acquired.1 1 12 = Ret fc1 /\
    fuse_get_unique Small.cfg fc1 1 = Ret (fc2, 20) /\
    slot_of Small.cfg 20 = slot_of Small.cfg 12.
Proof.
  assert (Hput : exists fc1,
            fuse_put_unique Small.cfg Small.five_acquired.1 1 12 = Ret fc1)
    by (vm_compute; eexists; reflexivity).
  destruct Hput as (fc1 & Hput).
  destruct (release_then_acquire Small.cfg Small_cfg_ok
              Small.five_acquired.1 1 12 fc1)
    as (fc2 & Hget & Hslot & _).
  - concrete_shape.
  - exact Hput.
  - exists fc1, fc2. split; [exact Hput |]. split; [exact Hget | exact Hslot].
Defined.

Lemma submitted_of_four_inv : conn_inv Small.cfg Small.submitted_of_four.
Proof.
  split; [concrete_shape |]. split.
  - intros i req Hi.
    do 8 (destruct i as [| i];
          [vm_compute in Hi; try discriminate Hi; injection Hi as <-;
           eexists; split; reflexivity |]).
    vm_compute in Hi. discriminate Hi.
  - apply (bool_decide_unpack _). vm_compute. exact I.
Qed.

(** Two arguments of 8 and 4 bytes out of three. *)
Lemma len_args_sum_witness : len_args 2 [8; 4; 0] = Ret 12.
Proof. apply (len_args_sum 2 [8; 4; 0]). vm_compute. split; congruence. Defined.

(** D is submitted from CPU 1 while A, B and C are in flight: it is found
    under its identifier, and A still under 8. *)
Lemma fuse_request_send_nowait_find_witness :
  exists fc' uid,
    fuse_request_send_nowait Small.cfg Small.submitted_of_four 1 1 13%nat
    = Ret fc' /\
    uid <> 0 /\
    request_find Small.cfg fc' uid = Ret (Some 13%nat).
Proof.
  destruct (fuse_request_send_nowait_find Small.cfg Small_cfg_ok
              Small.submitted_of_four 1 1 13%nat
              (Small.new_req 8193 16 true)
              {| pc_num_free_ids := 1; pc_free_ids := [3; 2; 0; 0] |})
    as (fc' & uid & Hrun & Hne & _ & Hfind & _).
  - apply submitted_of_four_inv.
  - reflexivity.
  - reflexivity.
  - intros H. vm_compute in H. discriminate H.
  - reflexivity.
  - apply (bool_decide_unpack _). vm_compute. exact I.
  - vm_compute. split; congruence.
  - vm_compute. repeat split; congruence.
  - vm_compute. reflexivity.
  - exists fc', uid. split; [exact Hrun |]. split; [exact Hne | exact Hfind].
Defined.

(** The same submission: D leaves with the length 40 + 16 and the
    sequence number 4. *)
Lemma fuse_request_send_nowait_stamps_witness :
  exists fc' r',
    fuse_request_send_nowait Small.cfg Small.submitted_of_four 1 1 13%nat
    = Ret fc' /\
    mem fc' !! 13%nat = Some r' /\
    ih_len (in_h r') = 56 /\ sequence r' = 4 /\
    w_sequence (queue fc') = 5 /\
    pending_queue Small.cfg (queue fc')
    = [Some 10; Some 11; Some 12; Some 13]%nat.
Proof.
  destruct (fuse_request_send_nowait_stamps Small.cfg Small_cfg_ok
              Small.submitted_of_four 1 1 13%nat
              (Small.new_req 8193 16 true)
              {| pc_num_free_ids := 1; pc_free_ids := [3; 2; 0; 0] |})
    as (fc' & r' & Hrun & Hmem & Hlen & Hseq & Hws & Hpq & _).
  - apply submitted_of_four_inv.
  - reflexivity.
  - reflexivity.
  - intros H. vm_compute in H. discriminate H.
  - reflexivity.
  - apply (bool_decide_unpack _). vm_compute. exact I.
  - vm_compute. split; congruence.
  - vm_compute. repeat split; congruence.
  - vm_compute. reflexivity.
  - exists fc', r'. split; [exact Hrun |]. split; [exact Hmem |].
    split; [exact Hlen |]. split; [exact Hseq |].
    split; [exact Hws | exact Hpq].
Defined.

(** The same submission: the queue A, B, C, D is in the order of the
    sequence numbers 1, 2, 3, 4. *)
Lemma fuse_request_send_nowait_ordered_witness :
  exists fc',
    fuse_request_send_nowait Small.cfg Small.submitted_of_four 1 1 13%nat
    = Ret fc' /\
    ring_ordered Small.cfg fc' [10; 11; 12; 13]%nat.
Proof.
  apply (fuse_request_send_nowait_ordered Small.cfg Small_cfg_ok
           Small.submitted_of_four 1 1 13%nat
           (Small.new_req 8193 16 true)
           {| pc_num_free_ids := 1; pc_free_ids := [3; 2; 0; 0] |}
           [10; 11; 12]%nat).
  - apply submitted_of_four_inv.
  - reflexivity.
  - reflexivity.
  - intros H. vm_compute in H. discriminate H.
  - reflexivity.
  - apply (bool_decide_unpack _). vm_compute. exact I.
  - vm_compute. split; congruence.
  - vm_compute. repeat split; congruence.
  - vm_compute. reflexivity.
  - split; [reflexivity |]. split.
    + repeat constructor; vm_compute; reflexivity.
    + repeat constructor; vm_compute; reflexivity.
  - apply (bool_decide_unpack _). vm_compute. exact I.
  - vm_compute. split; [congruence | reflexivity].
Defined.

(** The completion of A (identifier 8) while A, B and C are in flight. *)
Lemma fuse_dev_do_write_completes_witness :
  exists res,
    fuse_dev_do_write Small.cfg Small.submitted 0
      (Small.buffer 16 16 Small.completion8) = Ret res /\
    wr_ret res = 16 /\
    (10%nat ∉ registered (wr_fc res)) /\
    8 ∈ free_pool (wr_fc res).
Proof.
  destruct (fuse_dev_do_write_completes Small.cfg Small_cfg_ok
              Small.submitted 0 (Small.buffer 16 16 Small.completion8)
              Small.completion8 (Small.buffer 0 0 []) 0 10%nat
              {| in_h := {| ih_len := 48; ih_opcode := 8193; ih_unique := 8 |};
                 in_numargs := 1; in_args := [8; 0; 0];
                 out_h := {| oh_len := 0; oh_error := 0; oh_unique := 0 |};
                 sequence := 1; end_ := true;
                 misc_pxd_rdwr_in :=
                   {| rdwr_size := 0; rdwr_flags := 0; rdwr_offset := 0 |};
                 rq := {| nr_phys_segments := 0; segments := [] |} |})
    as (res & Hrun & Hret & _ & _ & Hreg & Hfree & _).
  - apply submitted_inv.
  - vm_compute. lia.
  - reflexivity.
  - reflexivity.
  - vm_compute. congruence.
  - reflexivity.
  - reflexivity.
  - vm_compute. congruence.
  - reflexivity.
  - vm_compute. split; [reflexivity | congruence].
  - left. vm_compute. congruence.
  - exists res. split; [exact Hrun |]. split; [exact Hret |].
    split; [exact Hreg | exact Hfree].
Defined.

(** Three bytes fill a segment of two bytes and one of one byte. *)
Lemma write_segments_fill_witness :
  exists segs' iter',
    write_segments [[0; 0]; [0]] (Small.buffer 3 3 [7; 8; 9])
    = (segs', iter', true) /\
    concat segs' = [7; 8; 9] /\ count iter' = 0.
Proof.
  destruct (write_segments_fill [[0; 0]; [0]] (Small.buffer 3 3 [7; 8; 9]))
    as [Hfill _].
  - reflexivity.
  - vm_compute. congruence.
  - destruct Hfill as (segs' & iter' & Hrun & Hcat & _ & Hcount & _).
    + vm_compute. congruence.
    + exists segs', iter'. split; [exact Hrun |].
      split; [exact Hcat | exact Hcount].
Defined.

(** The completion of a read of four bytes that carries two: the write
    call fails with -EFAULT and the request stays registered. *)
Lemma fuse_dev_do_write_payload_fault_witness :
  exists res,
    fuse_dev_do_write Small.cfg Small.reading 0
      (Small.buffer 18 18 Small.short_payload) = Ret res /\
    wr_ret res = - EFAULT /\
    request_map (wr_fc res) = request_map Small.reading /\
    request_find Small.cfg (wr_fc res) 8 = Ret (Some 10%nat).
Proof.
  destruct (fuse_dev_do_write_payload_fault Small.cfg Small.reading 0
              (Small.buffer 18 18 Small.short_payload)
              (take 16 Small.short_payload) (Small.buffer 2 2 [1; 2]) 10%nat
              {| in_h := {| ih_len := 48; ih_opcode := 8194; ih_unique := 8 |};
                 in_numargs := 1; in_args := [8; 0; 0];
                 out_h := {| oh_len := 0; oh_error := 0; oh_unique := 0 |};
                 sequence := 1; end_ := true;
                 misc_pxd_rdwr_in :=
                   {| rdwr_size := 4; rdwr_flags := 0; rdwr_offset := 0 |};
                 rq := {| nr_phys_segments := 1;
                          segments := [[0; 0; 0; 0]] |} |})
    as (res & Hrun & Hret & _ & Hmap & Hfind & _).
  - vm_compute. congruence.
  - reflexivity.
  - vm_compute. congruence.
  - reflexivity.
  - vm_compute. split; [reflexivity | congruence].
  - reflexivity.
  - reflexivity.
  - reflexivity.
  - vm_compute. congruence.
  - reflexivity.
  - reflexivity.
  - vm_compute. congruence.
  - reflexivity.
  - exists res. split; [exact Hrun |]. split; [exact Hret |].
    split; [exact Hmap | exact Hfind].
Defined.

(** A completion for the unknown identifier 0xdead fails and changes
    nothing. *)
Lemma fuse_dev_do_write_error_frame_witness :
  exists res,
    fuse_dev_do_write Small.cfg Small.submitted 0
      (Small.buffer 16 16 Small.unknown_id) = Ret res /\
    wr_ret res < 0 /\
    log (wr_fc res) = log Small.submitted /\
    request_map (wr_fc res) = request_map Small.submitted /\
    queue (wr_fc res) = queue Small.submitted.
Proof.
  assert (Hrun : exists res,
            fuse_dev_do_write Small.cfg Small.submitted 0
              (Small.buffer 16 16 Small.unknown_id) = Ret res /\
            wr_ret res < 0)
    by (vm_compute; eexists; split; reflexivity).
  destruct Hrun as (res & Hrun & Hneg).
  destruct (fuse_dev_do_write_error_frame Small.cfg Small.submitted 0
              (Small.buffer 16 16 Small.unknown_id) res)
    as (Hlog & Hmap & _ & Hq & _).
  - vm_compute. congruence.
  - exact Hrun.
  - exact Hneg.
  - exists res. split; [exact Hrun |]. split; [exact Hneg |].
    split; [exact Hlog |]. split; [exact Hmap | exact Hq].
Defined.

(** A buffer of exactly 96 bytes takes A and B and leaves C queued. *)
Lemma fuse_dev_do_read_fifo_witness :
  exists fc' iter',
    fuse_dev_do_read Small.cfg 8 [] Small.submitted 0 false
      (Small.buffer 96 96 []) = Ret (fc', iter', 96) /\
    out iter' = [(SrcHeader 10%nat, 40); (SrcArg0 10%nat, 8);
                 (SrcHeader 11%nat, 40); (SrcArg0 11%nat, 8)] /\
    pending_queue Small.cfg (queue fc') = [Some 12%nat].
Proof.
  destruct (fuse_dev_do_read_fifo Small.cfg Small_cfg_ok 8 []
              Small.submitted 0 false (Small.buffer 96 96 [])
              [(10%nat, 8); (11%nat, 8)] [(12%nat, 8)] 0)
    as (fc' & iter' & Hrun & Hout & _ & Hpq & _).
  - vm_compute. repeat split; congruence.
  - reflexivity.
  - discriminate.
  - reflexivity.
  - cbn. lia.
  - repeat constructor;
      (eexists; split; [reflexivity |]; split; [reflexivity |];
       split; [vm_compute; congruence | reflexivity]).
  - vm_compute. congruence.
  - right. reflexivity.
  - cbn. lia.
  - exists fc', iter'. split; [exact Hrun |]. split; [exact Hout | exact Hpq].
Defined.

(** Abort on CPU 1 with A, B and C in flight, where the cache has room for
    three identifiers: the queue is left as it is, and a second abort
    changes nothing. *)
Lemma fuse_abort_conn_frame_witness :
  exists fc',
    fuse_abort_conn Small.cfg Small.submitted 1 = Ret fc' /\
    queue fc' = queue Small.submitted /\
    registered fc' = [] /\
    fuse_abort_conn Small.cfg fc' 1 = Ret fc'.
Proof.
  destruct (fuse_abort_conn_frame Small.cfg Small_cfg_ok Small.submitted 1
              {| pc_num_free_ids := 1; pc_free_ids := [3; 2; 0; 0] |})
    as (fc' & Hrun & Hq & _ & _ & Hreg & Hagain).
  - reflexivity.
  - reflexivity.
  - apply submitted_inv.
  - reflexivity.
  - vm_compute. congruence.
  - exists fc'. split; [exact Hrun |]. split; [exact Hq |].
    split; [exact Hreg | exact Hagain].
Defined.

(** The device file is closed on CPU 1 with A, B and C in flight, and on
    CPU 1 with five requests in flight: the second call never returns. *)
Lemma fuse_dev_release_aborts_witness :
  (exists fc',
     fuse_dev_release Small.cfg (Small.dev_file Small.submitted 0) 1
     = Ret ({| private_data :=
                 Some {| co_conn := fc'; co_count := 0; co_released := true |};
               f_flags := 0 |}, 0) /\
     connected fc' = false /\ registered fc' = [] /\
     log fc' = log Small.submitted
               ++ concat (finalization Small.cfg (mem Small.submitted)
                            (- ECONNABORTED) <$> [10; 12; 11]%nat)) /\
  fuse_dev_release Small.cfg (Small.dev_file Small.five_submitted 0) 1 = Spin.
Proof.
  split.
  - destruct (fuse_dev_release_aborts Small.cfg Small_cfg_ok
                (Small.dev_file Small.submitted 0)
                {| co_conn := Small.submitted; co_count := 1;
                   co_released := false |} 1
                {| pc_num_free_ids := 1; pc_free_ids := [3; 2; 0; 0] |})
      as [_ Hok].
    + reflexivity.
    + reflexivity.
    + apply submitted_inv.
    + reflexivity.
    + destruct Hok as (fc' & Hrun & Hconn & Hreg & _ & Hlog & _).
      * vm_compute. congruence.
      * exists fc'. split; [exact Hrun |]. split; [exact Hconn |].
        split; [exact Hreg | exact Hlog].
  - destruct (fuse_dev_release_aborts Small.cfg Small_cfg_ok
                (Small.dev_file Small.five_submitted 0)
                {| co_conn := Small.five_submitted; co_count := 1;
                   co_released := false |} 1
                {| pc_num_free_ids := 0; pc_free_ids := [0; 0; 0; 0] |})
      as [Hspin _].
    + reflexivity.
    + reflexivity.
    + apply five_submitted_inv.
    + reflexivity.
    + apply Hspin. vm_compute. reflexivity.
Defined.

(** Poll on the device with A, B and C pending reports it readable and
    writable. *)
Lemma fuse_dev_poll_read_witness :
  exists f1 mask,
    fuse_dev_poll (Small.dev_file Small.submitted 0) = (f1, mask) /\
    Z.land mask POLLOUT = POLLOUT /\
    (Z.land mask POLLIN = POLLIN
     <-> (request_pending Small.submitted).2 = true).
Proof.
  assert (Hpoll : exists f1 mask,
            fuse_dev_poll (Small.dev_file Small.submitted 0) = (f1, mask))
    by (do 2 eexists; reflexivity).
  destruct Hpoll as (f1 & mask & Hpoll).
  destruct (fuse_dev_poll_read Small.cfg Small_cfg_ok
              (Small.dev_file Small.submitted 0) f1 mask Hpoll)
    as (_ & _ & Hconn).
  destruct (Hconn {| co_conn := Small.submitted; co_count := 1;
                     co_released := false |})
    as (Hout & Hin & _).
  - reflexivity.
  - reflexivity.
  - exists f1, mask. split; [exact Hpoll |]. split; [exact Hout | exact Hin].
Defined.

(** A write of thirteen zero bytes: the scan by words and bytes decides as
    [fuse_convert_zero_writes] does. *)
Lemma fuse_convert_zero_writes_scan_all_witness :
  fuse_convert_zero_writes_scan Small.cfg Small.zero_write
  = fuse_convert_zero_writes Small.cfg Small.zero_write.
Proof.
  apply (fuse_convert_zero_writes_scan_all Small.cfg Small.zero_write).
  repeat constructor; vm_compute; congruence.
Defined.

(** A non-blocking read call on a connected channel with nothing queued. *)
Lemma fuse_dev_do_read_idle_witness :
  fuse_dev_do_read Small.cfg 8 [] (Small.conn []) 0 true (Small.buffer 48 48 [])
  = Ret (Small.conn [], Small.buffer 48 48 [], - EAGAIN).
Proof.
  destruct (fuse_dev_do_read_idle Small.cfg 8 [] (Small.conn []) 0 true
              (Small.buffer 48 48 []))
    as (_ & Hagain & _).
  - reflexivity.
  - reflexivity.
  - apply Hagain; reflexivity.
Defined.

(** A data fetch that announces one vector and carries its 16 bytes. *)
Lemma copy_in_read_data_iovec_batch_witness :
  copy_in_read_data_iovec Small.cfg
    (Small.buffer 16 16 [0; 16; 0; 0; 0; 0; 0; 0; 4; 0; 0; 0; 0; 0; 0; 0])
    {| rd_unique := 9; rd_iovcnt := 1; rd_offset := 0 |}
    (Small.buffer 0 0 [])
  = Ret (0, Small.buffer 0 0 [],
         {| rd_unique := 9; rd_iovcnt := 0; rd_offset := 0 |},
         {| count := 4; user_ok := 4; data := []; out := [] |}).
Proof.
  destruct (copy_in_read_data_iovec_batch Small.cfg
              (Small.buffer 16 16
                 [0; 16; 0; 0; 0; 0; 0; 0; 4; 0; 0; 0; 0; 0; 0; 0])
              {| rd_unique := 9; rd_iovcnt := 1; rd_offset := 0 |}
              (Small.buffer 0 0 []))
    as (_ & Hcopy & _).
  - vm_compute. split; reflexivity.
  - vm_compute. split; [congruence | reflexivity].
  - destruct Hcopy as [_ Hres].
    + reflexivity.
    + vm_compute. congruence.
    + exact Hres.
Defined.

(** Segments of three and two bytes fetched from the offset 1 into a
    buffer of four bytes. *)
Lemma read_data_segments_copy_witness :
  exists l',
    read_data_segments Small.cfg 12%nat 0 [[1; 2; 3]; [4; 5]]
      {| f_iter := Small.buffer 0 0 [];
         f_read_data := {| rd_unique := 9; rd_iovcnt := 0; rd_offset := 1 |};
         f_data_iter := Small.buffer 4 4 []; f_skipped := 0 |}
    = Ret (0, l') /\
    out (f_data_iter l') = [(SrcPage 12%nat 0 1, 2); (SrcPage 12%nat 1 0, 2)] /\
    count (f_data_iter l') = 0.
Proof.
  destruct (read_data_segments_copy Small.cfg 12%nat [[1; 2; 3]; [4; 5]] 0%nat
              {| f_iter := Small.buffer 0 0 [];
                 f_read_data :=
                   {| rd_unique := 9; rd_iovcnt := 0; rd_offset := 1 |};
                 f_data_iter := Small.buffer 4 4 []; f_skipped := 0 |})
    as (l' & Hrun & _ & _ & Hout & Hcount & _).
  - vm_compute. split; congruence.
  - vm_compute. congruence.
  - vm_compute. congruence.
  - exists l'. split; [exact Hrun |]. split; [exact Hout | exact Hcount].
Defined.

(** With seven requests queued in a ring of eight, an eighth
    [queue_request] stops at the BUG_ON. *)
Lemma queue_request_capacity_witness :
  queue_request Small.cfg Small.full_ring 10%nat = BugOn.
Proof.
  destruct (queue_request_capacity Small.cfg Small_cfg_ok Small.full_ring
              10%nat
              {| in_h := {| ih_len := 0; ih_opcode := 8193; ih_unique := 0 |};
                 in_numargs := 1; in_args := [8; 0; 0];
                 out_h := {| oh_len := 0; oh_error := 0; oh_unique := 0 |};
                 sequence := 7; end_ := true;
                 misc_pxd_rdwr_in :=
                   {| rdwr_size := 0; rdwr_flags := 0; rdwr_offset := 0 |};
                 rq := {| nr_phys_segments := 0; segments := [] |} |})
    as [Hfull _].
  - vm_compute. repeat split; congruence.
  - vm_compute. repeat split; congruence.
  - reflexivity.
  - apply Hfull. reflexivity.
Defined.

(** Replay after A and B were delivered, twice. *)
Lemma fuse_restart_requests_idempotent_witness :
  exists fc1,
    fuse_restart_requests Small.cfg Small.delivered2 true = Ret (fc1, 0) /\
    fuse_restart_requests Small.cfg fc1 true = Ret (fuse_conn_wakeup fc1, 0).
Proof.
  apply (fuse_restart_requests_idempotent Small.cfg Small_cfg_ok
           Small.delivered2 [12%nat]).
  - reflexivity.
  - reflexivity.
  - intros i req Hi.
    do 8 (destruct i as [| i];
          [vm_compute in Hi; try discriminate Hi; injection Hi as <-;
           eexists; reflexivity |]).
    vm_compute in Hi. discriminate Hi.
  - vm_compute. repeat split; congruence.
  - reflexivity.
  - repeat constructor. eexists. reflexivity.
  - vm_compute. reflexivity.
Defined.
